(** * Story clustering, calm ranking and timeline building of newslett-server

    A shallow embedding of the core of the news backend:

    - [services/clusteringService.js]: text similarity, article/story
      matching, story creation and incremental cluster maintenance;
    - [models/StorySource.js], [models/Source.js], [models/Story.js]: the
      statics the clustering service calls (source diversity, average
      credibility, credibility registry, importance recomputation, ranked
      query);
    - [services/calmRankingService.js]: the importance score and the ranked,
      paginated story list;
    - [services/contextService.js]: the "what happened before" timeline;
    - the [News] schema: the read-time and vote-percentage virtuals and the
      save hook.

    Modelling conventions.

    - JavaScript numbers are IEEE doubles; they are embedded as exact
      rationals [Q] (scores, credibilities, similarities) or integers [Z]
      (counts, dates in milliseconds since the epoch). Every concrete
      evaluation below is chosen so that the double computation gives the
      same verdict.
    - Strings are sequences of ASCII characters. [\w] is [A-Za-z0-9_] and
      [\s] is tab, line feed, vertical tab, form feed, carriage return and
      space; any other character is neither.
    - The MongoDB collections are lists in insertion ("natural") order; the
      asynchronous calls are run one after the other, as the [await]s of the
      source do, and the clock is read once per top-level call ([now]).
    - A thrown exception keeps the writes made before it: there is no
      transaction anywhere in the source. *)

From Stdlib Require Import QArith Qround Qminmax ZArith List String Ascii Lia Lqa Bool.
From Stdlib Require Import Sorting.Sorted Sorting.Permutation DecimalString.
From stdpp Require Import gmap strings list.

Local Open Scope string_scope.
Local Open Scope Z_scope.

(** ** JavaScript text primitives *)

Module Js.

Definition is_space (c : ascii) : bool :=
  match N_of_ascii c with
  | 9%N | 10%N | 11%N | 12%N | 13%N | 32%N => true
  | _ => false
  end.

Definition is_word (c : ascii) : bool :=
  let n := N_of_ascii c in
  ((48 <=? n) && (n <=? 57) || (65 <=? n) && (n <=? 90)
   || (n =? 95) || (97 <=? n) && (n <=? 122))%N.

Definition lower_char (c : ascii) : ascii :=
  let n := N_of_ascii c in
  if ((65 <=? n) && (n <=? 90))%N then ascii_of_N (n + 32) else c.

(** [s.toLowerCase()] *)
Fixpoint toLowerCase (s : string) : string :=
  match s with
  | EmptyString => EmptyString
  | String c r => String (lower_char c) (toLowerCase r)
  end.

(** [s.replace(/[^\w\s]/g, r)]: every character that is neither a word
    character nor white space is replaced by [r]. *)
Fixpoint replace_punct (r : string) (s : string) : string :=
  match s with
  | EmptyString => EmptyString
  | String c t =>
      if is_word c || is_space c then String c (replace_punct r t)
      else r ++ replace_punct r t
  end.

(** [s.split(/\s+/)]: the pieces between maximal runs of white space. A
    run at the start or at the end leaves an empty piece there, and the
    empty string splits into one empty piece. [cur] is the piece being
    read, reversed; [insp] tells that the previous character was white
    space. *)
Fixpoint split_go (s : string) (cur : string) (insp : bool) : list string :=
  match s with
  | EmptyString => [String.rev cur]
  | String c t =>
      if is_space c then
        if insp then split_go t EmptyString true
        else String.rev cur :: split_go t EmptyString true
      else split_go t (String c cur) false
  end.

Definition split_ws (s : string) : list string := split_go s EmptyString false.

(** [words.join(' ')] *)
Definition join (ws : list string) : string := String.concat " " ws.

(** [xs.slice(i, i + n)] *)
Definition slice {A} (i n : nat) (xs : list A) : list A := firstn n (skipn i xs).

(** [x || d] on strings: the empty string (and a missing field, [None])
    is falsy. *)
Definition str_or (x : option string) (d : string) : string :=
  match x with
  | Some s => if String.eqb s "" then d else s
  | None => d
  end.

(** [x || d] on numbers (a zero is falsy). *)
Definition num_or (x d : Q) : Q := if Qeq_bool x 0 then d else x.

(** [Math.round(x)]: the nearest integer, halves rounded up. *)
Definition round (x : Q) : Z := Qfloor (x + (1 # 2)).

(** [Math.ceil(x)] *)
Definition ceil (x : Q) : Z := Qceiling x.

Definition ofZ (n : Z) : Q := inject_Z n.
Definition ofNat (n : nat) : Q := inject_Z (Z.of_nat n).

(** [xs.includes(x)] on an array of strings. *)
Definition includes (xs : list string) (x : string) : bool :=
  bool_decide (x ∈ xs).

(** [set.has(x)] *)
Definition has (s : gset string) (x : string) : bool := bool_decide (x ∈ s).

End Js.

(** ** Similarity engine ([clusteringService.js], lines 21-112) *)

Module Similarity.

Definition stopwords : gset string :=
  list_to_set
    ["the"; "a"; "an"; "and"; "or"; "but"; "in"; "on"; "at"; "to"; "for";
     "of"; "with"; "by"; "from"; "as"; "is"; "was"; "are"; "were"; "been";
     "be"; "have"; "has"; "had"; "do"; "does"; "did"; "will"; "would"; "could";
     "should"; "may"; "might"; "must"; "shall"; "can"; "need"; "dare"; "ought";
     "used"; "said"; "says"; "that"; "this"; "these"; "those"; "what"; "which";
     "who"; "whom"; "whose"; "when"; "where"; "why"; "how"; "all"; "each";
     "every"; "both"; "few"; "more"; "most"; "other"; "some"; "such"; "only";
     "own"; "same"; "than"; "too"; "very"; "just"; "also"; "now"; "here"].

Definition extractWords (text : string) : list string :=
  List.filter
    (fun word => (3 <? String.length word)%nat && negb (Js.has stopwords word))
    (Js.split_ws (Js.replace_punct " " (Js.toLowerCase text))).

(** [calculateSimilarity(text1, text2)] *)
Definition calculateSimilarity (text1 text2 : string) : Q :=
  if String.eqb text1 "" || String.eqb text2 "" then 0%Q
  else
    let words1 : gset string := list_to_set (extractWords text1) in
    let words2 : gset string := list_to_set (extractWords text2) in
    if (size words1 =? 0)%nat || (size words2 =? 0)%nat then 0%Q
    else
      let intersection :=
        List.length (List.filter (Js.has words2) (elements words1)) in
      let union :=
        size (list_to_set (elements words1 ++ elements words2)%list : gset string) in
      (Js.ofNat intersection / Js.ofNat union)%Q.

(** [extractPhrases(text, n)] *)
Definition extractPhrases (text : string) (n : nat) : list string :=
  let words := List.filter (fun w => (2 <? String.length w)%nat) (Js.split_ws text) in
  List.map (fun i => Js.join (Js.slice i n words))
           (seq 0 (S (List.length words) - n)).

(** [calculateTitleSimilarity(title1, title2)] *)
Definition calculateTitleSimilarity (title1 title2 : string) : Q :=
  let similarity := calculateSimilarity title1 title2 in
  let t1 := Js.toLowerCase title1 in
  let t2 := Js.toLowerCase title2 in
  let phrases1 := extractPhrases t1 3 in
  let phrases2 := extractPhrases t2 3 in
  let sharedPhrases := List.length (List.filter (Js.includes phrases2) phrases1) in
  let phraseBonus := Qmin (Js.ofNat sharedPhrases * 0.1) 0.3 in
  Qmin (similarity + phraseBonus) 1.

End Similarity.

(** [calculateArticleSimilarity] reads fields of an article and is given with
    the clustering service, after the data model. *)

(** ** Data model

    Only the fields that the modelled operations read or write are kept.
    Dates are milliseconds since the epoch. Article source names are taken
    as stored by the [News] schema, that is already trimmed. *)

Definition ObjectId := Z.

Module Article.
Record t := mk {
  _id : ObjectId;
  title : option string;
  description : option string;
  content : option string;
  source : string;
  url : option string;
  category : option string;
  mood : option string;
  publishedAt : option Z
}.
End Article.

Module Story.
Record t := mk {
  _id : ObjectId;
  canonicalTitle : string;
  category : string;
  mood : string;
  sourceCount : Z;
  sourceDiversity : Q;
  averageCredibility : Q;
  importanceScore : Q;
  firstSeen : Z;
  lastUpdated : Z
}.

Definition set_importanceScore (x : Q) (s : t) : t :=
  mk (_id s) (canonicalTitle s) (category s) (mood s) (sourceCount s)
     (sourceDiversity s) (averageCredibility s) x (firstSeen s) (lastUpdated s).

(** The four assignments of [addArticleToStory] before [story.save()]. *)
Definition set_statistics (count : Z) (updated : Z) (diversity credibility : Q)
    (s : t) : t :=
  mk (_id s) (canonicalTitle s) (category s) (mood s) count
     diversity credibility (importanceScore s) (firstSeen s) updated.
End Story.

Module StorySource.
Record t := mk {
  storyId : ObjectId;
  articleId : ObjectId;
  sourceName : string;
  url : option string;
  credibilityScore : Q;
  isPrimary : bool;
  similarityScore : Q
}.
End StorySource.

Module Source.
Record t := mk {
  name : string;
  credibilityScore : Q;
  sourceType : string;
  totalArticles : Z;
  lastSeenAt : Z
}.
End Source.

(** The persisted collections, and the counter from which fresh object
    identifiers are drawn. *)
Record Store := mkStore {
  stories : list Story.t;
  storySources : list StorySource.t;
  sources : list Source.t;
  nextId : ObjectId
}.

Definition with_stories (f : list Story.t -> list Story.t) (st : Store) : Store :=
  mkStore (f (stories st)) (storySources st) (sources st) (nextId st).
Definition with_storySources (f : list StorySource.t -> list StorySource.t)
    (st : Store) : Store :=
  mkStore (stories st) (f (storySources st)) (sources st) (nextId st).
Definition with_sources (f : list Source.t -> list Source.t) (st : Store) : Store :=
  mkStore (stories st) (storySources st) (f (sources st)) (nextId st).

(** ** Effects: a store that survives exceptions

    A computation returns a value or throws, and in both cases hands on the
    store with every write made so far. *)

Inductive Result (A : Type) : Type :=
| Ok (a : A)
| Throw (msg : string).
Arguments Ok {A} a.
Arguments Throw {A} msg.

Definition M (A : Type) : Type := Store -> Result A * Store.

Definition ret {A} (a : A) : M A := fun st => (Ok a, st).
Definition throw {A} (msg : string) : M A := fun st => (Throw msg, st).
Definition bind {A B} (m : M A) (k : A -> M B) : M B :=
  fun st =>
    match m st with
    | (Ok a, st') => k a st'
    | (Throw msg, st') => (Throw msg, st')
    end.
Definition get : M Store := fun st => (Ok st, st).
Definition modify (f : Store -> Store) : M unit := fun st => (Ok tt, f st).

Declare Scope store_scope.
Delimit Scope store_scope with store.
Notation "x <- m ;; k" := (bind m (fun x => k))
  (at level 100, m at next level, right associativity) : store_scope.
Notation "m ;;; k" := (bind m (fun _ => k))
  (at level 100, right associativity) : store_scope.
Local Open Scope store_scope.

(** A Mongoose validator: throws a [ValidationError] unless [ok]. *)
Definition validate (ok : bool) (msg : string) : M unit :=
  if ok then ret tt else throw msg.

Definition in_unit (x : Q) : bool := Qle_bool 0 x && Qle_bool x 1.

Definition present (x : option string) : bool :=
  match x with
  | Some s => negb (String.eqb s "")
  | None => false
  end.

(** [s.trim()], the setter of the schema option [trim: true]. *)
Fixpoint trim_start (s : string) : string :=
  match s with
  | EmptyString => EmptyString
  | String c t => if Js.is_space c then trim_start t else s
  end.
Definition trim (s : string) : string :=
  String.rev (trim_start (String.rev (trim_start s))).

(** [collection.findOne(filter)]: the first document in natural order. *)
Definition findOne {A} (p : A -> bool) (docs : list A) : option A := List.find p docs.

(** [doc.save()]: the document with the identity of [doc] is overwritten. *)
Fixpoint replace_first {A} (p : A -> bool) (d : A) (docs : list A) : list A :=
  match docs with
  | [] => []
  | x :: r => if p x then d :: r else x :: replace_first p d r
  end.

(** ** Source registry ([models/Source.js]) *)

Module SourceModel.

Definition KNOWN_SOURCE_SCORES : list (string * (Q * string)) :=
  [("Reuters", (0.95, "wire")); ("Associated Press", (0.95, "wire"));
   ("AFP", (0.90, "wire"));
   ("BBC", (0.90, "public")); ("NPR", (0.85, "public")); ("PBS", (0.85, "public"));
   ("New York Times", (0.85, "newspaper")); ("Washington Post", (0.85, "newspaper"));
   ("Wall Street Journal", (0.85, "newspaper")); ("The Guardian", (0.80, "newspaper"));
   ("Los Angeles Times", (0.80, "newspaper"));
   ("CNN", (0.70, "cable")); ("Fox News", (0.65, "cable")); ("MSNBC", (0.65, "cable"));
   ("TechCrunch", (0.75, "tech")); ("The Verge", (0.75, "tech"));
   ("Wired", (0.80, "tech")); ("Ars Technica", (0.80, "tech"));
   ("Axios", (0.80, "digital")); ("Politico", (0.75, "digital"));
   ("The Hill", (0.70, "digital"))]%Q.

(** [table[key]] on an object literal used as a table. Keys that name a
    member of [Object.prototype] are outside the model. *)
Fixpoint table_get {V} (tbl : list (string * V)) (key : string) : option V :=
  match tbl with
  | [] => None
  | (k, v) :: r => if String.eqb k key then Some v else table_get r key
  end.

Definition known_score (sourceName : string) : Q :=
  match table_get KNOWN_SOURCE_SCORES sourceName with
  | Some (score, _) => Js.num_or score 0.5
  | None => 0.5%Q
  end.

Definition known_type (sourceName : string) : string :=
  match table_get KNOWN_SOURCE_SCORES sourceName with
  | Some (_, type) => Js.str_or (Some type) "other"
  | None => "other"
  end.

Definition has_name (nm : string) (s : Source.t) : bool :=
  String.eqb (Source.name s) nm.

(** [Source.getOrCreate(sourceName)] *)
Definition getOrCreate (sourceName : string) (now : Z) : M Source.t :=
  st <- get ;;
  source <-
    match findOne (has_name sourceName) (sources st) with
    | Some source => ret source
    | None =>
        validate (negb (String.eqb sourceName "")) "Source validation failed: name" ;;;
        let source :=
          Source.mk sourceName (known_score sourceName) (known_type sourceName) 0 now in
        modify (with_sources (fun l => (l ++ [source])%list)) ;;;
        ret source
    end ;;
  let source' :=
    Source.mk (Source.name source) (Source.credibilityScore source)
              (Source.sourceType source) (Source.totalArticles source + 1) now in
  modify (with_sources (replace_first (has_name (Source.name source)) source')) ;;;
  ret source'.

End SourceModel.

(** ** Story-source links ([models/StorySource.js]) *)

Module StorySourceModel.

Definition of_story (storyId : ObjectId) (r : StorySource.t) : bool :=
  StorySource.storyId r =? storyId.

Definition of_article (articleId : ObjectId) (r : StorySource.t) : bool :=
  StorySource.articleId r =? articleId.

Definition of_story_source (storyId : ObjectId) (sourceName : string)
    (r : StorySource.t) : bool :=
  (StorySource.storyId r =? storyId) && String.eqb (StorySource.sourceName r) sourceName.

(** [StorySource.create(doc)]: the schema validators, then the unique
    index on (storyId, articleId), then the insertion. *)
Definition create (doc : StorySource.t) : M StorySource.t :=
  validate (negb (String.eqb (StorySource.sourceName doc) ""))
           "StorySource validation failed: sourceName" ;;;
  validate (present (StorySource.url doc)) "StorySource validation failed: url" ;;;
  validate (in_unit (StorySource.credibilityScore doc))
           "StorySource validation failed: credibilityScore" ;;;
  validate (in_unit (StorySource.similarityScore doc))
           "StorySource validation failed: similarityScore" ;;;
  st <- get ;;
  validate
    (negb (existsb (fun r => of_story (StorySource.storyId doc) r
                             && of_article (StorySource.articleId doc) r)
                   (storySources st)))
    "E11000 duplicate key error" ;;;
  modify (with_storySources (fun l => (l ++ [doc])%list)) ;;;
  ret doc.

Definition sourceCategories : list (string * string) :=
  [("Reuters", "wire"); ("AP", "wire"); ("AFP", "wire");
   ("BBC", "public"); ("NPR", "public"); ("PBS", "public");
   ("CNN", "cable"); ("Fox News", "cable"); ("MSNBC", "cable");
   ("New York Times", "newspaper"); ("Washington Post", "newspaper");
   ("Wall Street Journal", "newspaper"); ("The Guardian", "newspaper");
   ("TechCrunch", "tech"); ("The Verge", "tech"); ("Wired", "tech")].

Definition categoryOf (source : string) : string :=
  Js.str_or (SourceModel.table_get sourceCategories source) "other".

(** [find({ storyId }).distinct('sourceName')] *)
Definition distinctSourceNames (storyId : ObjectId) (rows : list StorySource.t)
    : list string :=
  elements (list_to_set (List.map StorySource.sourceName
                                  (List.filter (of_story storyId) rows)) : gset string).

Definition totalCategories : Z := 6.

(** [StorySource.calculateSourceDiversity(storyId)] *)
Definition calculateSourceDiversity (storyId : ObjectId) (rows : list StorySource.t) : Q :=
  let sources := distinctSourceNames storyId rows in
  let categoriesRepresented : gset string := list_to_set (List.map categoryOf sources) in
  Qmin (Js.ofNat (size categoriesRepresented) / Js.ofZ totalCategories) 1.

Definition Qsum (l : list Q) : Q := List.fold_right Qplus 0%Q l.

(** [StorySource.calculateAverageCredibility(storyId)]: the [$avg] of the
    matching rows, 0.5 when there is none. *)
Definition calculateAverageCredibility (storyId : ObjectId) (rows : list StorySource.t) : Q :=
  let matched := List.filter (of_story storyId) rows in
  match matched with
  | [] => 0.5%Q
  | _ => (Qsum (List.map StorySource.credibilityScore matched)
          / Js.ofNat (List.length matched))%Q
  end.

End StorySourceModel.

(** ** Queries: sorting, skipping, limiting *)

Definition Qlt_bool (x y : Q) : bool := negb (Qle_bool y x).

Section StableSort.
Context {A : Type}.
(** [before y x] holds when the order puts [y] strictly before [x]. *)
Variable before : A -> A -> bool.

Fixpoint insert_sorted (x : A) (l : list A) : list A :=
  match l with
  | [] => [x]
  | y :: r => if before y x then y :: insert_sorted x r else x :: y :: r
  end.

(** A stable sort: documents that the order does not separate keep their
    relative position ([Array.prototype.sort], and the model of a MongoDB
    [sort] over the natural order). *)
Definition stable_sort (l : list A) : list A := List.fold_right insert_sorted [] l.

(** [a] may stand before [b]: the order does not put [b] strictly before
    [a]. *)
Definition inOrder (a b : A) : Prop := before b a = false.
End StableSort.

(** [cursor.skip(s).limit(l)]: a negative skip is rejected by the server, a
    limit of zero means no limit, a negative limit counts as its absolute
    value. *)
Definition skip_limit {A} (s l : Z) (docs : list A) : Result (list A) :=
  if s <? 0 then Throw "skip value must be non-negative"
  else
    let rest := skipn (Z.to_nat s) docs in
    Ok (if l =? 0 then rest else firstn (Z.to_nat (Z.abs l)) rest).

(** ** Stories ([models/Story.js]) *)

Module StoryModel.

Definition categories : list string :=
  ["general"; "business"; "entertainment"; "health"; "science"; "sports"; "technology"].
Definition moods : list string := ["calm"; "neutral"; "serious"].

Definition has_id (id : ObjectId) (s : Story.t) : bool := Story._id s =? id.

(** [Story.findById(id)] *)
Definition findById (id : ObjectId) : M (option Story.t) :=
  st <- get ;; ret (findOne (has_id id) (stories st)).

(** [Story.create(doc)]: setters ([trim]), validators, a fresh [_id], the
    insertion. The title is [None] when the article has none. *)
Definition create (title : option string) (category mood : string)
    (sourceCount : Z) (sourceDiversity averageCredibility importanceScore : Q)
    (firstSeen lastUpdated : Z) : M Story.t :=
  let canonicalTitle := trim (Js.str_or title "") in
  validate (negb (String.eqb canonicalTitle ""))
           "Story validation failed: Canonical title is required" ;;;
  validate (String.length canonicalTitle <=? 500)%nat
           "Story validation failed: Title cannot exceed 500 characters" ;;;
  validate (Js.includes categories category) "Story validation failed: category" ;;;
  validate (Js.includes moods mood) "Story validation failed: mood" ;;;
  validate (in_unit sourceDiversity) "Story validation failed: sourceDiversity" ;;;
  validate (in_unit averageCredibility) "Story validation failed: averageCredibility" ;;;
  st <- get ;;
  let story :=
    Story.mk (nextId st) canonicalTitle category mood sourceCount sourceDiversity
             averageCredibility importanceScore firstSeen lastUpdated in
  modify (fun st => mkStore (stories st ++ [story])%list (storySources st)
                            (sources st) (nextId st + 1)) ;;;
  ret story.

(** [story.save()] after the statistics were assigned: the validators of
    the modified paths run, then the stored document is overwritten. *)
Definition saveStatistics (story : Story.t) : M unit :=
  validate (in_unit (Story.sourceDiversity story))
           "Story validation failed: sourceDiversity" ;;;
  validate (in_unit (Story.averageCredibility story))
           "Story validation failed: averageCredibility" ;;;
  modify (with_stories (replace_first (has_id (Story._id story)) story)).

(** [story.save()] after [importanceScore] was assigned (no validator). *)
Definition saveImportance (story : Story.t) : M unit :=
  modify (with_stories (replace_first (has_id (Story._id story)) story)).

Definition msPerHour : Z := 1000 * 60 * 60.

Definition ageHours (now firstSeen : Z) : Q := (Js.ofZ (now - firstSeen) / Js.ofZ msPerHour)%Q.

Definition recencyScore (now firstSeen : Z) : Q :=
  Qmax 0 (1 - ageHours now firstSeen / 24).

Definition sourceScore (sourceCount : Z) : Q := Qmin (Js.ofZ sourceCount / 10) 1.

(** The weighted sum of [recalculateImportance], on a loaded story. *)
Definition importanceOf (story : Story.t) (now : Z) : Q :=
  (sourceScore (Story.sourceCount story) * 0.30
   + Story.sourceDiversity story * 0.25
   + Story.averageCredibility story * 0.25
   + recencyScore now (Story.firstSeen story) * 0.20)%Q.

(** [Story.recalculateImportance(storyId)] *)
Definition recalculateImportance (storyId : ObjectId) (now : Z) : M (option Story.t) :=
  found <- findById storyId ;;
  match found with
  | None => ret None
  | Some story =>
      let story' := Story.set_importanceScore (importanceOf story now) story in
      saveImportance story' ;;;
      ret (Some story')
  end.

End StoryModel.

(** ** Ranked queries *)

Module Options.
(** The options object; an absent property is [None]. *)
Record t := mk {
  page : option Z;
  limit : option Z;
  category : option string;
  mood : option string;
  maxAgeHours : option Z
}.
End Options.

Module Pagination.
(** [totalPages] is [None] when [Math.ceil(total / limit)] is not a
    finite number (limit zero). *)
Record t := mk {
  page : Z;
  limit : Z;
  total : Z;
  totalPages : option Z;
  hasMore : bool
}.
End Pagination.

Module Ranked.
Record t := mk { stories : list Story.t; pagination : Pagination.t }.
End Ranked.

(** The sort key [{ importanceScore: -1, lastUpdated: -1 }]. *)
Definition byImportanceThenUpdated (y x : Story.t) : bool :=
  Qlt_bool (Story.importanceScore x) (Story.importanceScore y)
  || Qeq_bool (Story.importanceScore x) (Story.importanceScore y)
     && (Story.lastUpdated x <? Story.lastUpdated y).

Definition totalPagesOf (total limit : Z) : option Z :=
  if limit =? 0 then None else Some (Js.ceil (Js.ofZ total / Js.ofZ limit)).

(** The query built from the options: the age cut-off, and the category and
    mood equalities that are switched on. *)
Definition matchesQuery (category mood : option string) (cutoff : Z) (s : Story.t) : bool :=
  match category with Some c => String.eqb (Story.category s) c | None => true end
  && match mood with Some m => String.eqb (Story.mood s) m | None => true end
  && (cutoff <=? Story.firstSeen s).

(** A string option that is falsy in JavaScript carries no filter. *)
Definition truthy (x : option string) : option string :=
  match x with
  | Some s => if String.eqb s "" then None else Some s
  | None => None
  end.

(** [x && x !== off]: the filter value, unless it is falsy or [off]. *)
Definition unless (off : string) (x : option string) : option string :=
  match truthy x with
  | Some s => if String.eqb s off then None else Some s
  | None => None
  end.

Module StoryQueries.

(** [Story.getWithCalmRanking(options)] ([models/Story.js]) *)
Definition getWithCalmRanking (options : Options.t) (now : Z) (docs : list Story.t)
    : Result Ranked.t :=
  let limit := default 20 (Options.limit options) in
  let page := default 1 (Options.page options) in
  let maxAgeHours := default 72 (Options.maxAgeHours options) in
  let category := unless "general" (Options.category options) in
  let mood := truthy (Options.mood options) in
  let cutoffDate := now - maxAgeHours * 60 * 60 * 1000 in
  let matching := List.filter (matchesQuery category mood cutoffDate) docs in
  let total := Z.of_nat (List.length matching) in
  match skip_limit ((page - 1) * limit) limit
                   (stable_sort byImportanceThenUpdated matching) with
  | Throw msg => Throw msg
  | Ok stories =>
      Ok (Ranked.mk stories
            (Pagination.mk page limit total (totalPagesOf total limit)
                           (page * limit <? total)))
  end.

End StoryQueries.

(** ** Calm ranking ([services/calmRankingService.js]) *)

Module calmRankingService.

Definition SOURCE_COUNT : Q := 0.30.
Definition SOURCE_DIVERSITY : Q := 0.25.
Definition CREDIBILITY : Q := 0.25.
Definition RECENCY : Q := 0.20.
Definition MAX_RECENCY_HOURS : Q := 24.

(** The weighted sum before rounding. *)
Definition weightedScore (story : Story.t) (now : Z) : Q :=
  let sourceScore := Qmin (Js.ofZ (Story.sourceCount story) / 10) 1 in
  let diversityScore := Js.num_or (Story.sourceDiversity story) 0 in
  let credibilityScore := Js.num_or (Story.averageCredibility story) 0.5 in
  let ageHours := (Js.ofZ (now - Story.firstSeen story) / Js.ofZ (1000 * 60 * 60))%Q in
  let recencyScore := Qmax 0 (1 - ageHours / MAX_RECENCY_HOURS) in
  (sourceScore * SOURCE_COUNT + diversityScore * SOURCE_DIVERSITY
   + credibilityScore * CREDIBILITY + recencyScore * RECENCY)%Q.

(** [calculateImportanceScore(story)] *)
Definition calculateImportanceScore (story : Story.t) (now : Z) : Q :=
  (Js.ofZ (Js.round (weightedScore story now * 1000)) / 1000)%Q.

(** [rankStories(stories)] *)
Definition rankStories (stories : list Story.t) (now : Z) : list Story.t :=
  stable_sort
    (fun a b => Qlt_bool (Story.importanceScore b) (Story.importanceScore a))
    (List.map (fun story =>
                 Story.set_importanceScore (calculateImportanceScore story now) story)
              stories).

(** [getStoriesWithCalmRanking(options)] *)
Definition getStoriesWithCalmRanking (options : Options.t) (now : Z)
    (docs : list Story.t) : Result Ranked.t :=
  let page := default 1 (Options.page options) in
  let limit := default 20 (Options.limit options) in
  let maxAgeHours := default 72 (Options.maxAgeHours options) in
  let category := unless "all" (Options.category options) in
  let mood := unless "all" (Options.mood options) in
  let cutoff := now - maxAgeHours * 60 * 60 * 1000 in
  let matching := List.filter (matchesQuery category mood cutoff) docs in
  let total := Z.of_nat (List.length matching) in
  match skip_limit ((page - 1) * limit) limit
                   (stable_sort byImportanceThenUpdated matching) with
  | Throw msg => Throw msg
  | Ok stories =>
      let rankedStories := rankStories stories now in
      Ok (Ranked.mk rankedStories
            (Pagination.mk page limit total (totalPagesOf total limit)
                           (page * limit <? total)))
  end.

End calmRankingService.

(** ** Clustering ([services/clusteringService.js]) *)

Module Results.
Record t := mk { newStories : Z; mergedArticles : Z; skipped : Z; errors : Z }.
End Results.

Inductive Outcome := NewStory | Merged | Skipped | Failed.

Module clusteringService.
Import Similarity.

Definition SIMILARITY_THRESHOLD : Q := 0.65.

(** [calculateArticleSimilarity(article1, article2)] *)
Definition calculateArticleSimilarity (article1 article2 : Article.t) : Q :=
  let titleWeight := 0.6%Q in
  let contentWeight := 0.4%Q in
  let titleSim :=
    calculateTitleSimilarity (Js.str_or (Article.title article1) "")
                             (Js.str_or (Article.title article2) "") in
  let contentSim :=
    calculateSimilarity
      (Js.str_or (Article.description article1) "" ++ " "
       ++ Js.str_or (Article.content article1) "")
      (Js.str_or (Article.description article2) "" ++ " "
       ++ Js.str_or (Article.content article2) "") in
  if Qlt_bool titleSim 0.3%Q then 0%Q
  else (titleWeight * titleSim + contentWeight * contentSim)%Q.

(** The loop of [findMatchingStory]: the first candidate reaching the
    best score above the threshold. *)
Definition bestOf (title : string) (recentStories : list Story.t)
    : option Story.t * Q :=
  List.fold_left
    (fun '(bestMatch, bestScore) story =>
       let similarity := calculateTitleSimilarity title (Story.canonicalTitle story) in
       if Qlt_bool SIMILARITY_THRESHOLD similarity && Qlt_bool bestScore similarity
       then (Some story, similarity)
       else (bestMatch, bestScore))
    recentStories (None, 0%Q).

(** [findMatchingStory(article)] *)
Definition findMatchingStory (article : Article.t) (now : Z)
    : M (option (Story.t * Q)) :=
  let cutoff := now - 48 * 60 * 60 * 1000 in
  st <- get ;;
  let recentStories :=
    List.filter
      (fun s => (cutoff <=? Story.firstSeen s)
                && String.eqb (Story.category s)
                              (Js.str_or (Article.category article) "general"))
      (stories st) in
  match bestOf (Js.str_or (Article.title article) "") recentStories with
  | (Some story, score) => ret (Some (story, score))
  | (None, _) => ret None
  end.

(** [createStoryFromArticle(article)] *)
Definition createStoryFromArticle (article : Article.t) (now : Z) : M Story.t :=
  source <- SourceModel.getOrCreate (Article.source article) now ;;
  story <- StoryModel.create
             (Article.title article)
             (Js.str_or (Article.category article) "general")
             (Js.str_or (Article.mood article) "neutral")
             1 0 (Source.credibilityScore source)
             (Source.credibilityScore source * 0.25)
             (default now (Article.publishedAt article)) now ;;
  StorySourceModel.create
    (StorySource.mk (Story._id story) (Article._id article) (Article.source article)
                    (Article.url article) (Source.credibilityScore source) true 1) ;;;
  ret story.

(** [addArticleToStory(storyId, article, similarityScore)] *)
Definition addArticleToStory (storyId : ObjectId) (article : Article.t)
    (similarityScore : Q) (now : Z) : M Story.t :=
  found <- StoryModel.findById storyId ;;
  match found with
  | None => throw "Story not found"
  | Some story =>
      source <- SourceModel.getOrCreate (Article.source article) now ;;
      st <- get ;;
      match findOne (StorySourceModel.of_story_source storyId (Article.source article))
                    (storySources st) with
      | Some _ => ret story
      | None =>
          StorySourceModel.create
            (StorySource.mk storyId (Article._id article) (Article.source article)
                            (Article.url article) (Source.credibilityScore source)
                            false similarityScore) ;;;
          st <- get ;;
          let story' :=
            Story.set_statistics
              (Story.sourceCount story + 1) now
              (StorySourceModel.calculateSourceDiversity storyId (storySources st))
              (StorySourceModel.calculateAverageCredibility storyId (storySources st))
              story in
          StoryModel.saveStatistics story' ;;;
          StoryModel.recalculateImportance storyId now ;;;
          ret story'
      end
  end.

(** The body of the [try] block of [clusterArticles], for one article. *)
Definition assign (article : Article.t) (now : Z) : M Outcome :=
  st <- get ;;
  match findOne (StorySourceModel.of_article (Article._id article)) (storySources st) with
  | Some _ => ret Skipped
  | None =>
      matched <- findMatchingStory article now ;;
      match matched with
      | Some (story, score) =>
          addArticleToStory (Story._id story) article score now ;;;
          ret Merged
      | None =>
          createStoryFromArticle article now ;;;
          ret NewStory
      end
  end.

(** One iteration of the loop: the [catch] turns an exception into the
    outcome [Failed] and keeps the store as the exception left it. *)
Definition processArticle (article : Article.t) (now : Z) (st : Store)
    : Outcome * Store :=
  match assign article now st with
  | (Ok o, st') => (o, st')
  | (Throw _, st') => (Failed, st')
  end.

Definition count (o : Outcome) (r : Results.t) : Results.t :=
  match o with
  | NewStory =>
      Results.mk (Results.newStories r + 1) (Results.mergedArticles r)
                 (Results.skipped r) (Results.errors r)
  | Merged =>
      Results.mk (Results.newStories r) (Results.mergedArticles r + 1)
                 (Results.skipped r) (Results.errors r)
  | Skipped =>
      Results.mk (Results.newStories r) (Results.mergedArticles r)
                 (Results.skipped r + 1) (Results.errors r)
  | Failed =>
      Results.mk (Results.newStories r) (Results.mergedArticles r)
                 (Results.skipped r) (Results.errors r + 1)
  end.

(** The [for ... of] loop of [clusterArticles], from given counts. *)
Fixpoint clusterLoop (articles : list Article.t) (now : Z) (results : Results.t)
    (st : Store) : Results.t * Store :=
  match articles with
  | [] => (results, st)
  | article :: rest =>
      let '(o, st') := processArticle article now st in
      clusterLoop rest now (count o results) st'
  end.

(** [clusterArticles(articles)] *)
Definition clusterArticles (articles : list Article.t) (now : Z) (st : Store)
    : Results.t * Store :=
  clusterLoop articles now (Results.mk 0 0 0 0) st.

(** The outcomes of the articles of a batch, in order. *)
Fixpoint outcomes (articles : list Article.t) (now : Z) (st : Store) : list Outcome :=
  match articles with
  | [] => []
  | article :: rest =>
      let '(o, st') := processArticle article now st in
      o :: outcomes rest now st'
  end.

End clusteringService.

(** ** Context timeline ([services/contextService.js]) *)

Module Entry.
Record t := mk {
  date : Z;
  title : string;
  storyId : ObjectId;
  relevanceScore : Q;
  relationship : string
}.
End Entry.

Module Timeline.
Record t := mk {
  currentStory : ObjectId * string * Z;
  timeline : list Entry.t;
  totalRelated : nat
}.
End Timeline.

Module contextService.

Definition stopwords : gset string :=
  list_to_set
    ["the"; "a"; "an"; "and"; "or"; "but"; "in"; "on"; "at"; "to"; "for";
     "of"; "with"; "by"; "from"; "as"; "is"; "was"; "are"; "were"; "been";
     "have"; "has"; "had"; "will"; "would"; "could"; "should"; "said"; "says"].

(** [extractSignificantWords(text)] *)
Definition extractSignificantWords (text : string) : list string :=
  if String.eqb text "" then []
  else
    List.filter
      (fun w => (3 <? String.length w)%nat && negb (Js.has stopwords w))
      (Js.split_ws (Js.replace_punct "" (Js.toLowerCase text))).

(** [calculateRelevance(story1, story2)] *)
Definition calculateRelevance (story1 story2 : Story.t) : Q :=
  if negb (String.eqb (Story.category story1) (Story.category story2)) then 0%Q
  else
    let words1 := extractSignificantWords (Story.canonicalTitle story1) in
    let words2 := extractSignificantWords (Story.canonicalTitle story2) in
    let intersection := List.filter (Js.includes words2) words1 in
    let union : gset string := list_to_set (words1 ++ words2)%list in
    if (size union =? 0)%nat then 0%Q
    else (Js.ofNat (List.length intersection) / Js.ofNat (size union))%Q.

(** [determineRelationship(current, related)] *)
Definition determineRelationship (current related : Story.t) : string :=
  if Story.firstSeen related <? Story.firstSeen current then "PRECEDES"
  else if Story.firstSeen current <? Story.firstSeen related then "FOLLOWS"
  else "RELATED".

(** The query of [buildTimeline], before [sort] and [limit]. *)
Definition isCandidate (story : Story.t) (cutoff : Z) (s : Story.t) : bool :=
  negb (Story._id s =? Story._id story)
  && String.eqb (Story.category s) (Story.category story)
  && (cutoff <=? Story.firstSeen s) && (Story.firstSeen s <? Story.firstSeen story).

Definition relatedStories (story : Story.t) (cutoff : Z) (docs : list Story.t)
    : list Story.t :=
  firstn 10
    (stable_sort (fun y x => Story.firstSeen x <? Story.firstSeen y)
                 (List.filter (isCandidate story cutoff) docs)).

Definition entryOf (story related : Story.t) : Entry.t :=
  Entry.mk (Story.firstSeen related) (Story.canonicalTitle related)
           (Story._id related) (calculateRelevance story related)
           (determineRelationship story related).

Definition isRelevant (story related : Story.t) : bool :=
  Qlt_bool 0.3%Q (calculateRelevance story related).

(** [buildTimeline(storyId, days = 30)]; [None] is the [null] result. *)
Definition buildTimeline (storyId : ObjectId) (days : option Z) (now : Z)
    (docs : list Story.t) : option Timeline.t :=
  match findOne (StoryModel.has_id storyId) docs with
  | None => None
  | Some story =>
      let cutoff := now - default 30 days * 24 * 60 * 60 * 1000 in
      let timelineEntries :=
        List.map (entryOf story)
                 (List.filter (isRelevant story) (relatedStories story cutoff docs)) in
      let sorted :=
        stable_sort (fun b a => Entry.date a <? Entry.date b) timelineEntries in
      Some (Timeline.mk (Story._id story, Story.canonicalTitle story, Story.firstSeen story)
                        (Js.slice 0 5 sorted) (List.length timelineEntries))
  end.

End contextService.

(** ** Statements of the specification, for comparison

    Definitions of this module follow the words of the specification where
    a claim is compared with the code. *)

Module Spec.
Import Similarity.

(** "sliding a 3-token window over each lowercased title": every
    white-space separated token takes part. *)
Fixpoint windows3 (ws : list string) : list string :=
  match ws with
  | [] => []
  | a :: r =>
      match r with
      | b :: c :: _ => Js.join [a; b; c] :: windows3 r
      | _ => []
      end
  end.

Definition tokens (title : string) : list string :=
  List.filter (fun w => negb (String.eqb w "")) (Js.split_ws (Js.toLowerCase title)).

Definition phrases (title : string) : list string := windows3 (tokens title).

Definition titleSimilarity (titleA titleB : string) : Q :=
  let shared :=
    List.length (List.filter (Js.includes (phrases titleB)) (phrases titleA)) in
  Qmin (calculateSimilarity titleA titleB + Qmin 0.3 (0.1 * Js.ofNat shared)) 1.

(** "Rounded to 3 decimal places." *)
Definition round3 (x : Q) : Q := (Js.ofZ (Js.round (x * 1000)) / 1000)%Q.

(** The score of section 4.4, as written there. *)
Definition score (story : Story.t) (now : Z) : Q :=
  let sourceScore := Qmin (Js.ofZ (Story.sourceCount story) / 10) 1 in
  let diversityScore := Story.sourceDiversity story in
  let credScore := Story.averageCredibility story in
  let ageHours := (Js.ofZ (now - Story.firstSeen story) / Js.ofZ 3600000)%Q in
  let recencyScore := Qmax 0 (1 - ageHours / 24) in
  round3 (0.30 * sourceScore + 0.25 * diversityScore + 0.25 * credScore
          + 0.20 * recencyScore).

(** "getRanked returns exactly the stories with firstSeen >= now -
    maxAgeHours that satisfy the optional category and mood equality
    filters, ordered by importanceScore descending with ties broken by
    lastUpdated descending", a page at a time. *)
Definition getRanked (page limit : Z) (category mood : option string)
    (maxAgeHours now : Z) (docs : list Story.t) : list Story.t :=
  let matching :=
    List.filter (matchesQuery category mood (now - maxAgeHours * 3600000)) docs in
  firstn (Z.to_nat limit)
         (skipn (Z.to_nat ((page - 1) * limit))
                (stable_sort byImportanceThenUpdated matching)).

(** "Plain Jaccard (intersection over union of word sets) on
    >3-character non-stopword title tokens, using the same stopword policy
    as the similarity engine". *)
Definition relevance (story related : Story.t) : Q :=
  let words1 : gset string := list_to_set (extractWords (Story.canonicalTitle story)) in
  let words2 : gset string := list_to_set (extractWords (Story.canonicalTitle related)) in
  if (size (words1 ∪ words2) =? 0)%nat then 0%Q
  else (Js.ofNat (size (words1 ∩ words2)) / Js.ofNat (size (words1 ∪ words2)))%Q.

(** "buildTimeline considers exactly the stories in the same category with
    firstSeen in [now - days, story.firstSeen), keeps those whose relevance
    exceeds 0.3, sorts them by date descending, and returns at most the
    top 5 entries together with the total count of related stories": the
    identifiers of the entries, and the count. *)
Definition buildTimeline (story : Story.t) (days now : Z) (docs : list Story.t)
    : list ObjectId * nat :=
  let cutoff := now - days * 24 * 60 * 60 * 1000 in
  let considered :=
    List.filter
      (fun s => String.eqb (Story.category s) (Story.category story)
                && (cutoff <=? Story.firstSeen s)
                && (Story.firstSeen s <? Story.firstSeen story))
      docs in
  let related := List.filter (fun s => Qlt_bool 0.3 (relevance story s)) considered in
  let sorted :=
    stable_sort (fun y x => Story.firstSeen x <? Story.firstSeen y) related in
  (List.map Story._id (firstn 5 sorted), List.length related).

(** "An exception raised while processing one article ... does not ...
    change [the] outcomes [of the remaining articles]": after a failed
    article the remaining ones fare as they would without it. *)
Definition isolatesFailure (article : Article.t) (rest : list Article.t)
    (now : Z) (st : Store) : Prop :=
  forall st', clusteringService.processArticle article now st = (Failed, st') ->
              clusteringService.outcomes rest now st'
              = clusteringService.outcomes rest now st.

End Spec.

(** ** Concrete data used by the evaluated examples *)

Module Examples.

Definition emptyStore : Store := mkStore [] [] [] 1.

Definition article (id : ObjectId) (title source : string) (url : option string)
    : Article.t :=
  Article.mk id (Some title) None None source url (Some "business") None (Some 1000).

(** Two articles with the same description and content under unrelated
    titles. *)
Definition floods : Article.t :=
  Article.mk 1 (Some "Floods devastate coastal villages")
             (Some "Heavy rainfall continues across region")
             (Some "Officials expect further warnings tomorrow")
             "Reuters" (Some "http://r/1") None None None.
Definition markets : Article.t :=
  Article.mk 2 (Some "Markets rally after earnings surprise")
             (Some "Heavy rainfall continues across region")
             (Some "Officials expect further warnings tomorrow")
             "BBC" (Some "http://b/2") None None None.

Definition reuters : Article.t :=
  article 101 "Senate passes infrastructure bill" "Reuters" (Some "http://r/1").
Definition bbc : Article.t :=
  article 102 "Senate passes infrastructure bill today" "BBC" (Some "http://b/1").
(** An article without a url: its link document fails validation. *)
Definition malformed : Article.t :=
  article 103 "Senate passes infrastructure bill" "CNN" None.

(** An article without a title: the story document fails validation. *)
Definition untitled : Article.t :=
  Article.mk 104 None None None "CNN" (Some "http://c/4") (Some "business") None
             (Some 1000).

(** A second article of the outlet that opened the story. *)
Definition reutersAgain : Article.t :=
  article 105 "Senate passes infrastructure bill after debate" "Reuters"
          (Some "http://r/5").

Definition story (sourceCount : Z) (sourceDiversity averageCredibility : Q)
    (firstSeen : Z) : Story.t :=
  Story.mk 1 "Senate passes infrastructure bill" "business" "neutral" sourceCount
           sourceDiversity averageCredibility 0 firstSeen firstSeen.

Definition hours (h : Z) : Z := h * 3600000.

(** Three stories as stored at hour 100. [fresh] was scored when it was
    first seen (one source of credibility 0.5, full recency: 0.355) and is
    a day old now; [corroborated] was last scored when it was a day old
    (two sources of two categories, credibility 0.6: 0.293); [twin] has the
    statistics of [fresh], an older stored score and a later update. *)
Definition fresh : Story.t :=
  Story.mk 1 "Storm closes northern harbour" "business" "neutral" 1 0 0.5 0.355
           (hours 76) (hours 76).
Definition corroborated : Story.t :=
  Story.mk 2 "Parliament adopts budget amendment" "business" "neutral" 2 (2 # 6) 0.6 0.293
           (hours 52) (hours 76).
Definition twin : Story.t :=
  Story.mk 3 "Council postpones transport vote" "business" "neutral" 1 0 0.5 0.2
           (hours 70) (hours 90).

Definition noOptions : Options.t := Options.mk None None None None None.


Definition afterReuters : Store :=
  snd (clusteringService.clusterArticles [reuters] 5000 emptyStore).
Definition afterBbc : Store :=
  snd (clusteringService.addArticleToStory 1 bbc 1 5000 afterReuters).
Definition afterMalformed : Store :=
  snd (clusteringService.processArticle malformed 5000 emptyStore).
Definition afterUntitled : Store :=
  snd (clusteringService.processArticle untitled 5000 emptyStore).

End Examples.

(** ** Vocabulary of the proofs *)

(** The link document written for an article, and the story with the
    statistics assigned by [addArticleToStory]. *)
Definition linkOf (storyId : ObjectId) (article : Article.t) (source : Source.t)
    (isPrimary : bool) (similarityScore : Q) : StorySource.t :=
  StorySource.mk storyId (Article._id article) (Article.source article)
                 (Article.url article) (Source.credibilityScore source)
                 isPrimary similarityScore.

Definition statisticsOf (storyId : ObjectId) (now : Z) (st : Store) (story : Story.t)
    : Story.t :=
  Story.set_statistics
    (Story.sourceCount story + 1) now
    (StorySourceModel.calculateSourceDiversity storyId (storySources st))
    (StorySourceModel.calculateAverageCredibility storyId (storySources st))
    story.

(** The article has a link document in the store. *)
Definition linked (article : Article.t) (st : Store) : Prop :=
  exists row, In row (storySources st)
              /\ StorySource.articleId row = Article._id article.

(** The number of articles counted by a batch result. *)
Definition processed (r : Results.t) : Z :=
  Results.newStories r + Results.mergedArticles r + Results.skipped r + Results.errors r.

(** The credibility that [Source.getOrCreate] hands out for a name: that of
    the stored source, else that of the table of known sources; [None] when
    it throws (no source stored under the empty name). *)
Definition credOf (l : list Source.t) (name : string) : option Q :=
  match findOne (SourceModel.has_name name) l with
  | Some s => Some (Source.credibilityScore s)
  | None => if String.eqb name "" then None else Some (SourceModel.known_score name)
  end.

(** Two stores that clustering cannot tell apart: the same stories, links
    and identifier counter, and source registries that hand out the same
    credibilities (they may differ in [totalArticles] and [lastSeenAt], and
    in which known sources were already sighted). *)
Definition sameForClustering (st st' : Store) : Prop :=
  stories st = stories st' /\ storySources st = storySources st'
  /\ nextId st = nextId st'
  /\ forall name, credOf (sources st) name = credOf (sources st') name.

Definition sameClass {A B} (r : Result A) (r' : Result B) : Prop :=
  match r, r' with
  | Ok _, Ok _ => True
  | Throw _, Throw _ => True
  | _, _ => False
  end.

Definition isOutcome (o o' : Outcome) : bool :=
  match o, o' with
  | NewStory, NewStory | Merged, Merged | Skipped, Skipped | Failed, Failed => true
  | _, _ => false
  end.

(** How often an outcome occurs in a list of outcomes. *)
Definition occurrences (o : Outcome) (os : list Outcome) : Z :=
  Z.of_nat (List.length (List.filter (isOutcome o) os)).

(** The uniqueness invariant of the links: no two link documents of a story
    carry the same source name. *)
Definition linkKey (r : StorySource.t) : ObjectId * string :=
  (StorySource.storyId r, StorySource.sourceName r).

Definition uniqueLinks (st : Store) : Prop :=
  List.NoDup (List.map linkKey (storySources st)).

(** Identifiers in use lie below the counter of fresh identifiers. *)
Definition wellFormed (st : Store) : Prop :=
  uniqueLinks st
  /\ List.Forall (fun r => StorySource.storyId r < nextId st) (storySources st)
  /\ List.Forall (fun s => Story._id s < nextId st) (stories st).





(** The order of the ranked query on stored fields: a higher importance
    score first, and among equal scores the later update first. *)
Definition storedOrder (a b : Story.t) : Prop :=
  (Story.importanceScore b <= Story.importanceScore a)%Q
  /\ ((Story.importanceScore a == Story.importanceScore b)%Q ->
      Story.lastUpdated b <= Story.lastUpdated a).

(** The copy of a story that [rankStories] makes. *)
Definition rescore (now : Z) (story : Story.t) : Story.t :=
  Story.set_importanceScore (calmRankingService.calculateImportanceScore story now) story.

(** The documents of a page: skip [(page - 1) * limit], take [limit]. *)
Definition pageOf {A} (page limit : Z) (l : list A) : list A :=
  firstn (Z.to_nat limit) (skipn (Z.to_nat ((page - 1) * limit)) l).

(** The stories a ranked query selects. *)
Definition selects (category mood : option string) (maxAgeHours now : Z) (s : Story.t)
    : Prop :=
  now - maxAgeHours * 3600000 <= Story.firstSeen s
  /\ (forall c, category = Some c -> Story.category s = c)
  /\ (forall m, mood = Some m -> Story.mood s = m).

(** The stories that [buildTimeline] may consider for a story: another
    story of the same category, first seen in the look-back window and
    strictly before the story. *)
Definition precedes (story : Story.t) (cutoff : Z) (s : Story.t) : Prop :=
  Story._id s <> Story._id story
  /\ Story.category s = Story.category story
  /\ cutoff <= Story.firstSeen s < Story.firstSeen story.


(** ** Further operations of the same files

    The remaining pure or store-level operations of the clustering, ranking,
    source and story modules. The [News] collection is not part of the
    store above; the one operation that reads it takes its documents as an
    argument. *)

(** [s.includes(sub)] on strings. *)
Fixpoint starts_with (sub s : string) : bool :=
  match sub, s with
  | EmptyString, _ => true
  | String a sub', String b s' => Ascii.eqb a b && starts_with sub' s'
  | String _ _, EmptyString => false
  end.

Fixpoint str_includes (s sub : string) : bool :=
  starts_with sub s
  || match s with
     | EmptyString => false
     | String _ s' => str_includes s' sub
     end.


(** The template [`${n}`] for an integer. *)
Definition showZ (n : Z) : string := DecimalString.NilZero.string_of_int (Z.to_int n).

Module SourceQueries.


End SourceQueries.

Module StoryVirtuals.

(** The virtual [readTimeSeconds] of [models/Story.js], on the summary of
    the story ([None] when the field is missing). *)
Definition readTimeSeconds (summary : option string) : Z :=
  let wordCount := List.length (Js.split_ws (Js.str_or summary "")) in
  Js.ceil (Js.ofNat wordCount / 150 * 60).

End StoryVirtuals.

Module Part.
(** An entry of the breakdown of [getRankingExplanation]; a property that
    the entry does not have is [None]. *)
Record t := mk {
  weight : Q;
  rawValue : option Q;
  normalizedScore : option Q;
  ageHours : option Q;
  contribution : Q
}.
End Part.

Module Explanation.
Record t := mk {
  totalScore : Q;
  sourceCount : Part.t;
  sourceDiversity : Part.t;
  credibility : Part.t;
  recency : Part.t;
  explanation : string
}.
End Explanation.

Module Ranking.
Import calmRankingService.

(** The list [parts] of [generateHumanReadableExplanation(story)]. *)
Definition explanationParts (story : Story.t) (now : Z) : list string :=
  let coverage :=
    if Story.sourceCount story >=? 5
    then ["Widely covered (" ++ showZ (Story.sourceCount story) ++ " sources)"]
    else if Story.sourceCount story >=? 3
         then ["Multiple sources (" ++ showZ (Story.sourceCount story) ++ ")"]
         else [] in
  let diversity :=
    if Qle_bool 0.5 (Story.sourceDiversity story) then ["Diverse source types"] else [] in
  let credibility :=
    if Qle_bool 0.8 (Story.averageCredibility story)
    then ["High credibility sources"] else [] in
  let ageHours := (Js.ofZ (now - Story.firstSeen story) / Js.ofZ (1000 * 60 * 60))%Q in
  let age :=
    if Qlt_bool ageHours 6 then ["Breaking story"]
    else if Qlt_bool ageHours 24 then ["Recent story"] else [] in
  (coverage ++ diversity ++ credibility ++ age)%list.

(** [generateHumanReadableExplanation(story)] *)
Definition generateHumanReadableExplanation (story : Story.t) (now : Z) : string :=
  let parts := explanationParts story now in
  if (0 <? List.length parts)%nat then String.concat " • " parts
  else "Standard importance".

(** [getRankingExplanation(story)] *)
Definition getRankingExplanation (story : Story.t) (now : Z) : Explanation.t :=
  let sourceScore := Qmin (Js.ofZ (Story.sourceCount story) / 10) 1 in
  let diversityScore := Js.num_or (Story.sourceDiversity story) 0 in
  let credibilityScore := Js.num_or (Story.averageCredibility story) 0.5 in
  let ageHours := (Js.ofZ (now - Story.firstSeen story) / Js.ofZ (1000 * 60 * 60))%Q in
  let recencyScore := Qmax 0 (1 - ageHours / MAX_RECENCY_HOURS) in
  Explanation.mk
    (calculateImportanceScore story now)
    (Part.mk SOURCE_COUNT (Some (Js.ofZ (Story.sourceCount story))) (Some sourceScore)
             None (sourceScore * SOURCE_COUNT))
    (Part.mk SOURCE_DIVERSITY (Some diversityScore) None None
             (diversityScore * SOURCE_DIVERSITY))
    (Part.mk CREDIBILITY (Some credibilityScore) None None
             (credibilityScore * CREDIBILITY))
    (Part.mk RECENCY None (Some recencyScore)
             (Some (Js.ofZ (Js.round (ageHours * 10)) / 10)%Q)
             (recencyScore * RECENCY))
    (generateHumanReadableExplanation story now).



End Ranking.

Inductive ContentType := NEWS | ANALYSIS | OPINION.

(** The result of [processUnclusteredArticles]: [{ processed: 0 }], or the
    counts of the batch. *)
Inductive Processed :=
| NothingToProcess
| Clustered (results : Results.t).

Module Clustering.

Definition opinionWords : list string :=
  ["opinion"; "editorial"; "commentary"; "op-ed"; "perspective"; "my view";
   "i think"; "i believe"].
Definition analysisWords : list string :=
  ["analysis"; "explains"; "what it means"; "breakdown"; "deep dive"; "in-depth";
   "explainer"].

(** The text that [detectContentType] searches. *)
Definition contentText (article : Article.t) : string :=
  let title := Js.toLowerCase (Js.str_or (Article.title article) "") in
  let content :=
    Js.toLowerCase
      (Js.str_or (Article.content article) (Js.str_or (Article.description article) "")) in
  title ++ " " ++ content.

(** [detectContentType(article)] *)
Definition detectContentType (article : Article.t) : ContentType :=
  let text := contentText article in
  if existsb (str_includes text) opinionWords then OPINION
  else if existsb (str_includes text) analysisWords then ANALYSIS
  else NEWS.

(** The sort [{ publishedAt: -1 }]: a later date first, a missing date
    last. *)
Definition newerArticle (y x : Article.t) : bool :=
  match Article.publishedAt y, Article.publishedAt x with
  | Some py, Some px => px <? py
  | Some _, None => true
  | None, _ => false
  end.

(** The articles that [processUnclusteredArticles] selects: those without
    a link, latest first, at most 100. *)
Definition unclusteredArticles (news : list Article.t) (st : Store) : list Article.t :=
  let linkedArticleIds := List.map StorySource.articleId (storySources st) in
  firstn 100
    (stable_sort newerArticle
       (List.filter
          (fun a => negb (existsb (Z.eqb (Article._id a)) linkedArticleIds)) news)).

(** [processUnclusteredArticles()] over the documents of [News]. *)
Definition processUnclusteredArticles (news : list Article.t) (now : Z) (st : Store)
    : Processed * Store :=
  let unclustered := unclusteredArticles news st in
  if (List.length unclustered =? 0)%nat then (NothingToProcess, st)
  else
    let '(results, st') := clusteringService.clusterArticles unclustered now st in
    (Clustered results, st').

End Clustering.

(** Every character of the string satisfies [p]. *)
Fixpoint allChars (p : ascii -> bool) (s : string) : bool :=
  match s with
  | EmptyString => true
  | String c r => p c && allChars p r
  end.

(** A lower-case letter, a digit or an underscore. *)
Definition is_lower_word (c : ascii) : bool :=
  let n := N_of_ascii c in
  ((48 <=? n) && (n <=? 57) || (n =? 95) || (97 <=? n) && (n <=? 122))%N.

(** The score that [findMatchingStory] gives a story for a title. *)
Definition titleScore (title : string) (s : Story.t) : Q :=
  Similarity.calculateTitleSimilarity title (Story.canonicalTitle s).

(** The tokens over which [extractPhrases] slides its window, for a title. *)
Definition phraseTokens (title : string) : list string :=
  List.filter (fun w => (2 <? String.length w)%nat) (Js.split_ws (Js.toLowerCase title)).

(** The invariant of the loop of [findMatchingStory] after the stories
    [seen]. *)
Definition bestSoFar (title : string) (seen : list Story.t)
    (acc : option Story.t * Q) : Prop :=
  match acc with
  | (None, bestScore) =>
      bestScore = 0%Q /\ forall s, In s seen -> (titleScore title s <= 0.65)%Q
  | (Some best, bestScore) =>
      exists before after,
        seen = (before ++ best :: after)%list
        /\ bestScore = titleScore title best
        /\ (0.65 < bestScore)%Q
        /\ (forall s, In s before -> (titleScore title s < bestScore)%Q)
        /\ (forall s, In s after -> (titleScore title s <= bestScore)%Q)
  end.

(** The stories that [findMatchingStory] compares an article with. *)
Definition recentStories (article : Article.t) (now : Z) (st : Store) : list Story.t :=
  List.filter
    (fun s => (now - 48 * 60 * 60 * 1000 <=? Story.firstSeen s)
              && String.eqb (Story.category s)
                            (Js.str_or (Article.category article) "general"))
    (stories st).

(** ** What clustering leaves in place *)

(** [l'] keeps the documents of [l], in order and each up to [R], and may
    hold further documents after them. *)
Definition extendsBy {A} (R : A -> A -> Prop) (l l' : list A) : Prop :=
  exists kept added, l' = (kept ++ added)%list /\ Forall2 R l kept.

(** The fields of a story that no operation assigns after its creation. *)
Definition sameIdentity (a b : Story.t) : Prop :=
  Story._id a = Story._id b
  /\ Story.canonicalTitle a = Story.canonicalTitle b
  /\ Story.category a = Story.category b
  /\ Story.mood a = Story.mood b
  /\ Story.firstSeen a = Story.firstSeen b.

(** A source document after further sightings. *)
Definition keptSource (a b : Source.t) : Prop :=
  Source.name a = Source.name b
  /\ Source.credibilityScore a = Source.credibilityScore b
  /\ Source.sourceType a = Source.sourceType b
  /\ Source.totalArticles a <= Source.totalArticles b.

(** The link documents written for an article. *)
Definition fromArticle (article : Article.t) (r : StorySource.t) : Prop :=
  StorySource.articleId r = Article._id article
  /\ StorySource.sourceName r = Article.source article.

(** [st'] is [st] after writes that only append links satisfying [P],
    append stories and sources, and update statistics. *)
Definition grownWith (P : StorySource.t -> Prop) (st st' : Store) : Prop :=
  (exists links, storySources st' = (storySources st ++ links)%list /\ Forall P links)
  /\ extendsBy sameIdentity (stories st) (stories st')
  /\ extendsBy keptSource (sources st) (sources st')
  /\ nextId st <= nextId st'.



(** ** Statistics that agree with the links *)

(** The number of link documents of a story. *)
Definition linkCount (storyId : ObjectId) (rows : list StorySource.t) : Z :=
  Z.of_nat (List.length (List.filter (StorySourceModel.of_story storyId) rows)).

(** The stored source count and average credibility of every story are
    those of its link documents. *)
Definition agreesWithLinks (rows : list StorySource.t) (s : Story.t) : Prop :=
  Story.sourceCount s = linkCount (Story._id s) rows
  /\ (Story.averageCredibility s
      == StorySourceModel.calculateAverageCredibility (Story._id s) rows)%Q.

Definition consistent (st : Store) : Prop :=
  wellFormed st
  /\ List.NoDup (List.map Story._id (stories st))
  /\ List.Forall (agreesWithLinks (storySources st)) (stories st).

(** ** The source registry *)


(** ** Articles that cannot fail *)

(** The constraints of the [News] schema on the fields of an article that
    the model keeps: a source and a url are required and the source is
    stored trimmed, the title is required and has at most 500 characters,
    category and mood belong to their enumerations. *)
Definition validArticle (a : Article.t) : Prop :=
  Article.source a <> ""
  /\ trim (Article.source a) = Article.source a
  /\ present (Article.url a) = true
  /\ trim (Js.str_or (Article.title a) "") <> ""
  /\ (String.length (trim (Js.str_or (Article.title a) "")) <= 500)%nat
  /\ Js.includes StoryModel.categories (Js.str_or (Article.category a) "general") = true
  /\ Js.includes StoryModel.moods (Js.str_or (Article.mood a) "neutral") = true.

(** The stored credibilities satisfy the range validators of their
    schemas. *)
Definition credibleStore (st : Store) : Prop :=
  List.Forall (fun s => in_unit (Source.credibilityScore s) = true) (sources st)
  /\ List.Forall (fun r => in_unit (StorySource.credibilityScore r) = true)
                 (storySources st).



(** ** Refreshing the stored scores *)

















(** The text contains one of the words as a substring. *)
Definition mentions (text : string) (words : list string) : Prop :=
  exists w pre post, In w words /\ text = pre ++ w ++ post.

Module NewsVirtuals.

(** The virtual [readTimeSeconds] of the [News] schema, which falls back
    on the description. *)
Definition readTimeSeconds (summary description : option string) : Z :=
  let wordCount :=
    List.length (Js.split_ws (Js.str_or summary (Js.str_or description ""))) in
  Js.ceil (Js.ofNat wordCount / 150 * 60).

End NewsVirtuals.

Module Votes.
(** The aggregate vote counts of a [News] article. *)
Record t := mk { agree : Z; disagree : Z; unsure : Z; total : Z }.
End Votes.

Module NewsVotes.

(** The [pre('save')] hook of the [News] schema. *)
Definition preSave (v : Votes.t) : Votes.t :=
  Votes.mk (Votes.agree v) (Votes.disagree v) (Votes.unsure v)
           (Votes.agree v + Votes.disagree v + Votes.unsure v).

Definition percent (count total : Z) : Z :=
  Js.round (Js.ofZ count / Js.ofZ total * 100).

(** The virtual [votePercentages]: agree, disagree, unsure. *)
Definition votePercentages (v : Votes.t) : Z * Z * Z :=
  let total := if Votes.total v =? 0 then 1 else Votes.total v in
  (percent (Votes.agree v) total, percent (Votes.disagree v) total,
   percent (Votes.unsure v) total).

End NewsVotes.



(** ** Paging through the ranked stories *)

(** The options with another page number. *)
Definition atPage (page : Z) (options : Options.t) : Options.t :=
  Options.mk (Some page) (Options.limit options) (Options.category options)
             (Options.mood options) (Options.maxAgeHours options).

(** The stories of a result, none when the query failed. *)
Definition storiesOf (r : Result Ranked.t) : list Story.t :=
  match r with
  | Ok ranked => Ranked.stories ranked
  | Throw _ => []
  end.

(** The stories that [Story.getWithCalmRanking] pages through, in the order
    of the query. *)
Definition storedRanking (options : Options.t) (now : Z) (docs : list Story.t)
    : list Story.t :=
  stable_sort byImportanceThenUpdated
    (List.filter
       (matchesQuery (unless "general" (Options.category options))
                     (truthy (Options.mood options))
                     (now - default 72 (Options.maxAgeHours options) * 60 * 60 * 1000))
       docs).









(** * Properties *)

(** ** Arithmetic and boolean reflection *)

Lemma Qlt_bool_iff (x y : Q) : Qlt_bool x y = true <-> (x < y)%Q.
Proof.
  unfold Qlt_bool. rewrite negb_true_iff.
  split; intros H.
  - apply Qnot_le_lt. intros Hle. apply Qle_bool_iff in Hle. congruence.
  - destruct (Qle_bool y x) eqn:E; [|reflexivity].
    apply Qle_bool_iff in E. exfalso. apply (Qlt_not_le _ _ H E).
Qed.

Lemma Qlt_bool_false_iff (x y : Q) : Qlt_bool x y = false <-> (y <= x)%Q.
Proof.
  unfold Qlt_bool. rewrite negb_false_iff. apply Qle_bool_iff.
Qed.

Lemma ofNat_nonneg (n : nat) : (0 <= Js.ofNat n)%Q.
Proof.
  unfold Js.ofNat. replace 0%Q with (inject_Z 0) by reflexivity.
  rewrite <- Zle_Qle. lia.
Qed.

Lemma Qdiv_nonneg (a b : Q) : (0 <= a)%Q -> (0 <= b)%Q -> (0 <= a / b)%Q.
Proof.
  intros Ha Hb. unfold Qdiv. apply Qmult_le_0_compat; [assumption|].
  apply Qinv_le_0_compat. assumption.
Qed.

(** ** Similarity engine *)

Lemma calculateSimilarity_nonneg (t1 t2 : string) :
  (0 <= Similarity.calculateSimilarity t1 t2)%Q.
Proof.
  unfold Similarity.calculateSimilarity.
  destruct (_ || _); [apply Qle_refl|].
  destruct (_ || _); [apply Qle_refl|].
  apply Qdiv_nonneg; apply ofNat_nonneg.
Qed.

Lemma extractPhrases_windows (text : string) :
  Similarity.extractPhrases text 3 =
  Spec.windows3 (List.filter (fun w => (2 <? String.length w)%nat) (Js.split_ws text)).
Proof.
  unfold Similarity.extractPhrases.
  generalize (List.filter (fun w => (2 <? String.length w)%nat) (Js.split_ws text)).
  intros ws. induction ws as [|a r IH]; [reflexivity|].
  destruct r as [|b [|c r']]; [reflexivity|reflexivity|].
  change (Spec.windows3 (a :: b :: c :: r'))
    with (Js.join [a; b; c] :: Spec.windows3 (b :: c :: r')).
  rewrite <- IH. clear IH.
  cbn [List.length].
  replace (S (S (S (S (List.length r')))) - 3)%nat with (S (S (S (S (List.length r'))) - 3))%nat by lia.
  rewrite <- cons_seq, <- seq_shift.
  cbn [List.map]. rewrite List.map_map. f_equal.
Qed.

(** C3. The title similarity is a gate of [calculateArticleSimilarity]:
    below 0.3 the result is exactly 0 whatever the descriptions and contents
    are; otherwise it is 0.6 times the title similarity plus 0.4 times the
    word similarity of "description, a space, content" of the two
    articles. *)
Theorem C3_articleSimilarity_gate (article1 article2 : Article.t) :
  let titleSim :=
    Similarity.calculateTitleSimilarity (Js.str_or (Article.title article1) "")
                                        (Js.str_or (Article.title article2) "") in
  let contentSim :=
    Similarity.calculateSimilarity
      (Js.str_or (Article.description article1) "" ++ " "
       ++ Js.str_or (Article.content article1) "")
      (Js.str_or (Article.description article2) "" ++ " "
       ++ Js.str_or (Article.content article2) "") in
  ((titleSim < 0.3)%Q ->
   clusteringService.calculateArticleSimilarity article1 article2 = 0%Q)
  /\ (~ (titleSim < 0.3)%Q ->
      clusteringService.calculateArticleSimilarity article1 article2
      = (0.6 * titleSim + 0.4 * contentSim)%Q).
Proof.
  intros titleSim contentSim.
  unfold clusteringService.calculateArticleSimilarity.
  fold titleSim. fold contentSim.
  split; intros H.
  - apply Qlt_bool_iff in H. rewrite H. reflexivity.
  - destruct (Qlt_bool titleSim 0.3) eqn:E; [|reflexivity].
    apply Qlt_bool_iff in E. contradiction.
Qed.

(** The gate at work: identical descriptions and contents (content
    similarity 1) under unrelated titles give 0. *)
Lemma C3_articleSimilarity_gate_witness :
  (Similarity.calculateSimilarity
     "Heavy rainfall continues across region Officials expect further warnings tomorrow"
     "Heavy rainfall continues across region Officials expect further warnings tomorrow"
   == 1)%Q
  /\ clusteringService.calculateArticleSimilarity Examples.floods Examples.markets = 0%Q.
Proof.
  split; [vm_compute; reflexivity|].
  apply (proj1 (C3_articleSimilarity_gate Examples.floods Examples.markets)).
  vm_compute. reflexivity.
Defined.


(** C8 as stated fails: the code slides its window over the tokens of more
    than two characters only. In "cat of the hat runs" and "cat in the hat
    sleeps" no three consecutive tokens agree, yet the code finds the shared
    phrase "cat the hat" and grants a bonus of 0.1. *)
Lemma C8_titleSimilarity_counterexample :
  ~ (Similarity.calculateTitleSimilarity "cat of the hat runs" "cat in the hat sleeps"
     == Spec.titleSimilarity "cat of the hat runs" "cat in the hat sleeps")%Q.
Proof. vm_compute. discriminate. Qed.

(** C8, amended. [calculateTitleSimilarity] is the word similarity of the
    two titles plus a bonus of min(0.3, 0.1 times the number of shared
    phrases), clamped to 1, and lies in [0,1]. The phrases of a title are
    the 3-token windows over those white-space separated tokens of the
    lowercased title that have more than 2 characters; a shared phrase is a
    phrase of the first title (counted as often as it occurs there) that is
    a phrase of the second. *)
Theorem C8_titleSimilarity (title1 title2 : string) :
  let phrasesOf := fun title : string =>
    Spec.windows3
      (List.filter (fun w => (2 <? String.length w)%nat)
                   (Js.split_ws (Js.toLowerCase title))) in
  let shared :=
    List.length (List.filter (Js.includes (phrasesOf title2)) (phrasesOf title1)) in
  (Similarity.calculateTitleSimilarity title1 title2
   == Qmin (Similarity.calculateSimilarity title1 title2
            + Qmin 0.3 (0.1 * Js.ofNat shared)) 1)%Q
  /\ (0 <= Similarity.calculateTitleSimilarity title1 title2 <= 1)%Q.
Proof.
  intros phrasesOf shared.
  unfold Similarity.calculateTitleSimilarity.
  rewrite !extractPhrases_windows.
  fold (phrasesOf title1). fold (phrasesOf title2). fold shared.
  assert (Hb : (Qmin (Js.ofNat shared * 0.1) 0.3 == Qmin 0.3 (0.1 * Js.ofNat shared))%Q).
  { rewrite Q.min_comm. rewrite (Qmult_comm (Js.ofNat shared)). reflexivity. }
  split.
  - rewrite Hb. reflexivity.
  - split.
    + apply Q.min_glb; [|discriminate].
      pose proof (calculateSimilarity_nonneg title1 title2) as Hs.
      assert (0 <= Qmin (Js.ofNat shared * 0.1) 0.3)%Q.
      { apply Q.min_glb; [|discriminate].
        apply Qmult_le_0_compat; [apply ofNat_nonneg|discriminate]. }
      lra.
    + apply Q.le_min_r.
Qed.

(** ** The store operations, one by one *)

Ltac run_store :=
  unfold bind, ret, throw, get, modify, validate in *; cbn beta iota in *.

Lemma getOrCreate_frame (sourceName : string) (now : Z) (st st' : Store)
    (r : Result Source.t) :
  SourceModel.getOrCreate sourceName now st = (r, st') ->
  stories st' = stories st /\ storySources st' = storySources st
  /\ nextId st' = nextId st.
Proof.
  unfold SourceModel.getOrCreate. run_store.
  destruct (findOne _ (sources st)); cbn.
  - intros [= <- <-]. auto.
  - destruct (negb _); cbn; intros [= <- <-]; auto.
Qed.


Lemma StoryModel_create_cases (title : option string) (category mood : string)
    (count : Z) (diversity credibility importance : Q) (firstSeen lastUpdated : Z)
    (st st' : Store) (r : Result Story.t) :
  StoryModel.create title category mood count diversity credibility importance
                    firstSeen lastUpdated st = (r, st') ->
  (exists msg, r = Throw msg /\ st' = st)
  \/ (let story := Story.mk (nextId st) (trim (Js.str_or title "")) category mood count
                            diversity credibility importance firstSeen lastUpdated in
      r = Ok story
      /\ st' = mkStore (stories st ++ [story])%list (storySources st) (sources st)
                       (nextId st + 1)
      /\ in_unit diversity = true /\ in_unit credibility = true).
Proof.
  unfold StoryModel.create. run_store.
  repeat match goal with
         | |- context [if ?b then _ else _] =>
             destruct b eqn:?; cbn; [|intros [= <- <-]; left; eauto]
         end.
  intros [= <- <-]. right. cbn. auto.
Qed.

Lemma StorySource_create_cases (doc : StorySource.t) (st st' : Store)
    (r : Result StorySource.t) :
  StorySourceModel.create doc st = (r, st') ->
  (exists msg, r = Throw msg /\ st' = st)
  \/ (r = Ok doc
      /\ st' = with_storySources (fun l => (l ++ [doc])%list) st
      /\ present (StorySource.url doc) = true
      /\ in_unit (StorySource.credibilityScore doc) = true
      /\ existsb (fun r => StorySourceModel.of_story (StorySource.storyId doc) r
                           && StorySourceModel.of_article (StorySource.articleId doc) r)
                 (storySources st) = false).
Proof.
  unfold StorySourceModel.create. run_store.
  repeat match goal with
         | |- context [if ?b then _ else _] =>
             destruct b eqn:?; cbn; [|intros [= <- <-]; left; eauto]
         end.
  intros [= <- <-]. right. repeat split; auto.
  match goal with H : negb _ = true |- _ => apply negb_true_iff in H; exact H end.
Qed.

Lemma saveStatistics_cases (story : Story.t) (st st' : Store) (r : Result unit) :
  StoryModel.saveStatistics story st = (r, st') ->
  (exists msg, r = Throw msg /\ st' = st)
  \/ (r = Ok tt
      /\ st' = with_stories (replace_first (StoryModel.has_id (Story._id story)) story) st
      /\ in_unit (Story.sourceDiversity story) = true
      /\ in_unit (Story.averageCredibility story) = true).
Proof.
  unfold StoryModel.saveStatistics. run_store.
  repeat match goal with
         | |- context [if ?b then _ else _] =>
             destruct b eqn:?; cbn; [|intros [= <- <-]; left; eauto]
         end.
  intros [= <- <-]. right. auto.
Qed.

Lemma recalculateImportance_run (storyId : ObjectId) (now : Z) (st : Store) :
  StoryModel.recalculateImportance storyId now st =
  match findOne (StoryModel.has_id storyId) (stories st) with
  | None => (Ok None, st)
  | Some story =>
      let story' := Story.set_importanceScore (StoryModel.importanceOf story now) story in
      (Ok (Some story'),
       with_stories (replace_first (StoryModel.has_id (Story._id story')) story') st)
  end.
Proof.
  unfold StoryModel.recalculateImportance, StoryModel.findById, StoryModel.saveImportance.
  run_store. destruct (findOne _ (stories st)); reflexivity.
Qed.

(** ** The clustering operations as case tables *)

Lemma addArticleToStory_run (storyId : ObjectId) (article : Article.t)
    (similarityScore : Q) (now : Z) (st : Store) :
  clusteringService.addArticleToStory storyId article similarityScore now st =
  match findOne (StoryModel.has_id storyId) (stories st) with
  | None => (Throw "Story not found", st)
  | Some story =>
      match SourceModel.getOrCreate (Article.source article) now st with
      | (Throw msg, st1) => (Throw msg, st1)
      | (Ok source, st1) =>
          match findOne (StorySourceModel.of_story_source storyId (Article.source article))
                        (storySources st1) with
          | Some _ => (Ok story, st1)
          | None =>
              match StorySourceModel.create
                      (linkOf storyId article source false similarityScore) st1 with
              | (Throw msg, st2) => (Throw msg, st2)
              | (Ok _, st2) =>
                  let story' := statisticsOf storyId now st2 story in
                  match StoryModel.saveStatistics story' st2 with
                  | (Throw msg, st3) => (Throw msg, st3)
                  | (Ok _, st3) =>
                      (Ok story', snd (StoryModel.recalculateImportance storyId now st3))
                  end
              end
          end
      end
  end.
Proof.
  unfold clusteringService.addArticleToStory, StoryModel.findById.
  unfold bind at 1 2. unfold get at 1, ret at 1. cbn beta iota.
  destruct (findOne _ (stories st)) as [story|]; [|reflexivity].
  unfold bind at 1.
  destruct (SourceModel.getOrCreate _ now st) as [[source|msg] st1]; [|reflexivity].
  unfold bind at 1. unfold get at 1. cbn beta iota.
  destruct (findOne _ (storySources st1)); [reflexivity|].
  unfold bind at 1. fold (linkOf storyId article source false similarityScore).
  destruct (StorySourceModel.create _ st1) as [[d|msg] st2]; [|reflexivity].
  unfold bind at 1. unfold get at 1. cbn beta iota.
  fold (statisticsOf storyId now st2 story).
  unfold bind at 1.
  destruct (StoryModel.saveStatistics _ st2) as [[u|msg] st3]; [|reflexivity].
  unfold bind at 1.
  destruct (StoryModel.recalculateImportance storyId now st3) as [[o|msg] st4] eqn:E.
  - reflexivity.
  - rewrite recalculateImportance_run in E.
    destruct (findOne _ (stories st3)); discriminate.
Qed.

Lemma createStoryFromArticle_run (article : Article.t) (now : Z) (st : Store) :
  clusteringService.createStoryFromArticle article now st =
  match SourceModel.getOrCreate (Article.source article) now st with
  | (Throw msg, st1) => (Throw msg, st1)
  | (Ok source, st1) =>
      match StoryModel.create
              (Article.title article)
              (Js.str_or (Article.category article) "general")
              (Js.str_or (Article.mood article) "neutral")
              1 0 (Source.credibilityScore source)
              (Source.credibilityScore source * 0.25)
              (default now (Article.publishedAt article)) now st1 with
      | (Throw msg, st2) => (Throw msg, st2)
      | (Ok story, st2) =>
          match StorySourceModel.create
                  (linkOf (Story._id story) article source true 1) st2 with
          | (Throw msg, st3) => (Throw msg, st3)
          | (Ok _, st3) => (Ok story, st3)
          end
      end
  end.
Proof.
  unfold clusteringService.createStoryFromArticle.
  unfold bind at 1.
  destruct (SourceModel.getOrCreate _ now st) as [[source|msg] st1]; [|reflexivity].
  unfold bind at 1.
  destruct (StoryModel.create _ _ _ _ _ _ _ _ _ st1) as [[story|msg] st2]; [|reflexivity].
  unfold bind at 1. fold (linkOf (Story._id story) article source true 1).
  destruct (StorySourceModel.create _ st2) as [[d|msg] st3]; reflexivity.
Qed.

Lemma findMatchingStory_run (article : Article.t) (now : Z) (st : Store) :
  exists m, clusteringService.findMatchingStory article now st = (Ok m, st).
Proof.
  unfold clusteringService.findMatchingStory. run_store.
  destruct (clusteringService.bestOf _ _) as [[story|] score]; eauto.
Qed.

Lemma assign_run (article : Article.t) (now : Z) (st : Store) :
  clusteringService.assign article now st =
  match findOne (StorySourceModel.of_article (Article._id article)) (storySources st) with
  | Some _ => (Ok Skipped, st)
  | None =>
      match fst (clusteringService.findMatchingStory article now st) with
      | Ok (Some (story, score)) =>
          match clusteringService.addArticleToStory (Story._id story) article score now st with
          | (Ok _, st') => (Ok Merged, st')
          | (Throw msg, st') => (Throw msg, st')
          end
      | _ =>
          match clusteringService.createStoryFromArticle article now st with
          | (Ok _, st') => (Ok NewStory, st')
          | (Throw msg, st') => (Throw msg, st')
          end
      end
  end.
Proof.
  unfold clusteringService.assign.
  unfold bind at 1. unfold get at 1. cbn beta iota.
  destruct (findOne _ (storySources st)); [reflexivity|].
  destruct (findMatchingStory_run article now st) as [m Hm].
  unfold bind at 1. rewrite Hm. cbn [fst].
  destruct m as [[story score]|].
  - unfold bind at 1.
    destruct (clusteringService.addArticleToStory _ _ _ _ st) as [[s|msg] st']; reflexivity.
  - unfold bind at 1.
    destruct (clusteringService.createStoryFromArticle _ _ st) as [[s|msg] st']; reflexivity.
Qed.

Lemma recalculateImportance_frame (storyId : ObjectId) (now : Z) (st : Store) :
  let st' := snd (StoryModel.recalculateImportance storyId now st) in
  storySources st' = storySources st /\ sources st' = sources st
  /\ nextId st' = nextId st.
Proof.
  rewrite recalculateImportance_run.
  destruct (findOne _ (stories st)); cbn; auto.
Qed.

Lemma linked_findOne (article : Article.t) (st : Store) :
  linked article st ->
  exists row,
    findOne (StorySourceModel.of_article (Article._id article)) (storySources st) = Some row.
Proof.
  intros (row & Hin & Hid). unfold findOne.
  destruct (List.find _ (storySources st)) eqn:E; [eauto|].
  pose proof (find_none _ _ E row Hin) as Hn.
  unfold StorySourceModel.of_article in Hn. rewrite Hid, Z.eqb_refl in Hn. discriminate.
Qed.


(** Every way in which [createStoryFromArticle] can end. *)
Lemma createStoryFromArticle_ok (article : Article.t) (now : Z) (st st' : Store)
    (story : Story.t) :
  clusteringService.createStoryFromArticle article now st = (Ok story, st') ->
  exists source st1,
    SourceModel.getOrCreate (Article.source article) now st = (Ok source, st1)
    /\ story = Story.mk (nextId st) (trim (Js.str_or (Article.title article) ""))
                        (Js.str_or (Article.category article) "general")
                        (Js.str_or (Article.mood article) "neutral")
                        1 0 (Source.credibilityScore source)
                        (Source.credibilityScore source * 0.25)
                        (default now (Article.publishedAt article)) now
    /\ st' = mkStore (stories st ++ [story])%list
                     (storySources st ++ [linkOf (nextId st) article source true 1])%list
                     (sources st1) (nextId st + 1)
    /\ in_unit (Source.credibilityScore source) = true.
Proof.
  rewrite createStoryFromArticle_run.
  destruct (SourceModel.getOrCreate _ now st) as [[source|msg] st1] eqn:Eg; [|discriminate].
  destruct (getOrCreate_frame _ _ _ _ _ Eg) as (Hs & Hl & Hn).
  destruct (StoryModel.create _ _ _ _ _ _ _ _ _ st1) as [[story0|msg] st2] eqn:Ec;
    [|discriminate].
  apply StoryModel_create_cases in Ec.
  destruct Ec as [(msg & [=] & _)|(Hr & Hst2 & Hd & Hc)].
  injection Hr as Hr. subst story0.
  destruct (StorySourceModel.create _ st2) as [[d|msg] st3] eqn:El; [|discriminate].
  apply StorySource_create_cases in El.
  destruct El as [(msg & [=] & _)|(_ & Hst3 & _)].
  intros [= <- <-]. exists source, st1. split; [reflexivity|].
  rewrite <- Hn, <- Hs, <- Hl. split; [reflexivity|]. split; [|exact Hc].
  rewrite Hst3, Hst2. reflexivity.
Qed.

(** C6. Ingestion is idempotent per article. An article that already has a
    link document (matched by its identifier) is skipped: the store is left
    as it was, so that no link is added and no source count moves, and the
    batch counts it as skipped. An article that has just created a story has
    such a document, and one that was merged either has one or left the
    stories and the links untouched. *)
Theorem C6_idempotent_ingestion (article : Article.t) (now : Z) (st : Store) :
  (linked article st ->
   clusteringService.processArticle article now st = (Skipped, st)
   /\ clusteringService.clusterArticles [article] now st = (Results.mk 0 0 1 0, st))
  /\ (forall st', clusteringService.processArticle article now st = (NewStory, st') ->
                  linked article st')
  /\ (forall st', clusteringService.processArticle article now st = (Merged, st') ->
                  linked article st'
                  \/ (stories st' = stories st /\ storySources st' = storySources st)).
Proof.
  split; [|split].
  - intros H. apply linked_findOne in H. destruct H as [row Hrow].
    assert (Hp : clusteringService.processArticle article now st = (Skipped, st)).
    { unfold clusteringService.processArticle. rewrite assign_run, Hrow. reflexivity. }
    split; [exact Hp|].
    unfold clusteringService.clusterArticles. cbn [clusteringService.clusterLoop].
    rewrite Hp. reflexivity.
  - intros st'. unfold clusteringService.processArticle. rewrite assign_run.
    destruct (findOne _ (storySources st)); [discriminate|].
    destruct (fst (clusteringService.findMatchingStory article now st))
      as [[[story score]|]|msg].
    + destruct (clusteringService.addArticleToStory _ _ _ _ st) as [[s|m] s']; discriminate.
    + destruct (clusteringService.createStoryFromArticle article now st)
        as [[s|m] s'] eqn:E; [|discriminate].
      intros [= <-]. apply createStoryFromArticle_ok in E.
      destruct E as (source & st1 & _ & _ & -> & _).
      exists (linkOf (nextId st) article source true 1). split; [|reflexivity].
      cbn. apply in_or_app. right. left. reflexivity.
    + destruct (clusteringService.createStoryFromArticle article now st)
        as [[s|m] s'] eqn:E; [|discriminate].
      intros [= <-]. apply createStoryFromArticle_ok in E.
      destruct E as (source & st1 & _ & _ & -> & _).
      exists (linkOf (nextId st) article source true 1). split; [|reflexivity].
      cbn. apply in_or_app. right. left. reflexivity.
  - intros st'. unfold clusteringService.processArticle. rewrite assign_run.
    destruct (findOne _ (storySources st)); [discriminate|].
    destruct (fst (clusteringService.findMatchingStory article now st))
      as [[[story score]|]|msg].
    2,3: destruct (clusteringService.createStoryFromArticle article now st)
           as [[s|m] s']; discriminate.
    rewrite addArticleToStory_run.
    destruct (findOne _ (stories st)) as [found|]; [|discriminate].
    destruct (SourceModel.getOrCreate _ now st) as [[source|m] st1] eqn:Eg; [|discriminate].
    destruct (getOrCreate_frame _ _ _ _ _ Eg) as (Hs & Hl & Hn).
    destruct (findOne _ (storySources st1)).
    { intros [= <-]. right. auto. }
    destruct (StorySourceModel.create _ st1) as [[d|m] st2] eqn:El; [|discriminate].
    apply StorySource_create_cases in El.
    destruct El as [(m & [=] & _)|(_ & Hst2 & _)].
    cbv zeta.
    destruct (StoryModel.saveStatistics (statisticsOf (Story._id story) now st2 found) st2)
      as [[u|m] st3] eqn:Es; [|discriminate].
    apply saveStatistics_cases in Es.
    destruct Es as [(m & [=] & _)|(_ & Hst3 & _)].
    intros [= <-]. left.
    destruct (recalculateImportance_frame (Story._id story) now st3) as (Hl4 & _).
    exists (linkOf (Story._id story) article source false score).
    split; [|reflexivity].
    rewrite Hl4, Hst3, Hst2. cbn. apply in_or_app. right. left. reflexivity.
Qed.

(** The Reuters article, offered again after it opened its story. *)
Lemma C6_idempotent_ingestion_witness :
  linked Examples.reuters Examples.afterReuters
  /\ clusteringService.processArticle Examples.reuters 6000 Examples.afterReuters
     = (Skipped, Examples.afterReuters).
Proof.
  assert (H : linked Examples.reuters Examples.afterReuters).
  { unfold linked. vm_compute. eexists. split; [left; reflexivity|reflexivity]. }
  split; [exact H|].
  exact (proj1 (proj1 (C6_idempotent_ingestion Examples.reuters 6000 Examples.afterReuters)
                      H)).
Defined.

(** ** The batch loop *)

Lemma processed_count (o : Outcome) (r : Results.t) :
  processed (clusteringService.count o r) = processed r + 1.
Proof. destruct o; unfold processed; cbn; lia. Qed.

Lemma clusterLoop_processed (articles : list Article.t) (now : Z) (r : Results.t)
    (st : Store) :
  processed (fst (clusteringService.clusterLoop articles now r st))
  = processed r + Z.of_nat (List.length articles).
Proof.
  revert r st. induction articles as [|a rest IH]; intros r st.
  - cbn. lia.
  - cbn [clusteringService.clusterLoop List.length].
    destruct (clusteringService.processArticle a now st) as [o st'].
    rewrite IH, processed_count. lia.
Qed.


Lemma clusterLoop_outcomes (articles : list Article.t) (now : Z) (r : Results.t)
    (st : Store) :
  fst (clusteringService.clusterLoop articles now r st)
  = List.fold_left (fun r o => clusteringService.count o r)
                   (clusteringService.outcomes articles now st) r.
Proof.
  revert r st. induction articles as [|a rest IH]; intros r st; [reflexivity|].
  cbn [clusteringService.clusterLoop clusteringService.outcomes].
  destruct (clusteringService.processArticle a now st) as [o st'].
  cbn [List.fold_left]. apply IH.
Qed.

Lemma clusterLoop_store (articles : list Article.t) (now : Z) (r r' : Results.t)
    (st : Store) :
  snd (clusteringService.clusterLoop articles now r st)
  = snd (clusteringService.clusterLoop articles now r' st).
Proof.
  revert r r' st. induction articles as [|a rest IH]; intros r r' st; [reflexivity|].
  cbn [clusteringService.clusterLoop].
  destruct (clusteringService.processArticle a now st) as [o st'].
  apply IH.
Qed.

(** C10 as stated fails in its last part: the article without a url throws
    after its story was created, the orphaned story stays in the store, and
    the next article is merged into it instead of opening a story. *)
Lemma C10_clusterArticles_counterexample :
  ~ Spec.isolatesFailure Examples.malformed [Examples.reuters] 5000 Examples.emptyStore.
Proof.
  intros H.
  assert (Hf : clusteringService.processArticle Examples.malformed 5000 Examples.emptyStore
               = (Failed, Examples.afterMalformed))
    by (vm_compute; reflexivity).
  assert (E : clusteringService.outcomes [Examples.reuters] 5000 Examples.afterMalformed
              = [Merged]) by (vm_compute; reflexivity).
  assert (E' : clusteringService.outcomes [Examples.reuters] 5000 Examples.emptyStore
               = [NewStory]) by (vm_compute; reflexivity).
  pose proof (eq_trans (eq_sym E) (eq_trans (H _ Hf) E')) as A.
  discriminate A.
Qed.

(** ** Stores that clustering cannot tell apart *)

Lemma sameForClustering_refl (st : Store) : sameForClustering st st.
Proof. unfold sameForClustering. auto. Qed.

Lemma sameForClustering_sym (st st' : Store) :
  sameForClustering st st' -> sameForClustering st' st.
Proof. intros (H1 & H2 & H3 & H4). unfold sameForClustering. auto. Qed.

Lemma sameForClustering_trans (a b c : Store) :
  sameForClustering a b -> sameForClustering b c -> sameForClustering a c.
Proof.
  intros (H1 & H2 & H3 & H4) (K1 & K2 & K3 & K4). unfold sameForClustering.
  repeat split; try congruence; intros name; rewrite H4; apply K4.
Qed.

Lemma credOf_replace_first (l : list Source.t) (nm : string) (s d : Source.t) :
  findOne (SourceModel.has_name nm) l = Some s ->
  Source.name d = Source.name s ->
  Source.credibilityScore d = Source.credibilityScore s ->
  forall name, credOf (replace_first (SourceModel.has_name nm) d l) name = credOf l name.
Proof.
  intros Hf Hn Hc name. unfold credOf, findOne in *.
  induction l as [|x r IH]; [discriminate|].
  cbn [List.find replace_first] in *.
  destruct (SourceModel.has_name nm x) eqn:E.
  - injection Hf as ->. cbn [List.find].
    unfold SourceModel.has_name at 1 3. rewrite Hn.
    destruct (String.eqb (Source.name s) name); [rewrite Hc|]; reflexivity.
  - cbn [List.find]. destruct (SourceModel.has_name name x); [reflexivity|].
    apply IH. exact Hf.
Qed.

Lemma find_app_none {A} (p : A -> bool) (l : list A) (x : A) :
  List.find p l = None -> List.find p (l ++ [x]) = if p x then Some x else None.
Proof.
  induction l as [|y r IH]; cbn; [reflexivity|].
  destruct (p y); [discriminate|]. exact IH.
Qed.

Lemma find_app_some {A} (p : A -> bool) (l : list A) (x y : A) :
  List.find p l = Some y -> List.find p (l ++ [x]) = Some y.
Proof.
  induction l as [|z r IH]; cbn; [discriminate|].
  destruct (p z); [auto|]. exact IH.
Qed.

Lemma credOf_sighted (l : list Source.t) (nm : string) (d : Source.t) :
  findOne (SourceModel.has_name nm) l = None ->
  String.eqb nm "" = false ->
  Source.name d = nm ->
  Source.credibilityScore d = SourceModel.known_score nm ->
  forall name, credOf (l ++ [d]) name = credOf l name.
Proof.
  intros Hf Hne Hn Hc name. unfold credOf, findOne in *.
  destruct (List.find (SourceModel.has_name name) l) eqn:E.
  - rewrite (find_app_some _ _ _ _ E). reflexivity.
  - rewrite (find_app_none _ _ _ E).
    unfold SourceModel.has_name at 1. rewrite Hn.
    destruct (String.eqb nm name) eqn:En; [|reflexivity].
    apply String.eqb_eq in En. subst name. rewrite Hne, Hc. reflexivity.
Qed.

(** [getOrCreate] hands out [credOf], and leaves a store that clustering
    cannot tell from the one it started in. *)
Lemma getOrCreate_credOf (sourceName : string) (now : Z) (st st1 : Store)
    (r : Result Source.t) :
  SourceModel.getOrCreate sourceName now st = (r, st1) ->
  sameForClustering st st1
  /\ match r with
     | Ok source => credOf (sources st) sourceName = Some (Source.credibilityScore source)
     | Throw _ => credOf (sources st) sourceName = None
     end.
Proof.
  unfold SourceModel.getOrCreate. run_store.
  destruct (findOne _ (sources st)) as [s|] eqn:Ef; cbn.
  - intros [= <- <-]. split; [|unfold credOf; rewrite Ef; reflexivity].
    unfold sameForClustering. cbn. repeat split.
    intros name. symmetry. apply (credOf_replace_first _ _ s); auto.
    unfold findOne in *. pose proof (find_some _ _ Ef) as [_ Hn].
    unfold SourceModel.has_name in Hn. apply String.eqb_eq in Hn.
    rewrite Hn. exact Ef.
  - destruct (String.eqb sourceName "") eqn:En; cbn.
    + intros [= <- <-]. split; [apply sameForClustering_refl|].
      unfold credOf. rewrite Ef, En. reflexivity.
    + intros [= <- <-]. split; [|unfold credOf; rewrite Ef, En; reflexivity].
      unfold sameForClustering. cbn. repeat split.
      intros name. symmetry.
      set (d := Source.mk sourceName (SourceModel.known_score sourceName)
                          (SourceModel.known_type sourceName) 0 now).
      rewrite (credOf_replace_first _ _ d); auto.
      * apply (credOf_sighted _ sourceName); auto.
      * unfold findOne in *. rewrite (find_app_none _ _ _ Ef).
        unfold SourceModel.has_name. cbn. rewrite String.eqb_refl. reflexivity.
Qed.

Lemma getOrCreate_sim (sourceName : string) (now : Z) (st st' : Store) :
  sameForClustering st st' ->
  let '(r, s) := SourceModel.getOrCreate sourceName now st in
  let '(r', s') := SourceModel.getOrCreate sourceName now st' in
  sameForClustering s s'
  /\ match r, r' with
     | Ok a, Ok b => Source.credibilityScore a = Source.credibilityScore b
     | Throw _, Throw _ => True
     | _, _ => False
     end.
Proof.
  intros H.
  destruct (SourceModel.getOrCreate sourceName now st) as [r s] eqn:E.
  destruct (SourceModel.getOrCreate sourceName now st') as [r' s'] eqn:E'.
  apply getOrCreate_credOf in E, E'. destruct E as [Hs Hr], E' as [Hs' Hr'].
  split.
  - eapply sameForClustering_trans; [apply sameForClustering_sym; exact Hs|].
    eapply sameForClustering_trans; [exact H|exact Hs'].
  - destruct H as (_ & _ & _ & Hc). rewrite (Hc sourceName) in Hr.
    destruct r, r'; cbn; try congruence; exact I.
Qed.

Ltac split_ifs :=
  repeat match goal with
         | |- context [if ?b then _ else _] => destruct b; cbn
         end.

Lemma StoryModel_create_sim (title : option string) (category mood : string)
    (count : Z) (diversity credibility importance : Q) (firstSeen lastUpdated : Z)
    (st st' : Store) :
  sameForClustering st st' ->
  let '(r, s) := StoryModel.create title category mood count diversity credibility
                                   importance firstSeen lastUpdated st in
  let '(r', s') := StoryModel.create title category mood count diversity credibility
                                     importance firstSeen lastUpdated st' in
  r = r' /\ sameForClustering s s'.
Proof.
  intros H. pose proof H as (H1 & H2 & H3 & H4).
  unfold StoryModel.create. run_store. split_ifs; try (split; [reflexivity|exact H]).
  rewrite H3. split; [reflexivity|].
  unfold sameForClustering. cbn. rewrite ?H1, ?H2, ?H3. auto.
Qed.

Lemma StorySource_create_sim (doc : StorySource.t) (st st' : Store) :
  sameForClustering st st' ->
  let '(r, s) := StorySourceModel.create doc st in
  let '(r', s') := StorySourceModel.create doc st' in
  r = r' /\ sameForClustering s s'.
Proof.
  intros H. pose proof H as (H1 & H2 & H3 & H4).
  unfold StorySourceModel.create. run_store.
  repeat match goal with
         | |- context [existsb ?p (storySources st')] => rewrite <- H2
         | |- context [if ?b then _ else _] => destruct b; cbn
         end; try (split; [reflexivity|exact H]).
  split; [reflexivity|].
  unfold sameForClustering. cbn. rewrite ?H1, ?H2, ?H3. auto.
Qed.

Lemma saveStatistics_sim (story : Story.t) (st st' : Store) :
  sameForClustering st st' ->
  let '(r, s) := StoryModel.saveStatistics story st in
  let '(r', s') := StoryModel.saveStatistics story st' in
  r = r' /\ sameForClustering s s'.
Proof.
  intros H. pose proof H as (H1 & H2 & H3 & H4).
  unfold StoryModel.saveStatistics. run_store.
  split_ifs; try (split; [reflexivity|exact H]).
  split; [reflexivity|].
  unfold sameForClustering. cbn. rewrite ?H1, ?H2, ?H3. auto.
Qed.

Lemma recalculateImportance_sim (storyId : ObjectId) (now : Z) (st st' : Store) :
  sameForClustering st st' ->
  sameForClustering (snd (StoryModel.recalculateImportance storyId now st))
                    (snd (StoryModel.recalculateImportance storyId now st')).
Proof.
  intros H. pose proof H as (H1 & H2 & H3 & H4).
  rewrite !recalculateImportance_run. rewrite <- H1.
  destruct (findOne _ (stories st)); cbn; [|exact H].
  unfold sameForClustering. cbn. rewrite ?H1, ?H2, ?H3. auto.
Qed.

Lemma findMatchingStory_sim (article : Article.t) (now : Z) (st st' : Store) :
  sameForClustering st st' ->
  fst (clusteringService.findMatchingStory article now st)
  = fst (clusteringService.findMatchingStory article now st').
Proof.
  intros (H1 & _). unfold clusteringService.findMatchingStory. run_store.
  rewrite <- H1.
  destruct (clusteringService.bestOf _ _) as [[story|] score]; reflexivity.
Qed.

Lemma linkOf_credibility (storyId : ObjectId) (article : Article.t) (a b : Source.t)
    (isPrimary : bool) (similarityScore : Q) :
  Source.credibilityScore a = Source.credibilityScore b ->
  linkOf storyId article a isPrimary similarityScore
  = linkOf storyId article b isPrimary similarityScore.
Proof. intros H. unfold linkOf. rewrite H. reflexivity. Qed.

Lemma addArticleToStory_sim (storyId : ObjectId) (article : Article.t)
    (similarityScore : Q) (now : Z) (st st' : Store) :
  sameForClustering st st' ->
  let '(r, s) := clusteringService.addArticleToStory storyId article similarityScore now st in
  let '(r', s') :=
    clusteringService.addArticleToStory storyId article similarityScore now st' in
  sameClass r r' /\ sameForClustering s s'.
Proof.
  intros H. rewrite !addArticleToStory_run.
  pose proof H as (H1 & H2 & H3 & H4).
  rewrite <- H1.
  destruct (findOne _ (stories st)) as [story|]; [|split; [exact I|exact H]].
  pose proof (getOrCreate_sim (Article.source article) now st st' H) as G.
  destruct (SourceModel.getOrCreate _ now st) as [[source|m] s1].
  2: { destruct (SourceModel.getOrCreate _ now st') as [[source'|m'] s1'];
       destruct G as [G1 G2]; [contradiction|split; [exact I|exact G1]]. }
  destruct (SourceModel.getOrCreate _ now st') as [[source'|m'] s1'];
    destruct G as [G1 G2]; [|contradiction].
  pose proof G1 as (K1 & K2 & K3 & K4). rewrite <- K2.
  destruct (findOne _ (storySources s1)); [split; [exact I|exact G1]|].
  rewrite (linkOf_credibility _ _ source source' _ _ G2).
  pose proof (StorySource_create_sim
                (linkOf storyId article source' false similarityScore) s1 s1' G1) as C.
  destruct (StorySourceModel.create _ s1) as [r2 s2].
  destruct (StorySourceModel.create _ s1') as [r2' s2'].
  destruct C as [<- C]. destruct r2 as [d|m]; [|split; [exact I|exact C]].
  cbv zeta. pose proof C as (L1 & L2 & L3 & L4).
  unfold statisticsOf. rewrite <- L2.
  fold (statisticsOf storyId now s2 story).
  pose proof (saveStatistics_sim (statisticsOf storyId now s2 story) s2 s2' C) as S.
  destruct (StoryModel.saveStatistics _ s2) as [r3 s3].
  destruct (StoryModel.saveStatistics _ s2') as [r3' s3'].
  destruct S as [<- S]. destruct r3 as [u|m]; [|split; [exact I|exact S]].
  split; [exact I|]. cbn [snd]. apply recalculateImportance_sim. exact S.
Qed.

Lemma createStoryFromArticle_sim (article : Article.t) (now : Z) (st st' : Store) :
  sameForClustering st st' ->
  let '(r, s) := clusteringService.createStoryFromArticle article now st in
  let '(r', s') := clusteringService.createStoryFromArticle article now st' in
  sameClass r r' /\ sameForClustering s s'.
Proof.
  intros H. rewrite !createStoryFromArticle_run.
  pose proof (getOrCreate_sim (Article.source article) now st st' H) as G.
  destruct (SourceModel.getOrCreate _ now st) as [[source|m] s1].
  2: { destruct (SourceModel.getOrCreate _ now st') as [[source'|m'] s1'];
       destruct G as [G1 G2]; [contradiction|split; [exact I|exact G1]]. }
  destruct (SourceModel.getOrCreate _ now st') as [[source'|m'] s1'];
    destruct G as [G1 G2]; [|contradiction].
  rewrite G2.
  match goal with
  | |- context [StoryModel.create ?a ?b ?c ?d ?e ?f ?g ?h ?i s1] =>
      pose proof (StoryModel_create_sim a b c d e f g h i s1 s1' G1) as C;
      destruct (StoryModel.create a b c d e f g h i s1) as [r2 s2];
      destruct (StoryModel.create a b c d e f g h i s1') as [r2' s2']
  end.
  destruct C as [<- C]. destruct r2 as [story|m]; [|split; [exact I|exact C]].
  rewrite (linkOf_credibility _ _ source source' _ _ G2).
  pose proof (StorySource_create_sim
                (linkOf (Story._id story) article source' true 1) s2 s2' C) as L.
  destruct (StorySourceModel.create _ s2) as [r3 s3].
  destruct (StorySourceModel.create _ s2') as [r3' s3'].
  destruct L as [<- L]. destruct r3; split; first [exact I|exact L].
Qed.

(** Processing an article in two stores that clustering cannot tell apart
    has the same outcome and leaves two such stores. *)
Lemma processArticle_sim (article : Article.t) (now : Z) (st st' : Store) :
  sameForClustering st st' ->
  fst (clusteringService.processArticle article now st)
  = fst (clusteringService.processArticle article now st')
  /\ sameForClustering (snd (clusteringService.processArticle article now st))
                       (snd (clusteringService.processArticle article now st')).
Proof.
  intros H. unfold clusteringService.processArticle. rewrite !assign_run.
  pose proof H as (H1 & H2 & H3 & H4). rewrite <- H2.
  destruct (findOne _ (storySources st)); [split; [reflexivity|exact H]|].
  rewrite <- (findMatchingStory_sim article now st st' H).
  destruct (fst (clusteringService.findMatchingStory article now st))
    as [[[story score]|]|m].
  - pose proof (addArticleToStory_sim (Story._id story) article score now st st' H) as A.
    destruct (clusteringService.addArticleToStory _ _ _ _ st) as [[x|m] s].
    all: destruct (clusteringService.addArticleToStory _ _ _ _ st') as [[x'|m'] s'].
    all: destruct A as [A1 A2]; cbn in A1; try contradiction.
    all: split; [reflexivity|exact A2].
  - pose proof (createStoryFromArticle_sim article now st st' H) as A.
    destruct (clusteringService.createStoryFromArticle _ _ st) as [[x|m] s].
    all: destruct (clusteringService.createStoryFromArticle _ _ st') as [[x'|m'] s'].
    all: destruct A as [A1 A2]; cbn in A1; try contradiction.
    all: split; [reflexivity|exact A2].
  - pose proof (createStoryFromArticle_sim article now st st' H) as A.
    destruct (clusteringService.createStoryFromArticle _ _ st) as [[x|m0] s].
    all: destruct (clusteringService.createStoryFromArticle _ _ st') as [[x'|m'] s'].
    all: destruct A as [A1 A2]; cbn in A1; try contradiction.
    all: split; [reflexivity|exact A2].
Qed.

Lemma outcomes_sim (articles : list Article.t) (now : Z) (st st' : Store) :
  sameForClustering st st' ->
  clusteringService.outcomes articles now st = clusteringService.outcomes articles now st'.
Proof.
  revert st st'. induction articles as [|a rest IH]; intros st st' H; [reflexivity|].
  cbn [clusteringService.outcomes].
  destruct (processArticle_sim a now st st' H) as [Ho Hs].
  destruct (clusteringService.processArticle a now st) as [o s].
  destruct (clusteringService.processArticle a now st') as [o' s'].
  cbn in Ho, Hs. subst o'. f_equal. apply IH. exact Hs.
Qed.

Lemma app_singleton_neq {A} (l : list A) (x : A) : (l ++ [x])%list <> l.
Proof.
  intros H. apply (f_equal (@List.length A)) in H.
  rewrite List.length_app in H. cbn in H. lia.
Qed.

(** An article whose processing leaves the stories and the links as they
    were leaves a store that clustering cannot tell from the one before. *)
Lemma processArticle_clean (article : Article.t) (now : Z) (st st' : Store) (o : Outcome) :
  clusteringService.processArticle article now st = (o, st') ->
  stories st' = stories st -> storySources st' = storySources st ->
  sameForClustering st st'.
Proof.
  unfold clusteringService.processArticle. rewrite assign_run.
  destruct (findOne _ (storySources st)).
  { intros [= <- <-] _ _. apply sameForClustering_refl. }
  assert (Hcreate :
    forall r,
      clusteringService.createStoryFromArticle article now st = (r, st') ->
      stories st' = stories st -> storySources st' = storySources st ->
      sameForClustering st st').
  { intros r. rewrite createStoryFromArticle_run.
    destruct (SourceModel.getOrCreate _ now st) as [[source|m] s1] eqn:Eg.
    2: { intros [= <- <-] _ _. apply getOrCreate_credOf in Eg. apply Eg. }
    pose proof (getOrCreate_credOf _ _ _ _ _ Eg) as [G _].
    pose proof G as (G1 & G2 & G3 & G4).
    destruct (StoryModel.create _ _ _ _ _ _ _ _ _ s1) as [[story|m] s2] eqn:Ec.
    2: { apply StoryModel_create_cases in Ec.
         destruct Ec as [(m' & _ & ->)|([=] & _)]. intros [= <- <-] _ _. exact G. }
    apply StoryModel_create_cases in Ec.
    destruct Ec as [(m' & [=] & _)|(_ & -> & _)].
    destruct (StorySourceModel.create _ _) as [[d|m] s3] eqn:El;
      apply StorySource_create_cases in El;
      destruct El as [(m' & Hr & ->)|(Hr & -> & _)]; try discriminate Hr;
      intros [= <- <-] Hs _; cbn in Hs; rewrite <- G1 in Hs;
      exfalso; exact (app_singleton_neq _ _ Hs). }
  destruct (fst (clusteringService.findMatchingStory article now st))
    as [[[story score]|]|m].
  2,3: destruct (clusteringService.createStoryFromArticle article now st)
         as [[x|m1] s]; intros [= <- <-]; apply (Hcreate _ eq_refl).
  clear Hcreate. rewrite addArticleToStory_run.
  destruct (findOne _ (stories st)) as [found|].
  2: { intros [= <- <-] _ _. apply sameForClustering_refl. }
  destruct (SourceModel.getOrCreate _ now st) as [[source|m] s1] eqn:Eg.
  2: { intros [= <- <-] _ _. apply getOrCreate_credOf in Eg. apply Eg. }
  pose proof (getOrCreate_credOf _ _ _ _ _ Eg) as [G _].
  pose proof G as (G1 & G2 & G3 & G4).
  destruct (findOne _ (storySources s1)).
  { intros [= <- <-] _ _. exact G. }
  destruct (StorySourceModel.create _ s1) as [[d|m] s2] eqn:El;
    apply StorySource_create_cases in El;
    destruct El as [(m' & Hr & ->)|(Hr & -> & _)]; try discriminate Hr.
  2: { intros [= <- <-] _ _. exact G. }
  cbv zeta.
  match goal with
  | |- context [StoryModel.saveStatistics ?s ?t] =>
      destruct (StoryModel.saveStatistics s t) as [[u|m] s3] eqn:Es;
      apply saveStatistics_cases in Es;
      destruct Es as [(m' & Hr' & ->)|(Hr' & -> & _)]; try discriminate Hr'
  end.
  - intros [= <- <-] _ Hl.
    match type of Hl with
    | storySources (snd (StoryModel.recalculateImportance ?i ?n ?s)) = _ =>
        destruct (recalculateImportance_frame i n s) as (F & _)
    end.
    rewrite F in Hl. cbn in Hl. rewrite <- G2 in Hl.
    exfalso. exact (app_singleton_neq _ _ Hl).
  - intros [= <- <-] _ Hl. cbn in Hl. rewrite <- G2 in Hl.
    exfalso. exact (app_singleton_neq _ _ Hl).
Qed.

Lemma outcomes_app (pre post : list Article.t) (now : Z) (st : Store) :
  clusteringService.outcomes (pre ++ post) now st
  = (clusteringService.outcomes pre now st
     ++ clusteringService.outcomes post now
          (snd (clusteringService.clusterArticles pre now st)))%list.
Proof.
  unfold clusteringService.clusterArticles.
  revert st. induction pre as [|a pre IH]; intros st; [reflexivity|].
  cbn [app clusteringService.outcomes clusteringService.clusterLoop].
  destruct (clusteringService.processArticle a now st) as [o st'].
  cbn [app]. f_equal. rewrite IH.
  f_equal. f_equal. apply clusterLoop_store.
Qed.

Lemma outcomes_length (articles : list Article.t) (now : Z) (st : Store) :
  List.length (clusteringService.outcomes articles now st) = List.length articles.
Proof.
  revert st. induction articles as [|a rest IH]; intros st; [reflexivity|].
  cbn [clusteringService.outcomes].
  destruct (clusteringService.processArticle a now st) as [o st'].
  cbn [List.length]. f_equal. apply IH.
Qed.

Lemma tally_occurrences (os : list Outcome) (r : Results.t) :
  List.fold_left (fun r o => clusteringService.count o r) os r
  = Results.mk (Results.newStories r + occurrences NewStory os)
               (Results.mergedArticles r + occurrences Merged os)
               (Results.skipped r + occurrences Skipped os)
               (Results.errors r + occurrences Failed os).
Proof.
  revert r. induction os as [|o os IH]; intros r.
  - destruct r. unfold occurrences. cbn. f_equal; lia.
  - cbn [List.fold_left]. rewrite IH. unfold occurrences.
    destruct o; cbn; f_equal; lia.
Qed.

(** C10, amended. [clusterArticles] processes the articles one after the
    other; its four counts are the numbers of articles that opened a story,
    were merged, were skipped and failed, and add up to the length of the
    list. An exception raised while processing an article is caught and
    counted as one error, and the remaining articles are processed from the
    store the failed article left behind. Their outcomes are those they
    would have had without the failed article whenever it failed before any
    story or link document was written. *)
Theorem C10_clusterArticles (articles : list Article.t) (now : Z) (st : Store) :
  let results := fst (clusteringService.clusterArticles articles now st) in
  let os := clusteringService.outcomes articles now st in
  processed results = Z.of_nat (List.length articles)
  /\ results = Results.mk (occurrences NewStory os) (occurrences Merged os)
                          (occurrences Skipped os) (occurrences Failed os)
  /\ List.length os = List.length articles
  /\ forall pre article post o st2,
       articles = (pre ++ article :: post)%list ->
       let st1 := snd (clusteringService.clusterArticles pre now st) in
       clusteringService.processArticle article now st1 = (o, st2) ->
       os = (clusteringService.outcomes pre now st
             ++ o :: clusteringService.outcomes post now st2)%list
       /\ (forall msg, fst (clusteringService.assign article now st1) = Throw msg ->
                       o = Failed)
       /\ (o = Failed ->
           stories st2 = stories st1 -> storySources st2 = storySources st1 ->
           clusteringService.outcomes post now st2
           = clusteringService.outcomes post now st1).
Proof.
  intros results os. subst results os.
  split; [|split; [|split]].
  - unfold clusteringService.clusterArticles. rewrite clusterLoop_processed.
    unfold processed. cbn. lia.
  - unfold clusteringService.clusterArticles.
    rewrite clusterLoop_outcomes, tally_occurrences. cbn. reflexivity.
  - apply outcomes_length.
  - intros pre article post o st2 -> st1 Hp.
    split; [|split].
    + rewrite outcomes_app. fold st1. cbn [clusteringService.outcomes].
      rewrite Hp. reflexivity.
    + intros msg Hm. unfold clusteringService.processArticle in Hp.
      destruct (clusteringService.assign article now st1) as [[x|m] s]; cbn in Hm.
      * discriminate.
      * injection Hp as <- _. reflexivity.
    + intros -> Hs Hl. symmetry. apply outcomes_sim.
      apply (processArticle_clean _ _ _ _ _ Hp Hs Hl).
Qed.

(** The article without a title fails before any story is written: the
    article that follows it opens a story, as it does on its own. *)
Lemma C10_clusterArticles_witness :
  clusteringService.processArticle Examples.untitled 5000 Examples.emptyStore
  = (Failed, Examples.afterUntitled)
  /\ clusteringService.outcomes [Examples.reuters] 5000 Examples.afterUntitled
     = clusteringService.outcomes [Examples.reuters] 5000 Examples.emptyStore.
Proof.
  assert (Hp : clusteringService.processArticle Examples.untitled 5000 Examples.emptyStore
               = (Failed, Examples.afterUntitled)) by (vm_compute; reflexivity).
  split; [exact Hp|].
  refine (proj2 (proj2
            (proj2 (proj2 (proj2
               (C10_clusterArticles [Examples.untitled; Examples.reuters] 5000
                                    Examples.emptyStore)))
               [] Examples.untitled [Examples.reuters] Failed Examples.afterUntitled
               eq_refl Hp)) eq_refl _ _).
  - vm_compute. reflexivity.
  - vm_compute. reflexivity.
Defined.

(** ** One link per story and source *)

Lemma wellFormed_frame (st st' : Store) :
  stories st' = stories st -> storySources st' = storySources st ->
  nextId st' = nextId st -> wellFormed st -> wellFormed st'.
Proof.
  unfold wellFormed, uniqueLinks. intros -> -> ->. auto.
Qed.

Lemma NoDup_snoc {A} (l : list A) (x : A) :
  List.NoDup l -> ~ In x l -> List.NoDup (l ++ [x]).
Proof.
  induction 1 as [|y l Hy Hl IH]; intros Hx; cbn.
  - constructor; [intros []|constructor].
  - constructor.
    + rewrite in_app_iff. intros [H|[H|[]]]; [contradiction|].
      subst. apply Hx. left. reflexivity.
    + apply IH. intros H. apply Hx. right. exact H.
Qed.

Lemma findOne_none_key (storyId : ObjectId) (sourceName : string)
    (l : list StorySource.t) :
  findOne (StorySourceModel.of_story_source storyId sourceName) l = None ->
  ~ In (storyId, sourceName) (List.map linkKey l).
Proof.
  intros Hf Hin. apply in_map_iff in Hin. destruct Hin as (r & Hk & Hr).
  pose proof (find_none _ _ Hf r Hr) as Hn.
  unfold linkKey in Hk. injection Hk as H1 H2.
  unfold StorySourceModel.of_story_source in Hn.
  rewrite H1, H2, Z.eqb_refl, String.eqb_refl in Hn. discriminate.
Qed.

Lemma Forall_replace_first {A} (P : A -> Prop) (p : A -> bool) (d : A) (l : list A) :
  List.Forall P l -> P d -> List.Forall P (replace_first p d l).
Proof.
  intros Hl Hd. induction Hl as [|x r Hx Hr IH]; cbn; [constructor|].
  destruct (p x); constructor; auto.
Qed.

Lemma findOne_has_id (storyId : ObjectId) (l : list Story.t) (story : Story.t) :
  findOne (StoryModel.has_id storyId) l = Some story ->
  In story l /\ Story._id story = storyId.
Proof.
  intros H. apply find_some in H. destruct H as [Hin Hid].
  split; [exact Hin|]. unfold StoryModel.has_id in Hid. apply Z.eqb_eq. exact Hid.
Qed.

Lemma wellFormed_recalculateImportance (storyId : ObjectId) (now : Z) (st : Store) :
  wellFormed st -> wellFormed (snd (StoryModel.recalculateImportance storyId now st)).
Proof.
  intros (U & L & S). rewrite recalculateImportance_run.
  destruct (findOne _ (stories st)) as [story|] eqn:E; cbn; [|repeat split; auto].
  repeat split; auto. cbn.
  apply Forall_replace_first; [exact S|]. cbn.
  apply findOne_has_id in E. destruct E as [Hin _].
  rewrite List.Forall_forall in S. apply S. exact Hin.
Qed.

Lemma wellFormed_link (st : Store) (doc : StorySource.t) :
  wellFormed st ->
  findOne (StorySourceModel.of_story_source (StorySource.storyId doc)
                                            (StorySource.sourceName doc))
          (storySources st) = None ->
  StorySource.storyId doc < nextId st ->
  wellFormed (with_storySources (fun l => (l ++ [doc])%list) st).
Proof.
  intros (U & L & S) Hf Hlt. unfold wellFormed, uniqueLinks. cbn.
  split; [|split; [|exact S]].
  - rewrite List.map_app. cbn. apply NoDup_snoc; [exact U|].
    apply findOne_none_key. exact Hf.
  - apply List.Forall_app. split; [exact L|]. constructor; [exact Hlt|constructor].
Qed.

Lemma wellFormed_addArticleToStory (storyId : ObjectId) (article : Article.t)
    (similarityScore : Q) (now : Z) (st : Store) :
  wellFormed st ->
  wellFormed (snd (clusteringService.addArticleToStory storyId article
                                                       similarityScore now st)).
Proof.
  intros W. rewrite addArticleToStory_run.
  destruct (findOne _ (stories st)) as [story|] eqn:Ef; [|exact W].
  apply findOne_has_id in Ef. destruct Ef as [Hin Hid].
  destruct (SourceModel.getOrCreate _ now st) as [[source|m] s1] eqn:Eg;
    destruct (getOrCreate_frame _ _ _ _ _ Eg) as (G1 & G2 & G3);
    pose proof (wellFormed_frame _ _ G1 G2 G3 W) as W1; [|exact W1].
  destruct (findOne _ (storySources s1)) eqn:Ed; [exact W1|].
  destruct (StorySourceModel.create _ s1) as [[d|m] s2] eqn:El;
    apply StorySource_create_cases in El;
    destruct El as [(m' & Hr & ->)|(Hr & -> & _)]; try discriminate Hr; [|exact W1].
  assert (W2 : wellFormed
                 (with_storySources
                    (fun l => (l ++ [linkOf storyId article source false similarityScore])%list)
                    s1)).
  { apply wellFormed_link; [exact W1|exact Ed|]. cbn.
    destruct W as (_ & _ & S). rewrite List.Forall_forall in S.
    rewrite G3, <- Hid. apply S. exact Hin. }
  cbv zeta.
  match goal with
  | |- context [StoryModel.saveStatistics ?s ?t] =>
      destruct (StoryModel.saveStatistics s t) as [[u|m] s3] eqn:Es;
      apply saveStatistics_cases in Es;
      destruct Es as [(m' & Hr' & ->)|(Hr' & -> & _)]; try discriminate Hr'
  end; [|exact W2].
  cbn [snd]. apply wellFormed_recalculateImportance.
  destruct W2 as (U2 & L2 & S2). repeat split; auto. cbn.
  apply Forall_replace_first; [exact S2|]. cbn.
  destruct W as (_ & _ & S). rewrite List.Forall_forall in S.
  rewrite G3. apply S. exact Hin.
Qed.

Lemma wellFormed_createStoryFromArticle (article : Article.t) (now : Z) (st : Store) :
  wellFormed st ->
  wellFormed (snd (clusteringService.createStoryFromArticle article now st)).
Proof.
  intros W. rewrite createStoryFromArticle_run.
  destruct (SourceModel.getOrCreate _ now st) as [[source|m] s1] eqn:Eg;
    destruct (getOrCreate_frame _ _ _ _ _ Eg) as (G1 & G2 & G3);
    pose proof (wellFormed_frame _ _ G1 G2 G3 W) as W1; [|exact W1].
  destruct (StoryModel.create _ _ _ _ _ _ _ _ _ s1) as [[story|m] s2] eqn:Ec;
    apply StoryModel_create_cases in Ec;
    destruct Ec as [(m' & Hr & ->)|(Hr & -> & _)]; try discriminate Hr; [|exact W1].
  injection Hr as ->.
  match goal with
  | |- context [StorySourceModel.create ?d ?t] =>
      assert (W2 : wellFormed t); [|
        destruct (StorySourceModel.create d t) as [[x|m] s3] eqn:El;
        apply StorySource_create_cases in El;
        destruct El as [(m' & Hr' & ->)|(Hr' & -> & _)]; try discriminate Hr';
        [|exact W2]]
  end.
  - destruct W1 as (U & L & S). unfold wellFormed, uniqueLinks. cbn.
    split; [exact U|]. split.
    + eapply List.Forall_impl; [|exact L]. cbn. intros r Hr. lia.
    + apply List.Forall_app. split.
      * eapply List.Forall_impl; [|exact S]. cbn. intros r Hr. lia.
      * constructor; [cbn; lia|constructor].
  - cbn [snd]. destruct W1 as (U & L & S).
    unfold wellFormed, uniqueLinks. cbn. split; [|split].
    + rewrite List.map_app. cbn. apply NoDup_snoc; [exact U|].
      intros Hin. apply in_map_iff in Hin. destruct Hin as (r & Hk & Hr).
      rewrite List.Forall_forall in L. specialize (L r Hr).
      unfold linkKey in Hk. injection Hk as H1 H2. lia.
    + apply List.Forall_app. split.
      * eapply List.Forall_impl; [|exact L]. cbn. intros r Hr. lia.
      * constructor; [cbn; lia|constructor].
    + apply List.Forall_app. split.
      * eapply List.Forall_impl; [|exact S]. cbn. intros r Hr. lia.
      * constructor; [cbn; lia|constructor].
Qed.

Lemma wellFormed_processArticle (article : Article.t) (now : Z) (st : Store) :
  wellFormed st -> wellFormed (snd (clusteringService.processArticle article now st)).
Proof.
  intros W. unfold clusteringService.processArticle. rewrite assign_run.
  destruct (findOne _ (storySources st)); [exact W|].
  destruct (fst (clusteringService.findMatchingStory article now st))
    as [[[story score]|]|m].
  - pose proof (wellFormed_addArticleToStory (Story._id story) article score now st W) as A.
    destruct (clusteringService.addArticleToStory _ _ _ _ st) as [[x|m] s]; exact A.
  - pose proof (wellFormed_createStoryFromArticle article now st W) as A.
    destruct (clusteringService.createStoryFromArticle _ _ st) as [[x|m] s]; exact A.
  - pose proof (wellFormed_createStoryFromArticle article now st W) as A.
    destruct (clusteringService.createStoryFromArticle _ _ st) as [[x|m0] s]; exact A.
Qed.

Lemma wellFormed_clusterLoop (articles : list Article.t) (now : Z) (r : Results.t)
    (st : Store) :
  wellFormed st -> wellFormed (snd (clusteringService.clusterLoop articles now r st)).
Proof.
  revert r st. induction articles as [|a rest IH]; intros r st W; [exact W|].
  cbn [clusteringService.clusterLoop].
  pose proof (wellFormed_processArticle a now st W) as W'.
  destruct (clusteringService.processArticle a now st) as [o st'].
  apply IH. exact W'.
Qed.

Lemma getOrCreate_ok (sourceName : string) (now : Z) (st : Store) :
  sourceName <> "" ->
  exists source st1, SourceModel.getOrCreate sourceName now st = (Ok source, st1).
Proof.
  intros Hne. unfold SourceModel.getOrCreate. run_store.
  destruct (findOne _ (sources st)); cbn; [eauto|].
  destruct (String.eqb sourceName "") eqn:E; cbn; [|eauto].
  apply String.eqb_eq in E. contradiction.
Qed.

(** C5. At most one link document exists per story and source name: the
    invariant holds in every store reached by [addArticleToStory] and by
    [clusterArticles] from a store in which it holds. When the source name
    of the article is already linked to the story, [addArticleToStory]
    returns the story without an error, adds no link and leaves every story
    (its source count, diversity, average credibility and importance score)
    as it was. *)
Theorem C5_one_link_per_source (st : Store) (now : Z) :
  wellFormed st ->
  (forall articles,
      wellFormed (snd (clusteringService.clusterArticles articles now st))
      /\ uniqueLinks (snd (clusteringService.clusterArticles articles now st)))
  /\ (forall storyId article similarityScore,
         uniqueLinks (snd (clusteringService.addArticleToStory
                             storyId article similarityScore now st)))
  /\ (forall storyId article similarityScore story row,
         findOne (StoryModel.has_id storyId) (stories st) = Some story ->
         findOne (StorySourceModel.of_story_source storyId (Article.source article))
                 (storySources st) = Some row ->
         Article.source article <> "" ->
         exists st',
           clusteringService.addArticleToStory storyId article similarityScore now st
           = (Ok story, st')
           /\ stories st' = stories st /\ storySources st' = storySources st).
Proof.
  intros W. split; [|split].
  - intros articles.
    pose proof (wellFormed_clusterLoop articles now (Results.mk 0 0 0 0) st W) as H.
    split; [exact H|apply H].
  - intros storyId article similarityScore.
    apply (wellFormed_addArticleToStory storyId article similarityScore now st W).
  - intros storyId article similarityScore story row Hs Hr Hne.
    rewrite addArticleToStory_run, Hs.
    destruct (getOrCreate_ok (Article.source article) now st Hne) as (source & st1 & Eg).
    rewrite Eg. destruct (getOrCreate_frame _ _ _ _ _ Eg) as (G1 & G2 & G3).
    rewrite G2, Hr. exists st1. auto.
Qed.

(** A second Reuters article for the story that Reuters opened. *)
Lemma C5_one_link_per_source_witness :
  wellFormed Examples.afterReuters
  /\ exists story st',
       clusteringService.addArticleToStory 1 Examples.reutersAgain 0.9 6000
                                           Examples.afterReuters
       = (Ok story, st')
       /\ stories st' = stories Examples.afterReuters
       /\ storySources st' = storySources Examples.afterReuters.
Proof.
  assert (W0 : wellFormed Examples.emptyStore).
  { unfold wellFormed, uniqueLinks. cbn. repeat split; constructor. }
  assert (W : wellFormed Examples.afterReuters).
  { exact (proj1 (proj1 (C5_one_link_per_source Examples.emptyStore 5000 W0)
                        [Examples.reuters])). }
  split; [exact W|].
  assert (Hs : exists story,
             findOne (StoryModel.has_id 1) (stories Examples.afterReuters) = Some story)
    by (vm_compute; eexists; reflexivity).
  assert (Hr : exists row,
             findOne (StorySourceModel.of_story_source
                        1 (Article.source Examples.reutersAgain))
                     (storySources Examples.afterReuters) = Some row)
    by (vm_compute; eexists; reflexivity).
  destruct Hs as [story Hs]. destruct Hr as [row Hr]. exists story.
  refine (proj2 (proj2 (C5_one_link_per_source Examples.afterReuters 6000 W))
                1 Examples.reutersAgain 0.9%Q story row Hs Hr _).
  discriminate.
Defined.

(** ** Source diversity *)






Lemma calculateSourceDiversity_bounds (storyId : ObjectId) (rows : list StorySource.t) :
  (0 <= StorySourceModel.calculateSourceDiversity storyId rows <= 1)%Q.
Proof.
  unfold StorySourceModel.calculateSourceDiversity. split.
  - apply Q.min_glb; [|discriminate].
    apply Qdiv_nonneg; [apply ofNat_nonneg|discriminate].
  - apply Q.le_min_r.
Qed.

Lemma findOne_replace_first {A} (p : A -> bool) (d x : A) (l : list A) :
  findOne p l = Some x -> p d = true -> findOne p (replace_first p d l) = Some d.
Proof.
  unfold findOne. intros Hf Hd. induction l as [|y r IH]; [discriminate|].
  cbn in *. destruct (p y) eqn:E; cbn.
  - rewrite Hd. reflexivity.
  - rewrite E. apply IH. exact Hf.
Qed.

Lemma replace_twice_others (storyId : ObjectId) (d e : Story.t) (l : list Story.t) :
  StoryModel.has_id storyId d = true -> StoryModel.has_id storyId e = true ->
  Forall2 (fun a b => Story._id a = Story._id b /\ (Story._id a <> storyId -> a = b))
          l (replace_first (StoryModel.has_id storyId) d
                           (replace_first (StoryModel.has_id storyId) e l)).
Proof.
  intros Hd He. induction l as [|x r IH]; cbn [replace_first]; [constructor|].
  destruct (StoryModel.has_id storyId x) eqn:E; cbn [replace_first].
  - rewrite He. unfold StoryModel.has_id in *.
    apply Z.eqb_eq in E, Hd. constructor.
    + split; [congruence|]. intros K. contradiction.
    + clear. induction r; constructor; auto.
  - rewrite E. constructor; [auto|exact IH].
Qed.

(** What [addArticleToStory] leaves behind when it links a new source. *)
Lemma addArticleToStory_linked (storyId : ObjectId) (article : Article.t)
    (similarityScore : Q) (now : Z) (st st' : Store) (story' : Story.t) :
  clusteringService.addArticleToStory storyId article similarityScore now st
  = (Ok story', st') ->
  findOne (StorySourceModel.of_story_source storyId (Article.source article))
          (storySources st) = None ->
  exists story source,
    findOne (StoryModel.has_id storyId) (stories st) = Some story
    /\ storySources st'
       = (storySources st ++ [linkOf storyId article source false similarityScore])%list
    /\ story' = statisticsOf storyId now st' story
    /\ findOne (StoryModel.has_id storyId) (stories st')
       = Some (Story.set_importanceScore (StoryModel.importanceOf story' now) story')
    /\ in_unit (Story.averageCredibility story') = true
    /\ Forall2 (fun a b => Story._id a = Story._id b
                           /\ (Story._id a <> storyId -> a = b))
               (stories st) (stories st').
Proof.
  rewrite addArticleToStory_run.
  destruct (findOne _ (stories st)) as [story|] eqn:Ef; [|discriminate].
  destruct (SourceModel.getOrCreate _ now st) as [[source|m] s1] eqn:Eg; [|discriminate].
  destruct (getOrCreate_frame _ _ _ _ _ Eg) as (G1 & G2 & G3).
  rewrite G2. intros H Hn. rewrite Hn in H.
  destruct (StorySourceModel.create _ s1) as [[d|m] s2] eqn:El;
    apply StorySource_create_cases in El;
    destruct El as [(m' & Hr & ->)|(Hr & -> & _)]; try discriminate Hr;
    try discriminate H.
  cbv zeta in H.
  match type of H with
  | context [StoryModel.saveStatistics ?s ?t] =>
      destruct (StoryModel.saveStatistics s t) as [[u|m] s3] eqn:Es;
      apply saveStatistics_cases in Es;
      destruct Es as [(m' & Hr' & ->)|(Hr' & -> & _ & Hc)]; try discriminate Hr';
      try discriminate H
  end.
  injection H as <- <-.
  pose proof (findOne_has_id _ _ _ Ef) as [_ Hid].
  rewrite recalculateImportance_run.
  match goal with
  | |- context [findOne ?p (stories ?s)] =>
      assert (Ef3 : findOne p (stories s)
                    = Some (statisticsOf storyId now
                              (with_storySources
                                 (fun l => (l ++ [linkOf storyId article source
                                                         false similarityScore])%list) s1)
                              story))
  end.
  { cbn [stories with_stories with_storySources]. rewrite G1.
    unfold statisticsOf at 1. cbn [Story.set_statistics Story._id]. rewrite Hid.
    apply (findOne_replace_first _ _ story); [exact Ef|].
    unfold StoryModel.has_id. cbn. rewrite Hid. apply Z.eqb_refl. }
  rewrite Ef3. cbn [snd].
  exists story, source. split; [reflexivity|].
  split; [cbn; rewrite G2; reflexivity|].
  split; [reflexivity|].
  split.
  - cbn [stories with_stories with_storySources]. rewrite G1.
    cbn [Story.set_importanceScore Story._id statisticsOf Story.set_statistics].
    rewrite Hid.
    match goal with
    | |- findOne ?p (replace_first ?p ?d (replace_first ?p ?e ?l)) = Some ?d' =>
        apply (findOne_replace_first p d e)
    end.
    + apply (findOne_replace_first _ _ story); [exact Ef|].
      unfold StoryModel.has_id. cbn. rewrite Hid. apply Z.eqb_refl.
    + unfold StoryModel.has_id. cbn. rewrite Hid. apply Z.eqb_refl.
  - split; [exact Hc|].
    cbn [stories with_stories with_storySources]. rewrite G1.
    cbn [Story.set_importanceScore Story._id statisticsOf Story.set_statistics].
    rewrite Hid. apply replace_twice_others.
    + unfold StoryModel.has_id. cbn. rewrite Hid. apply Z.eqb_refl.
    + unfold StoryModel.has_id. cbn. rewrite Hid. apply Z.eqb_refl.
Qed.







(** ** Importance score *)

Lemma num_or_zero (x : Q) : (Js.num_or x 0 == x)%Q.
Proof.
  unfold Js.num_or. destruct (Qeq_bool x 0) eqn:E; [|reflexivity].
  apply Qeq_bool_iff in E. symmetry. exact E.
Qed.

Lemma num_or_nonzero (x d : Q) : ~ (x == 0)%Q -> Js.num_or x d = x.
Proof.
  intros H. unfold Js.num_or. destruct (Qeq_bool x 0) eqn:E; [|reflexivity].
  apply Qeq_bool_iff in E. contradiction.
Qed.

(** The sum of [recalculateImportance] and the sum of
    [calculateImportanceScore] agree unless the average credibility is 0. *)
Lemma weightedScore_importanceOf (story : Story.t) (now : Z) :
  ~ (Story.averageCredibility story == 0)%Q ->
  (calmRankingService.weightedScore story now == StoryModel.importanceOf story now)%Q.
Proof.
  intros H. unfold calmRankingService.weightedScore, StoryModel.importanceOf.
  rewrite (num_or_nonzero _ _ H). rewrite num_or_zero.
  unfold StoryModel.recencyScore, StoryModel.sourceScore, StoryModel.ageHours,
    StoryModel.msPerHour, calmRankingService.MAX_RECENCY_HOURS,
    calmRankingService.SOURCE_COUNT, calmRankingService.SOURCE_DIVERSITY,
    calmRankingService.CREDIBILITY, calmRankingService.RECENCY.
  reflexivity.
Qed.

Lemma round3_error (x : Q) : (x - (1 # 2000) <= Spec.round3 x <= x + (1 # 2000))%Q.
Proof.
  unfold Spec.round3, Js.round, Js.ofZ.
  pose proof (Qfloor_le (x * 1000 + (1 # 2))) as Hl.
  pose proof (Qlt_floor (x * 1000 + (1 # 2))) as Hu.
  rewrite inject_Z_plus in Hu. change (inject_Z 1) with 1%Q in Hu.
  set (f := inject_Z (Qfloor (x * 1000 + (1 # 2)))) in *.
  split.
  - apply Qle_shift_div_l; [reflexivity|]. lra.
  - apply Qle_shift_div_r; [reflexivity|]. lra.
Qed.


Lemma round3_compat (x y : Q) : (x == y)%Q -> Spec.round3 x = Spec.round3 y.
Proof.
  intros H. unfold Spec.round3, Js.round.
  assert (E : Qfloor (x * 1000 + (1 # 2)) = Qfloor (y * 1000 + (1 # 2))).
  { apply Qfloor_comp. rewrite H. reflexivity. }
  rewrite E. reflexivity.
Qed.

(** C1 as stated fails: the score stored by [addArticleToStory] is the
    weighted sum itself, not its rounding to 3 decimal places. After the BBC
    article joins the Reuters story, the stored score is 0.5745..., and
    [calculateImportanceScore] on the stored story gives 0.575. *)
Lemma C1_importance_after_link_counterexample :
  exists story' persisted,
    clusteringService.addArticleToStory 1 Examples.bbc 1 5000 Examples.afterReuters
    = (Ok story', Examples.afterBbc)
    /\ findOne (StoryModel.has_id 1) (stories Examples.afterBbc) = Some persisted
    /\ ~ (Story.importanceScore persisted
          == calmRankingService.calculateImportanceScore persisted 5000)%Q.
Proof.
  eexists. eexists.
  split; [vm_compute; reflexivity|].
  split; [vm_compute; reflexivity|].
  vm_compute. discriminate.
Qed.

(** C1, amended. For every [addArticleToStory] call that returns and links
    a new source, the story stored under the identifier carries the
    statistics recomputed from its links, and its importance score is the
    weighted sum 0.30*min(sourceCount/10, 1) + 0.25*sourceDiversity +
    0.25*averageCredibility + 0.20*max(0, 1 - ageHours/24) of its own
    fields at the time of the call, not rounded. Unless the average
    credibility is 0, [calculateImportanceScore] of that story at the same
    instant is this sum rounded to 3 decimal places, so that the two differ
    by at most 0.0005. A call that finds the source name already linked
    stores no story. *)
Theorem C1_importance_after_link (storyId : ObjectId) (article : Article.t)
    (similarityScore : Q) (now : Z) (st st' : Store) (story' : Story.t) :
  clusteringService.addArticleToStory storyId article similarityScore now st
  = (Ok story', st') ->
  (forall row,
      findOne (StorySourceModel.of_story_source storyId (Article.source article))
              (storySources st) = Some row ->
      stories st' = stories st)
  /\ (findOne (StorySourceModel.of_story_source storyId (Article.source article))
              (storySources st) = None ->
      exists persisted,
        findOne (StoryModel.has_id storyId) (stories st') = Some persisted
        /\ Story.sourceDiversity persisted
           = StorySourceModel.calculateSourceDiversity storyId (storySources st')
        /\ Story.averageCredibility persisted
           = StorySourceModel.calculateAverageCredibility storyId (storySources st')
        /\ (Story.importanceScore persisted
            == Qmin (Js.ofZ (Story.sourceCount persisted) / 10) 1 * 0.30
               + Story.sourceDiversity persisted * 0.25
               + Story.averageCredibility persisted * 0.25
               + Qmax 0 (1 - Js.ofZ (now - Story.firstSeen persisted)
                             / Js.ofZ 3600000 / 24) * 0.20)%Q
        /\ (~ (Story.averageCredibility persisted == 0)%Q ->
            calmRankingService.calculateImportanceScore persisted now
            = Spec.round3 (Story.importanceScore persisted)
            /\ (Story.importanceScore persisted - (1 # 2000)
                <= calmRankingService.calculateImportanceScore persisted now
                <= Story.importanceScore persisted + (1 # 2000))%Q)).
Proof.
  intros Ha. split.
  - intros row Hr. rewrite addArticleToStory_run in Ha.
    destruct (findOne _ (stories st)) as [story|]; [|discriminate].
    destruct (SourceModel.getOrCreate _ now st) as [[source|m] s1] eqn:Eg; [|discriminate].
    destruct (getOrCreate_frame _ _ _ _ _ Eg) as (G1 & G2 & G3).
    rewrite G2, Hr in Ha. injection Ha as _ <-. exact G1.
  - intros Hn.
    destruct (addArticleToStory_linked _ _ _ _ _ _ _ Ha Hn)
      as (story & source & _ & _ & Hs & Hp & _).
    exists (Story.set_importanceScore (StoryModel.importanceOf story' now) story').
    split; [exact Hp|]. rewrite Hs.
    split; [reflexivity|]. split; [reflexivity|]. split; [reflexivity|].
    intros Hc.
    set (p := Story.set_importanceScore _ _).
    assert (E : calmRankingService.calculateImportanceScore p now
                = Spec.round3 (Story.importanceScore p)).
    { unfold calmRankingService.calculateImportanceScore.
      change (Js.ofZ (Js.round (calmRankingService.weightedScore p now * 1000)) / 1000)%Q
        with (Spec.round3 (calmRankingService.weightedScore p now)).
      apply round3_compat. rewrite (weightedScore_importanceOf p now Hc).
      reflexivity. }
    split; [exact E|]. rewrite E. apply round3_error.
Qed.

(** The BBC article joining the Reuters story. *)
Lemma C1_importance_after_link_witness :
  exists persisted,
    findOne (StoryModel.has_id 1) (stories Examples.afterBbc) = Some persisted
    /\ (Story.importanceScore persisted - (1 # 2000)
        <= calmRankingService.calculateImportanceScore persisted 5000
        <= Story.importanceScore persisted + (1 # 2000))%Q.
Proof.
  assert (Ha : exists story',
             clusteringService.addArticleToStory 1 Examples.bbc 1 5000
                                                 Examples.afterReuters
             = (Ok story', Examples.afterBbc))
    by (vm_compute; eexists; reflexivity).
  destruct Ha as [story' Ha].
  assert (Hn : findOne (StorySourceModel.of_story_source
                          1 (Article.source Examples.bbc))
                       (storySources Examples.afterReuters) = None)
    by (vm_compute; reflexivity).
  destruct (proj2 (C1_importance_after_link 1 Examples.bbc 1 5000 Examples.afterReuters
                                            Examples.afterBbc story' Ha) Hn)
    as (persisted & Hp & _ & Hc & _ & Hr).
  exists persisted. split; [exact Hp|].
  apply Hr. rewrite Hc. vm_compute. discriminate.
Defined.




(** ** Stable sorting *)

Lemma firstn_incl {A} (n : nat) (l : list A) (z : A) : In z (firstn n l) -> In z l.
Proof.
  revert n. induction l as [|x r IH]; intros [|n]; cbn; try tauto.
  intros [H|H]; [left; exact H|right; apply (IH n); exact H].
Qed.


Section StableSortFacts.
Context {A : Type}.
Variable before : A -> A -> bool.

Hypothesis before_asym : forall a b, before a b = true -> before b a = false.
Hypothesis inOrder_trans :
  forall a b c, inOrder before a b -> inOrder before b c -> inOrder before a c.

Lemma insert_sorted_perm (x : A) (l : list A) :
  Permutation (insert_sorted before x l) (x :: l).
Proof.
  induction l as [|y r IH]; cbn; [reflexivity|].
  destruct (before y x); [|reflexivity].
  rewrite IH. apply perm_swap.
Qed.

Lemma stable_sort_perm (l : list A) : Permutation (stable_sort before l) l.
Proof.
  induction l as [|x r IH]; cbn; [reflexivity|].
  rewrite insert_sorted_perm. constructor. exact IH.
Qed.

Lemma insert_sorted_sorted (x : A) (l : list A) :
  StronglySorted (inOrder before) l -> StronglySorted (inOrder before) (insert_sorted before x l).
Proof.
  induction 1 as [|y r Hr IH Hy]; cbn.
  - constructor; constructor.
  - destruct (before y x) eqn:E.
    + constructor; [exact IH|].
      apply List.Forall_forall. intros z Hz.
      apply (Permutation_in _ (insert_sorted_perm x r)) in Hz.
      destruct Hz as [<-|Hz].
      * apply before_asym. exact E.
      * rewrite List.Forall_forall in Hy. apply Hy. exact Hz.
    + constructor; [constructor; assumption|].
      constructor; [exact E|].
      apply List.Forall_forall. intros z Hz.
      rewrite List.Forall_forall in Hy.
      apply (inOrder_trans x y z); [exact E|apply Hy; exact Hz].
Qed.

Lemma stable_sort_sorted (l : list A) : StronglySorted (inOrder before) (stable_sort before l).
Proof.
  induction l as [|x r IH]; cbn; [constructor|].
  apply insert_sorted_sorted. exact IH.
Qed.

(** Sorting a list that is in order changes nothing. *)
Lemma stable_sort_id (l : list A) : StronglySorted (inOrder before) l -> stable_sort before l = l.
Proof.
  induction 1 as [|x r Hr IH Hx]; [reflexivity|].
  change (stable_sort before (x :: r))
    with (insert_sorted before x (stable_sort before r)).
  rewrite IH. destruct r as [|y r']; [reflexivity|].
  cbn. inversion Hx as [|? ? Hy _]; subst. unfold inOrder in Hy. rewrite Hy.
  reflexivity.
Qed.



End StableSortFacts.

Lemma StronglySorted_map {A B} (R : A -> A -> Prop) (R' : B -> B -> Prop) (f : A -> B)
    (l : list A) :
  (forall a b, R a b -> R' (f a) (f b)) ->
  StronglySorted R l -> StronglySorted R' (List.map f l).
Proof.
  intros Hf. induction 1 as [|x r Hr IH Hx]; cbn; constructor; [exact IH|].
  apply List.Forall_forall. intros z Hz. apply in_map_iff in Hz.
  destruct Hz as (a & <- & Ha). apply Hf.
  rewrite List.Forall_forall in Hx. apply Hx. exact Ha.
Qed.

(** ** Ranked query *)

Lemma byImportanceThenUpdated_inOrder (a b : Story.t) :
  inOrder byImportanceThenUpdated a b <-> storedOrder a b.
Proof.
  unfold inOrder, byImportanceThenUpdated, storedOrder.
  rewrite orb_false_iff, andb_false_iff, Qlt_bool_false_iff, Z.ltb_ge.
  split.
  - intros [H1 [H2|H2]]; split; auto.
    + intros E. apply Qeq_bool_iff in E. congruence.
  - intros [H1 H2]. split; [exact H1|].
    destruct (Qeq_bool _ _) eqn:E; [right|left; reflexivity].
    apply Qeq_bool_iff in E. auto.
Qed.

Lemma byImportanceThenUpdated_asym (a b : Story.t) :
  byImportanceThenUpdated a b = true -> byImportanceThenUpdated b a = false.
Proof.
  intros H. apply byImportanceThenUpdated_inOrder.
  unfold byImportanceThenUpdated in H. unfold storedOrder.
  apply orb_true_iff in H. destruct H as [H|H].
  - apply Qlt_bool_iff in H. split; [lra|]. intros E. lra.
  - apply andb_true_iff in H. destruct H as [E H].
    apply Qeq_bool_iff in E. apply Z.ltb_lt in H. split; [lra|]. intros _. lia.
Qed.

Lemma storedOrder_trans (a b c : Story.t) :
  storedOrder a b -> storedOrder b c -> storedOrder a c.
Proof.
  unfold storedOrder. intros [H1 H2] [K1 K2]. split; [lra|].
  intros E.
  assert (E1 : (Story.importanceScore a == Story.importanceScore b)%Q) by lra.
  assert (E2 : (Story.importanceScore b == Story.importanceScore c)%Q) by lra.
  specialize (H2 E1). specialize (K2 E2). lia.
Qed.

Lemma byImportanceThenUpdated_trans (a b c : Story.t) :
  inOrder byImportanceThenUpdated a b -> inOrder byImportanceThenUpdated b c ->
  inOrder byImportanceThenUpdated a c.
Proof.
  rewrite !byImportanceThenUpdated_inOrder. apply storedOrder_trans.
Qed.

Lemma totalPagesOf_ceil (total limit : Z) :
  0 < limit ->
  exists pages, totalPagesOf total limit = Some pages
                /\ (pages - 1) * limit < total <= pages * limit.
Proof.
  intros Hl. unfold totalPagesOf.
  destruct (limit =? 0) eqn:E; [apply Z.eqb_eq in E; lia|].
  eexists. split; [reflexivity|].
  unfold Js.ceil, Js.ofZ.
  set (x := (inject_Z total / inject_Z limit)%Q).
  pose proof (Qle_ceiling x) as Hu. pose proof (Qceiling_lt x) as Hd.
  assert (Lq : (0 < inject_Z limit)%Q).
  { change 0%Q with (inject_Z 0). rewrite <- Zlt_Qlt. exact Hl. }
  assert (Ex : (x * inject_Z limit == inject_Z total)%Q).
  { subst x. field. intros K. rewrite K in Lq. apply (Qlt_irrefl _ Lq). }
  split.
  - apply (Qmult_lt_r _ _ _ Lq) in Hd. rewrite Ex in Hd.
    rewrite <- inject_Z_mult in Hd. rewrite <- Zlt_Qlt in Hd. exact Hd.
  - apply (Qmult_le_r _ _ _ Lq) in Hu. rewrite Ex in Hu.
    rewrite <- inject_Z_mult in Hu. rewrite <- Zle_Qle in Hu. exact Hu.
Qed.

Lemma skip_limit_page {A} (page limit : Z) (l : list A) :
  1 <= page -> 1 <= limit ->
  skip_limit ((page - 1) * limit) limit l = Ok (pageOf page limit l).
Proof.
  intros Hp Hl. unfold skip_limit, pageOf.
  destruct ((page - 1) * limit <? 0) eqn:E; [apply Z.ltb_lt in E; nia|].
  destruct (limit =? 0) eqn:E0; [apply Z.eqb_eq in E0; lia|].
  rewrite Z.abs_eq by lia. reflexivity.
Qed.

Lemma matchesQuery_selects (category mood : option string) (maxAgeHours now : Z)
    (s : Story.t) :
  matchesQuery category mood (now - maxAgeHours * 60 * 60 * 1000) s = true
  <-> selects category mood maxAgeHours now s.
Proof.
  unfold matchesQuery, selects. rewrite !andb_true_iff, Z.leb_le.
  replace (now - maxAgeHours * 60 * 60 * 1000) with (now - maxAgeHours * 3600000) by lia.
  split.
  - intros [[Hc Hm] Hf]. split; [exact Hf|]. split.
    + intros c ->. apply String.eqb_eq. exact Hc.
    + intros m ->. apply String.eqb_eq. exact Hm.
  - intros (Hf & Hc & Hm). split; [split|exact Hf].
    + destruct category as [c|]; [|reflexivity]. apply String.eqb_eq. auto.
    + destruct mood as [m|]; [|reflexivity]. apply String.eqb_eq. auto.
Qed.

Lemma StronglySorted_impl {A} (R R' : A -> A -> Prop) (l : list A) :
  (forall a b, R a b -> R' a b) -> StronglySorted R l -> StronglySorted R' l.
Proof.
  intros H. induction 1 as [|x r Hr IH Hx]; constructor; [exact IH|].
  eapply List.Forall_impl; [|exact Hx]. intros z. apply H.
Qed.

Lemma rankStories_sorted (l : list Story.t) (now : Z) :
  Permutation (calmRankingService.rankStories l now) (List.map (rescore now) l)
  /\ StronglySorted
       (fun a b => (Story.importanceScore b <= Story.importanceScore a)%Q)
       (calmRankingService.rankStories l now).
Proof.
  unfold calmRankingService.rankStories. fold (rescore now).
  split; [apply stable_sort_perm|].
  eapply StronglySorted_impl; [|apply stable_sort_sorted].
  - intros a b H. unfold inOrder in H. apply Qlt_bool_false_iff in H. exact H.
  - intros a b H. apply Qlt_bool_iff in H. apply Qlt_bool_false_iff. lra.
  - intros a b c H1 H2. unfold inOrder in *.
    apply Qlt_bool_false_iff in H1, H2. apply Qlt_bool_false_iff. lra.
Qed.

(** C9 as stated fails in three ways. The category value "all" switches the
    category filter off instead of selecting the stories of a category of
    that name. The page is returned with every importance score recomputed
    and re-sorted by the recomputed score, so that at hour 100 the stored
    order of [fresh] (0.355) before [corroborated] (0.293) is reversed. And
    stories whose recomputed scores tie keep their stored order: [fresh]
    stays before [twin], which was updated later. *)
Lemma C9_getRanked_counterexample :
  (exists r,
      calmRankingService.getStoriesWithCalmRanking
        (Options.mk None None (Some "all") None None) (Examples.hours 100)
        [Examples.fresh; Examples.corroborated] = Ok r
      /\ List.map Story._id (Ranked.stories r) = [2; 1]
      /\ Spec.getRanked 1 20 (Some "all") None 72 (Examples.hours 100)
                        [Examples.fresh; Examples.corroborated] = [])
  /\ (exists r,
         calmRankingService.getStoriesWithCalmRanking
           Examples.noOptions (Examples.hours 100)
           [Examples.fresh; Examples.corroborated] = Ok r
         /\ List.map Story._id (Ranked.stories r) = [2; 1]
         /\ List.map Story._id
                     (Spec.getRanked 1 20 None None 72 (Examples.hours 100)
                                     [Examples.fresh; Examples.corroborated])
            = [1; 2])
  /\ (exists r a b,
         calmRankingService.getStoriesWithCalmRanking
           Examples.noOptions (Examples.hours 100)
           [Examples.fresh; Examples.twin] = Ok r
         /\ Ranked.stories r = [a; b]
         /\ (Story.importanceScore a == Story.importanceScore b)%Q
         /\ Story.lastUpdated a < Story.lastUpdated b).
Proof.
  split; [|split].
  - eexists. split; [vm_compute; reflexivity|].
    split; vm_compute; reflexivity.
  - eexists. split; [vm_compute; reflexivity|].
    split; vm_compute; reflexivity.
  - eexists. eexists. eexists. split; [vm_compute; reflexivity|].
    split; [vm_compute; reflexivity|]. split; vm_compute; reflexivity.
Qed.

(** C9, amended. For a page and a limit of at least 1,
    [getStoriesWithCalmRanking] selects exactly the stories with firstSeen >=
    now - maxAgeHours (default 72) that have the given category and the given
    mood, where a category or mood that is absent, empty or "all" selects
    everything. It takes them in the order of their stored importance score,
    descending, ties broken by lastUpdated descending, cuts the page out of
    that order, and returns the stories of the page with their importance
    score recomputed by [calculateImportanceScore] and sorted by the
    recomputed score, descending. The pagination data are page, limit, the
    number of selected stories, totalPages = ceil(total/limit), and hasMore,
    which holds iff page*limit < total. [Story.getWithCalmRanking] returns
    the page as stored and has "general" as the category that selects
    everything. *)
Theorem C9_getRanked (options : Options.t) (now : Z) (docs : list Story.t) :
  let page := default 1 (Options.page options) in
  let limit := default 20 (Options.limit options) in
  let maxAgeHours := default 72 (Options.maxAgeHours options) in
  let category := unless "all" (Options.category options) in
  let mood := unless "all" (Options.mood options) in
  1 <= page -> 1 <= limit ->
  exists matching result pages,
    Permutation matching
      (List.filter (matchesQuery category mood (now - maxAgeHours * 60 * 60 * 1000)) docs)
    /\ (forall s, In s matching
                  <-> In s docs /\ selects category mood maxAgeHours now s)
    /\ StronglySorted storedOrder matching
    /\ calmRankingService.getStoriesWithCalmRanking options now docs = Ok result
    /\ Ranked.stories result
       = calmRankingService.rankStories (pageOf page limit matching) now
    /\ Permutation (Ranked.stories result)
                   (List.map (rescore now) (pageOf page limit matching))
    /\ StronglySorted
         (fun a b => (Story.importanceScore b <= Story.importanceScore a)%Q)
         (Ranked.stories result)
    /\ Ranked.pagination result
       = Pagination.mk page limit (Z.of_nat (List.length matching)) (Some pages)
                       (page * limit <? Z.of_nat (List.length matching))
    /\ (pages - 1) * limit < Z.of_nat (List.length matching) <= pages * limit
    /\ ((page * limit <? Z.of_nat (List.length matching)) = true
        <-> page * limit < Z.of_nat (List.length matching))
    /\ StoryQueries.getWithCalmRanking options now docs
       = let stored :=
           stable_sort byImportanceThenUpdated
             (List.filter
                (matchesQuery (unless "general" (Options.category options))
                              (truthy (Options.mood options))
                              (now - maxAgeHours * 60 * 60 * 1000)) docs) in
         Ok (Ranked.mk (pageOf page limit stored)
               (Pagination.mk page limit (Z.of_nat (List.length stored))
                              (totalPagesOf (Z.of_nat (List.length stored)) limit)
                              (page * limit <? Z.of_nat (List.length stored)))).
Proof.
  intros page limit maxAgeHours category mood Hp Hl.
  set (selected := List.filter
                     (matchesQuery category mood (now - maxAgeHours * 60 * 60 * 1000))
                     docs).
  set (matching := stable_sort byImportanceThenUpdated selected).
  assert (P : Permutation matching selected) by apply stable_sort_perm.
  assert (L : List.length matching = List.length selected)
    by (apply Permutation_length; exact P).
  destruct (totalPagesOf_ceil (Z.of_nat (List.length matching)) limit)
    as (pages & Ht & Hc); [lia|].
  exists matching,
    (Ranked.mk (calmRankingService.rankStories (pageOf page limit matching) now)
               (Pagination.mk page limit (Z.of_nat (List.length matching)) (Some pages)
                              (page * limit <? Z.of_nat (List.length matching)))),
    pages.
  split; [exact P|]. split.
  { intros s. split.
    - intros Hs. apply (Permutation_in _ P) in Hs. apply List.filter_In in Hs.
      destruct Hs as [Hd Hm]. split; [exact Hd|].
      apply matchesQuery_selects. exact Hm.
    - intros [Hd Hm]. apply (Permutation_in _ (Permutation_sym P)).
      apply List.filter_In. split; [exact Hd|].
      apply matchesQuery_selects. exact Hm. }
  split.
  { eapply StronglySorted_impl;
      [|apply (stable_sort_sorted byImportanceThenUpdated
                 byImportanceThenUpdated_asym byImportanceThenUpdated_trans)].
    intros a b. apply byImportanceThenUpdated_inOrder. }
  split.
  { unfold calmRankingService.getStoriesWithCalmRanking.
    fold page limit maxAgeHours category mood. fold selected. fold matching.
    rewrite (skip_limit_page page limit matching Hp Hl).
    rewrite <- L, Ht. reflexivity. }
  split; [reflexivity|]. cbn [Ranked.stories Ranked.pagination].
  split; [apply rankStories_sorted|]. split; [apply rankStories_sorted|].
  split; [reflexivity|]. split; [exact Hc|]. split; [apply Z.ltb_lt|].
  unfold StoryQueries.getWithCalmRanking.
  fold page limit maxAgeHours.
  rewrite (skip_limit_page page limit _ Hp Hl).
  rewrite (Permutation_length (stable_sort_perm byImportanceThenUpdated _)).
  reflexivity.
Qed.

(** The first page of the three stories at hour 100, default options. *)
Lemma C9_getRanked_witness :
  exists result,
    calmRankingService.getStoriesWithCalmRanking
      Examples.noOptions (Examples.hours 100)
      [Examples.fresh; Examples.corroborated; Examples.twin] = Ok result
    /\ StronglySorted
         (fun a b => (Story.importanceScore b <= Story.importanceScore a)%Q)
         (Ranked.stories result).
Proof.
  destruct (C9_getRanked Examples.noOptions (Examples.hours 100)
                         [Examples.fresh; Examples.corroborated; Examples.twin])
    as (matching & result & pages & _ & _ & _ & Hr & _ & _ & Hs & _).
  - cbn. lia.
  - cbn. lia.
  - exists result. split; [exact Hr|exact Hs].
Defined.

(** ** Timeline *)

Lemma isCandidate_precedes (story : Story.t) (cutoff : Z) (s : Story.t) :
  contextService.isCandidate story cutoff s = true <-> precedes story cutoff s.
Proof.
  unfold contextService.isCandidate, precedes.
  rewrite !andb_true_iff, negb_true_iff, Z.eqb_neq, String.eqb_eq, Z.leb_le, Z.ltb_lt.
  tauto.
Qed.




(** Where the title of the story repeats no significant word, the shared
    words are counted as plain Jaccard counts them. *)
Lemma shared_words_intersection (words1 words2 : list string) :
  List.NoDup words1 ->
  List.length (List.filter (Js.includes words2) words1)
  = size ((list_to_set words1 : gset string) ∩ list_to_set words2).
Proof.
  intros Hn.
  rewrite <- (size_list_to_set (C := gset string) (List.filter _ words1)).
  - f_equal. apply set_eq. intros w.
    rewrite elem_of_intersection, !elem_of_list_to_set, !list_elem_of_In.
    rewrite List.filter_In. unfold Js.includes.
    rewrite bool_decide_eq_true, list_elem_of_In. tauto.
  - apply NoDup_ListNoDup. apply List.NoDup_filter. exact Hn.
Qed.





(** * Further properties *)

(** ** Word similarity as a Jaccard index *)

Lemma has_count (w1 w2 : gset string) :
  List.length (List.filter (Js.has w2) (elements w1)) = size (w1 ∩ w2).
Proof.
  rewrite <- (size_list_to_set (C := gset string) (List.filter _ (elements w1))).
  - f_equal. apply set_eq. intros w.
    rewrite elem_of_intersection, elem_of_list_to_set, list_elem_of_In, List.filter_In.
    rewrite <- list_elem_of_In, elem_of_elements. unfold Js.has.
    rewrite bool_decide_eq_true. tauto.
  - apply NoDup_ListNoDup, List.NoDup_filter, NoDup_ListNoDup, NoDup_elements.
Qed.

Lemma union_count (w1 w2 : gset string) :
  size (list_to_set (elements w1 ++ elements w2)%list : gset string) = size (w1 ∪ w2).
Proof.
  f_equal. apply set_eq. intros w.
  rewrite elem_of_list_to_set, elem_of_app, !elem_of_elements, elem_of_union. tauto.
Qed.

(** The significant words of a text, as a set. *)
Lemma calculateSimilarity_jaccard (text1 text2 : string) :
  let words1 : gset string := list_to_set (Similarity.extractWords text1) in
  let words2 : gset string := list_to_set (Similarity.extractWords text2) in
  Similarity.calculateSimilarity text1 text2
  = if String.eqb text1 "" || String.eqb text2 "" then 0%Q
    else if (size words1 =? 0)%nat || (size words2 =? 0)%nat then 0%Q
         else (Js.ofNat (size (words1 ∩ words2)) / Js.ofNat (size (words1 ∪ words2)))%Q.
Proof.
  intros words1 words2. unfold Similarity.calculateSimilarity.
  fold words1 words2. rewrite has_count, union_count. reflexivity.
Qed.

Lemma ofNat_div_le_1 (a b : nat) : (a <= b)%nat -> (Js.ofNat a / Js.ofNat b <= 1)%Q.
Proof.
  intros H. destruct b as [|b].
  - unfold Qdiv. change (/ Js.ofNat 0)%Q with 0%Q. rewrite Qmult_0_r. discriminate.
  - apply Qle_shift_div_r.
    + unfold Js.ofNat. change 0%Q with (inject_Z 0). rewrite <- Zlt_Qlt. lia.
    + rewrite Qmult_1_l. unfold Js.ofNat. rewrite <- Zle_Qle. lia.
Qed.

Lemma ofNat_div_self (a : nat) : (0 < a)%nat -> (Js.ofNat a / Js.ofNat a == 1)%Q.
Proof.
  intros H. unfold Qdiv. apply Qmult_inv_r.
  unfold Js.ofNat. intros E. 
  assert (K : (inject_Z 0 < inject_Z (Z.of_nat a))%Q) by (rewrite <- Zlt_Qlt; lia).
  rewrite E in K. apply (Qlt_irrefl _ K).
Qed.

(** X1. [calculateSimilarity] is symmetric, lies in [0,1], is 0 when the
    two texts share no significant word, and is 1 exactly when both texts
    are non-empty and have the same, non-empty set of significant words. *)
Theorem X1_calculateSimilarity_jaccard (text1 text2 : string) :
  let words1 : gset string := list_to_set (Similarity.extractWords text1) in
  let words2 : gset string := list_to_set (Similarity.extractWords text2) in
  Similarity.calculateSimilarity text1 text2 = Similarity.calculateSimilarity text2 text1
  /\ (0 <= Similarity.calculateSimilarity text1 text2 <= 1)%Q
  /\ (words1 ∩ words2 = ∅ -> (Similarity.calculateSimilarity text1 text2 == 0)%Q)
  /\ ((Similarity.calculateSimilarity text1 text2 == 1)%Q
      <-> text1 <> "" /\ text2 <> "" /\ words1 = words2 /\ words1 <> ∅).
Proof.
  intros words1 words2.
  rewrite (calculateSimilarity_jaccard text1 text2), (calculateSimilarity_jaccard text2 text1).
  fold words1 words2.
  split; [|split; [|split]].
  - rewrite (orb_comm (String.eqb text1 "")), (orb_comm (size words1 =? 0)%nat).
    rewrite (intersection_comm_L words1), (union_comm_L words1). reflexivity.
  - destruct (_ || _); [split; discriminate|].
    destruct (_ || _); [split; discriminate|].
    split; [apply Qdiv_nonneg; apply ofNat_nonneg|].
    apply ofNat_div_le_1, subseteq_size. set_solver.
  - intros Hd. rewrite Hd, size_empty.
    destruct (_ || _); [reflexivity|]. destruct (_ || _); [reflexivity|].
    unfold Qdiv. change (Js.ofNat 0) with 0%Q. ring.
  - destruct (String.eqb text1 "") eqn:E1.
    { apply String.eqb_eq in E1. cbn. split; [discriminate|]. intros [H _]. contradiction. }
    destruct (String.eqb text2 "") eqn:E2.
    { apply String.eqb_eq in E2. cbn. split; [discriminate|].
      intros (_ & H & _). contradiction. }
    apply String.eqb_neq in E1, E2. cbn [orb].
    destruct (size words1 =? 0)%nat eqn:S1.
    { apply Nat.eqb_eq, size_empty_iff, leibniz_equiv in S1. cbn.
      split; [discriminate|]. intros (_ & _ & _ & H). contradiction. }
    destruct (size words2 =? 0)%nat eqn:S2.
    { apply Nat.eqb_eq, size_empty_iff, leibniz_equiv in S2. cbn.
      split; [discriminate|]. intros (_ & _ & H & K). congruence. }
    cbn [orb]. apply Nat.eqb_neq in S1, S2.
    split.
    + intros H.
      assert (Hu : (0 < size (words1 ∪ words2))%nat).
      { assert (Hsub : words1 ⊆ words1 ∪ words2) by set_solver.
        apply subseteq_size in Hsub. lia. }
      assert (Hq : (0 < Js.ofNat (size (words1 ∪ words2)))%Q).
      { unfold Js.ofNat. change 0%Q with (inject_Z 0). rewrite <- Zlt_Qlt. lia. }
      assert (Hs : size (words1 ∩ words2) = size (words1 ∪ words2)).
      { assert (K : (Js.ofNat (size (words1 ∩ words2))
                     == Js.ofNat (size (words1 ∪ words2)))%Q).
        { rewrite <- (Qmult_1_l (Js.ofNat (size (words1 ∪ words2)))), <- H.
          field. intros Z0. rewrite Z0 in Hq. apply (Qlt_irrefl _ Hq). }
        unfold Js.ofNat, Qeq, inject_Z in K. cbn [Qnum Qden] in K. lia. }
      assert (He : words1 ∩ words2 = words1 ∪ words2).
      { apply (set_subseteq_size_eq (words1 ∩ words2) (words1 ∪ words2));
          [set_solver|lia]. }
      repeat split; auto.
      * apply leibniz_equiv. set_solver.
      * intros K. rewrite K, size_empty in S1. lia.
    + intros (_ & _ & Hw & Hn). rewrite <- Hw.
      rewrite intersection_idemp_L, union_idemp_L.
      apply ofNat_div_self. lia.
Qed.

(** ** Tokens *)

Lemma lower_char_shape (c : ascii) :
  Js.lower_char (Js.lower_char c) = Js.lower_char c
  /\ Js.is_space (Js.lower_char c) = Js.is_space c
  /\ (Js.is_word (Js.lower_char c) = true -> is_lower_word (Js.lower_char c) = true).
Proof.
  destruct c as [[] [] [] [] [] [] [] []]; vm_compute; repeat split; congruence.
Qed.

Lemma toLowerCase_idem (s : string) : Js.toLowerCase (Js.toLowerCase s) = Js.toLowerCase s.
Proof.
  induction s as [|c r IH]; cbn; [reflexivity|].
  rewrite IH, (proj1 (lower_char_shape c)). reflexivity.
Qed.

Lemma toLowerCase_empty (s : string) : String.eqb (Js.toLowerCase s) "" = String.eqb s "".
Proof. destruct s; reflexivity. Qed.

Lemma allChars_app (p : ascii -> bool) (a b : string) :
  allChars p (a ++ b) = allChars p a && allChars p b.
Proof.
  induction a as [|c r IH]; simpl; [reflexivity|]. rewrite IH, andb_assoc. reflexivity.
Qed.

Lemma allChars_rev_app (p : ascii -> bool) (a b : string) :
  allChars p (String.rev_app a b) = allChars p a && allChars p b.
Proof.
  revert b. induction a as [|c r IH]; intros b; cbn; [reflexivity|].
  rewrite IH. cbn. destruct (p c), (allChars p r), (allChars p b); reflexivity.
Qed.

Lemma split_go_chars (q : ascii -> bool) (s cur : string) (insp : bool) :
  allChars q cur = true ->
  allChars (fun c => Js.is_space c || q c) s = true ->
  List.Forall (fun w => allChars q w = true) (Js.split_go s cur insp).
Proof.
  revert cur insp. induction s as [|c r IH]; intros cur insp Hc Hs; cbn in *.
  - constructor; [|constructor]. unfold String.rev.
    rewrite allChars_rev_app, Hc. reflexivity.
  - apply andb_true_iff in Hs. destruct Hs as [Hq Hr].
    destruct (Js.is_space c) eqn:E.
    + destruct insp; [apply IH; auto|].
      constructor; [|apply IH; auto].
      unfold String.rev. rewrite allChars_rev_app, Hc. reflexivity.
    + apply IH; [|exact Hr]. cbn in *. rewrite Hq, Hc. reflexivity.
Qed.

(** After lowering the case and replacing the punctuation by [r], only
    white space and lower-case word characters are left. *)
Lemma normalised_chars (r text : string) :
  allChars (fun c => Js.is_space c || is_lower_word c) r = true ->
  allChars (fun c => Js.is_space c || is_lower_word c)
           (Js.replace_punct r (Js.toLowerCase text)) = true.
Proof.
  intros Hr. induction text as [|c t IH]; cbn; [reflexivity|].
  destruct (lower_char_shape c) as (_ & _ & Hw).
  destruct (Js.is_word (Js.lower_char c)) eqn:W; cbn.
  - rewrite (Hw eq_refl), orb_true_r. exact IH.
  - destruct (Js.is_space (Js.lower_char c)) eqn:S; cbn.
    + rewrite S. exact IH.
    + rewrite allChars_app, Hr. exact IH.
Qed.

(** X2. The significant words of both tokenizers — [extractWords] of the
    similarity engine and [extractSignificantWords] of the timeline builder
    — have more than 3 characters, are no stopwords of the respective list,
    and consist of lower-case letters, digits and underscores only. *)
Theorem X2_significant_words_shape (text word : string) :
  (In word (Similarity.extractWords text) ->
   (3 < String.length word)%nat
   /\ word ∉ Similarity.stopwords
   /\ allChars is_lower_word word = true)
  /\ (In word (contextService.extractSignificantWords text) ->
      (3 < String.length word)%nat
      /\ word ∉ contextService.stopwords
      /\ allChars is_lower_word word = true).
Proof.
  split.
  - unfold Similarity.extractWords. intros H. apply List.filter_In in H.
    destruct H as [Hin Hf]. apply andb_true_iff in Hf. destruct Hf as [Hl Hs].
    split; [apply Nat.ltb_lt; exact Hl|]. split.
    + unfold Js.has in Hs. apply negb_true_iff, bool_decide_eq_false in Hs. exact Hs.
    + pose proof (split_go_chars is_lower_word
                    (Js.replace_punct " " (Js.toLowerCase text)) "" false eq_refl
                    (normalised_chars " " text eq_refl)) as F.
      rewrite List.Forall_forall in F. apply F. exact Hin.
  - unfold contextService.extractSignificantWords.
    destruct (String.eqb text ""); [intros []|].
    intros H. apply List.filter_In in H.
    destruct H as [Hin Hf]. apply andb_true_iff in Hf. destruct Hf as [Hl Hs].
    split; [apply Nat.ltb_lt; exact Hl|]. split.
    + unfold Js.has in Hs. apply negb_true_iff, bool_decide_eq_false in Hs. exact Hs.
    + pose proof (split_go_chars is_lower_word
                    (Js.replace_punct "" (Js.toLowerCase text)) "" false eq_refl
                    (normalised_chars "" text eq_refl)) as F.
      rewrite List.Forall_forall in F. apply F. exact Hin.
Qed.

Lemma X2_significant_words_shape_witness :
  In "senate" (Similarity.extractWords "Senate passes: infrastructure bill!")
  /\ allChars is_lower_word "senate" = true.
Proof.
  assert (H : In "senate" (Similarity.extractWords "Senate passes: infrastructure bill!"))
    by (vm_compute; left; reflexivity).
  split; [exact H|].
  exact (proj2 (proj2 (proj1 (X2_significant_words_shape
                                "Senate passes: infrastructure bill!" "senate") H))).
Defined.

Lemma extractWords_lower (text : string) :
  Similarity.extractWords (Js.toLowerCase text) = Similarity.extractWords text.
Proof. unfold Similarity.extractWords. rewrite toLowerCase_idem. reflexivity. Qed.

Lemma calculateSimilarity_lower_l (text1 text2 : string) :
  Similarity.calculateSimilarity (Js.toLowerCase text1) text2
  = Similarity.calculateSimilarity text1 text2.
Proof.
  unfold Similarity.calculateSimilarity.
  rewrite extractWords_lower, toLowerCase_empty. reflexivity.
Qed.

Lemma calculateSimilarity_lower_r (text1 text2 : string) :
  Similarity.calculateSimilarity text1 (Js.toLowerCase text2)
  = Similarity.calculateSimilarity text1 text2.
Proof.
  unfold Similarity.calculateSimilarity.
  rewrite extractWords_lower, toLowerCase_empty. reflexivity.
Qed.

(** X3. Matching ignores the letter case: two texts that differ only in
    the case of their letters have the same [calculateSimilarity] and the
    same [calculateTitleSimilarity] to any other text, on either side. *)
Theorem X3_similarity_ignores_case (text1 text1' text2 text2' : string) :
  Js.toLowerCase text1 = Js.toLowerCase text1' ->
  Js.toLowerCase text2 = Js.toLowerCase text2' ->
  Similarity.calculateSimilarity text1 text2
  = Similarity.calculateSimilarity text1' text2'
  /\ Similarity.calculateTitleSimilarity text1 text2
     = Similarity.calculateTitleSimilarity text1' text2'.
Proof.
  intros H1 H2. split.
  - rewrite <- (calculateSimilarity_lower_l text1), <- (calculateSimilarity_lower_r _ text2).
    rewrite H1, H2.
    rewrite calculateSimilarity_lower_l, calculateSimilarity_lower_r. reflexivity.
  - unfold Similarity.calculateTitleSimilarity.
    rewrite <- (calculateSimilarity_lower_l text1), <- (calculateSimilarity_lower_r _ text2).
    rewrite H1, H2.
    rewrite calculateSimilarity_lower_l, calculateSimilarity_lower_r. reflexivity.
Qed.

Lemma X3_similarity_ignores_case_witness :
  Similarity.calculateTitleSimilarity "SENATE Passes Infrastructure Bill"
                                      "Senate approves infrastructure bill"
  = Similarity.calculateTitleSimilarity "senate passes infrastructure bill"
                                        "SENATE APPROVES INFRASTRUCTURE BILL".
Proof.
  refine (proj2 (X3_similarity_ignores_case
                   "SENATE Passes Infrastructure Bill" "senate passes infrastructure bill"
                   "Senate approves infrastructure bill"
                   "SENATE APPROVES INFRASTRUCTURE BILL" _ _));
    vm_compute; reflexivity.
Defined.

(** ** Title similarity and the search for a matching story *)

Lemma no_phrases (title : string) :
  (List.length (phraseTokens title) < 3)%nat ->
  Similarity.extractPhrases (Js.toLowerCase title) 3 = [].
Proof.
  intros H. unfold Similarity.extractPhrases. fold (phraseTokens title).
  replace (S (List.length (phraseTokens title)) - 3)%nat with 0%nat by lia. reflexivity.
Qed.

Lemma filter_includes_nil (l : list string) : List.filter (Js.includes []) l = [].
Proof. induction l as [|p r IH]; [reflexivity|]. cbn. exact IH. Qed.

Lemma extractWords_empty_text : Similarity.extractWords "" = [].
Proof. vm_compute. reflexivity. Qed.

Lemma calculateSimilarity_le_1 (text1 text2 : string) :
  (Similarity.calculateSimilarity text1 text2 <= 1)%Q.
Proof.
  rewrite calculateSimilarity_jaccard.
  destruct (_ || _); [discriminate|]. destruct (_ || _); [discriminate|].
  apply ofNat_div_le_1, subseteq_size. set_solver.
Qed.

Lemma calculateSimilarity_self (text : string) :
  Similarity.extractWords text <> [] ->
  (Similarity.calculateSimilarity text text == 1)%Q.
Proof.
  intros Hw. rewrite calculateSimilarity_jaccard.
  destruct (String.eqb text "") eqn:E.
  { apply String.eqb_eq in E. subst. exfalso. apply Hw, extractWords_empty_text. }
  cbn [orb]. rewrite orb_diag.
  destruct (size _ =? 0)%nat eqn:S.
  { apply Nat.eqb_eq, size_empty_iff, leibniz_equiv in S. exfalso.
    destruct (Similarity.extractWords text) as [|w r]; [contradiction|].
    assert (w ∈ (∅ : gset string)) by (rewrite <- S; set_solver).
    set_solver. }
  apply Nat.eqb_neq in S. rewrite intersection_idemp_L, union_idemp_L.
  apply ofNat_div_self. lia.
Qed.

(** X4. [calculateTitleSimilarity] is never below the word similarity of
    the titles and exceeds it by at most 0.3; it equals the word similarity
    when one of the titles has fewer than three tokens of more than 2
    characters; and a title with a significant word has similarity 1 to
    itself. *)
Theorem X4_titleSimilarity_bonus (title1 title2 : string) :
  let words := Similarity.calculateSimilarity title1 title2 in
  let titles := Similarity.calculateTitleSimilarity title1 title2 in
  (words <= titles)%Q
  /\ (titles <= words + 0.3)%Q
  /\ ((List.length (phraseTokens title1) < 3)%nat
      \/ (List.length (phraseTokens title2) < 3)%nat ->
      (titles == words)%Q)
  /\ (Similarity.extractWords title1 <> [] ->
      (Similarity.calculateTitleSimilarity title1 title1 == 1)%Q).
Proof.
  intros words titles.
  pose proof (calculateSimilarity_nonneg title1 title2) as W0.
  pose proof (calculateSimilarity_le_1 title1 title2) as W1.
  fold words in W0, W1.
  assert (B : forall n, (0 <= Qmin (Js.ofNat n * 0.1) 0.3 <= 0.3)%Q).
  { intros n. split; [|apply Q.le_min_r]. apply Q.min_glb; [|discriminate].
    apply Qmult_le_0_compat; [apply ofNat_nonneg|discriminate]. }
  subst titles. unfold Similarity.calculateTitleSimilarity. fold words.
  set (n := List.length _). destruct (B n) as [B0 B1].
  split; [apply Q.min_glb; lra|]. split.
  { eapply Qle_trans; [apply Q.le_min_l|]. lra. }
  split.
  - intros Hs.
    assert (Hn : n = 0%nat).
    { subst n. destruct Hs as [Hs|Hs]; rewrite (no_phrases _ Hs).
      - reflexivity.
      - rewrite filter_includes_nil. reflexivity. }
    rewrite Hn.
    assert (E0 : (Qmin (Js.ofNat 0 * 0.1) 0.3 == 0)%Q) by reflexivity.
    rewrite E0, Qplus_0_r. apply Q.min_l. exact W1.
  - intros Hw. clear n B0 B1.
    pose proof (calculateSimilarity_self title1 Hw) as Hs.
    set (m := List.length _). destruct (B m) as [B0 B1].
    rewrite Hs. apply Q.min_r. lra.
Qed.

Lemma X4_titleSimilarity_bonus_witness :
  Similarity.extractWords "Harbour floods" <> []
  /\ (Similarity.calculateTitleSimilarity "Harbour floods" "Harbour floods" == 1)%Q.
Proof.
  assert (H : Similarity.extractWords "Harbour floods" <> [])
    by (vm_compute; discriminate).
  split; [exact H|].
  exact (proj2 (proj2 (proj2
    (X4_titleSimilarity_bonus "Harbour floods" "Harbour floods"))) H).
Defined.

Lemma bestOf_step (title : string) (seen : list Story.t) (story : Story.t)
    (acc : option Story.t * Q) :
  bestSoFar title seen acc ->
  bestSoFar title (seen ++ [story])
    (let '(bestMatch, bestScore) := acc in
     let similarity :=
       Similarity.calculateTitleSimilarity title (Story.canonicalTitle story) in
     if Qlt_bool clusteringService.SIMILARITY_THRESHOLD similarity
        && Qlt_bool bestScore similarity
     then (Some story, similarity)
     else (bestMatch, bestScore)).
Proof.
  destruct acc as [[best|] bestScore]; cbn beta iota zeta;
    fold (titleScore title story); unfold clusteringService.SIMILARITY_THRESHOLD.
  - intros (before & after & -> & -> & Hgt & Hb & Ha).
    destruct (Qlt_bool 0.65 (titleScore title story)) eqn:E1;
      [destruct (Qlt_bool (titleScore title best) (titleScore title story)) eqn:E2|];
      cbn [andb].
    + apply Qlt_bool_iff in E1, E2.
      exists (before ++ best :: after)%list, []. rewrite <- app_assoc. cbn [app].
      repeat split; auto.
      * intros s Hs. apply in_app_or in Hs.
        destruct Hs as [Hs|[<-|Hs]]; [apply Hb in Hs|idtac|apply Ha in Hs]; lra.
      * intros s [].
    + apply Qlt_bool_false_iff in E2.
      exists before, (after ++ [story])%list. rewrite <- app_assoc. cbn [app].
      repeat split; auto.
      intros s Hs. apply in_app_or in Hs. destruct Hs as [Hs|[<-|[]]]; auto.
    + apply Qlt_bool_false_iff in E1.
      exists before, (after ++ [story])%list. rewrite <- app_assoc. cbn [app].
      repeat split; auto.
      intros s Hs. apply in_app_or in Hs. destruct Hs as [Hs|[<-|[]]]; auto. lra.
  - intros [-> Hall].
    destruct (Qlt_bool 0.65 (titleScore title story)) eqn:E1;
      [destruct (Qlt_bool 0 (titleScore title story)) eqn:E2|]; cbn [andb].
    + apply Qlt_bool_iff in E1.
      exists seen, []. split; [reflexivity|]. split; [reflexivity|].
      split; [exact E1|]. split; [|intros s []].
      intros s Hs. apply Hall in Hs. lra.
    + apply Qlt_bool_iff in E1. apply Qlt_bool_false_iff in E2. lra.
    + apply Qlt_bool_false_iff in E1. split; [reflexivity|].
      intros s Hs. apply in_app_or in Hs. destruct Hs as [Hs|[<-|[]]]; auto.
Qed.

Lemma bestOf_invariant (title : string) (rest seen : list Story.t)
    (acc : option Story.t * Q) :
  bestSoFar title seen acc ->
  bestSoFar title (seen ++ rest)
    (List.fold_left
       (fun '(bestMatch, bestScore) story =>
          let similarity :=
            Similarity.calculateTitleSimilarity title (Story.canonicalTitle story) in
          if Qlt_bool clusteringService.SIMILARITY_THRESHOLD similarity
             && Qlt_bool bestScore similarity
          then (Some story, similarity)
          else (bestMatch, bestScore))
       rest acc).
Proof.
  revert seen acc. induction rest as [|story rest IH]; intros seen acc H.
  - rewrite app_nil_r. exact H.
  - cbn [List.fold_left].
    replace (seen ++ story :: rest)%list with ((seen ++ [story]) ++ rest)%list
      by (rewrite <- app_assoc; reflexivity).
    pose proof (bestOf_step title seen story acc H) as K.
    destruct acc as [bestMatch bestScore]. apply IH. exact K.
Qed.

Lemma bestOf_best (title : string) (candidates : list Story.t) :
  bestSoFar title candidates (clusteringService.bestOf title candidates).
Proof.
  apply (bestOf_invariant title candidates [] (None, 0%Q)).
  split; [reflexivity|]. intros s [].
Qed.

Lemma findMatchingStory_value (article : Article.t) (now : Z) (st : Store) :
  clusteringService.findMatchingStory article now st =
  (match clusteringService.bestOf (Js.str_or (Article.title article) "")
                                  (recentStories article now st) with
   | (Some story, score) => Ok (Some (story, score))
   | (None, _) => Ok None
   end, st).
Proof.
  unfold clusteringService.findMatchingStory, recentStories. run_store.
  destruct (clusteringService.bestOf _ _) as [[story|] score]; reflexivity.
Qed.

(** X5. [findMatchingStory] never throws and never writes. Among the
    stories of the article's category first seen in the last 48 hours, it
    returns the first one whose title similarity is maximal, provided that
    maximum exceeds 0.65, together with that similarity; it returns no
    story exactly when no candidate scores above 0.65. *)
Theorem X5_findMatchingStory_best (article : Article.t) (now : Z) (st : Store) :
  let title := Js.str_or (Article.title article) "" in
  let candidates := recentStories article now st in
  snd (clusteringService.findMatchingStory article now st) = st
  /\ match fst (clusteringService.findMatchingStory article now st) with
     | Ok (Some (best, score)) =>
         exists before after,
           candidates = (before ++ best :: after)%list
           /\ score = titleScore title best
           /\ (0.65 < score)%Q
           /\ (forall s, In s before -> (titleScore title s < score)%Q)
           /\ (forall s, In s after -> (titleScore title s <= score)%Q)
     | Ok None => forall s, In s candidates -> (titleScore title s <= 0.65)%Q
     | Throw _ => False
     end.
Proof.
  intros title candidates. rewrite findMatchingStory_value. cbn [fst snd].
  split; [reflexivity|].
  pose proof (bestOf_best title candidates) as H.
  fold title. fold candidates.
  destruct (clusteringService.bestOf title candidates) as [[best|] score].
  - exact H.
  - exact (proj2 H).
Qed.

(** ** What clustering leaves in place *)

Lemma Forall2_same {A} (R : A -> A -> Prop) (l : list A) :
  (forall x, R x x) -> Forall2 R l l.
Proof. intros HR. induction l; constructor; auto. Qed.

Lemma Forall2_chain {A} (R : A -> A -> Prop) (a b c : list A) :
  (forall x y z, R x y -> R y z -> R x z) ->
  Forall2 R a b -> Forall2 R b c -> Forall2 R a c.
Proof.
  intros HR H. revert c. induction H as [|x y a b Hxy Hab IH]; intros c Hc.
  - inversion Hc. constructor.
  - inversion Hc as [|y' z b' c' Hyz Hbc]; subst. constructor; eauto.
Qed.

Lemma extendsBy_refl {A} (R : A -> A -> Prop) (l : list A) :
  (forall x, R x x) -> extendsBy R l l.
Proof.
  intros HR. exists l, []. rewrite app_nil_r. split; [reflexivity|].
  apply Forall2_same, HR.
Qed.

Lemma extendsBy_trans {A} (R : A -> A -> Prop) (a b c : list A) :
  (forall x y z, R x y -> R y z -> R x z) ->
  extendsBy R a b -> extendsBy R b c -> extendsBy R a c.
Proof.
  intros HR (k1 & a1 & -> & H1) (k2 & a2 & -> & H2).
  apply Forall2_app_inv_l in H2 as (k2a & k2b & Ha & Hb & ->).
  exists k2a, (k2b ++ a2)%list. rewrite app_assoc. split; [reflexivity|].
  eapply Forall2_chain; eauto.
Qed.

Lemma extendsBy_snoc {A} (R : A -> A -> Prop) (l : list A) (x : A) :
  (forall x, R x x) -> extendsBy R l (l ++ [x]).
Proof. intros HR. exists l, [x]. split; [reflexivity|]. apply Forall2_same, HR. Qed.

Lemma extendsBy_replace_first {A} (R : A -> A -> Prop) (p : A -> bool) (d x : A)
    (l : list A) :
  (forall x, R x x) -> findOne p l = Some x -> R x d ->
  extendsBy R l (replace_first p d l).
Proof.
  intros HR Hf Hd. exists (replace_first p d l), []. rewrite app_nil_r.
  split; [reflexivity|]. unfold findOne in Hf.
  induction l as [|y r IH]; [discriminate|]. cbn in *.
  destruct (p y).
  - injection Hf as ->. constructor; [exact Hd|]. apply Forall2_same, HR.
  - constructor; auto.
Qed.

Lemma sameIdentity_refl (s : Story.t) : sameIdentity s s.
Proof. unfold sameIdentity. auto. Qed.

Lemma sameIdentity_trans (a b c : Story.t) :
  sameIdentity a b -> sameIdentity b c -> sameIdentity a c.
Proof. unfold sameIdentity. intuition congruence. Qed.

Lemma keptSource_refl (s : Source.t) : keptSource s s.
Proof. unfold keptSource. repeat split; lia. Qed.

Lemma keptSource_trans (a b c : Source.t) :
  keptSource a b -> keptSource b c -> keptSource a c.
Proof.
  unfold keptSource. intros (?&?&?&?) (?&?&?&?).
  repeat split; try congruence. lia.
Qed.

Lemma grownWith_refl (P : StorySource.t -> Prop) (st : Store) : grownWith P st st.
Proof.
  split; [exists []; rewrite app_nil_r; auto|].
  split; [apply extendsBy_refl, sameIdentity_refl|].
  split; [apply extendsBy_refl, keptSource_refl|lia].
Qed.

Lemma grownWith_trans (P : StorySource.t -> Prop) (a b c : Store) :
  grownWith P a b -> grownWith P b c -> grownWith P a c.
Proof.
  intros ((l1 & E1 & F1) & S1 & R1 & N1) ((l2 & E2 & F2) & S2 & R2 & N2).
  split.
  { exists (l1 ++ l2)%list. rewrite E2, E1, app_assoc. split; [reflexivity|].
    apply Forall_app; auto. }
  split; [eapply extendsBy_trans; eauto using sameIdentity_trans|].
  split; [eapply extendsBy_trans; eauto using keptSource_trans|lia].
Qed.

Lemma grownWith_impl (P Q : StorySource.t -> Prop) (a b : Store) :
  (forall r, P r -> Q r) -> grownWith P a b -> grownWith Q a b.
Proof.
  intros HPQ ((l & E & F) & S & R & N). split; [|auto].
  exists l. split; [exact E|]. eapply Forall_impl; eauto.
Qed.

Lemma grownWith_getOrCreate (P : StorySource.t -> Prop) (sourceName : string)
    (now : Z) (st : Store) :
  grownWith P st (snd (SourceModel.getOrCreate sourceName now st)).
Proof.
  unfold SourceModel.getOrCreate, with_sources. run_store.
  destruct (findOne _ (sources st)) as [source|] eqn:E; cbn.
  - split; [exists []; rewrite app_nil_r; auto|].
    split; [apply extendsBy_refl, sameIdentity_refl|]. split; [|apply Z.le_refl].
    assert (Hn : Source.name source = sourceName).
    { apply find_some in E as [_ E]. apply String.eqb_eq in E. exact E. }
    subst sourceName.
    eapply extendsBy_replace_first; [apply keptSource_refl|exact E|].
    unfold keptSource; cbn. repeat split. lia.
  - destruct (negb _) eqn:V; cbn; [|apply grownWith_refl].
    split; [exists []; rewrite app_nil_r; auto|].
    split; [apply extendsBy_refl, sameIdentity_refl|]. split; [|apply Z.le_refl].
    eapply extendsBy_trans; [apply keptSource_trans
                            |apply extendsBy_snoc, keptSource_refl|].
    eapply extendsBy_replace_first; [apply keptSource_refl| |].
    + unfold findOne. rewrite (find_app_none _ _ _ E).
      unfold SourceModel.has_name at 1. cbn [Source.name].
      rewrite String.eqb_refl. reflexivity.
    + unfold keptSource; cbn. repeat split. lia.
Qed.

Lemma grownWith_StoryModel_create (P : StorySource.t -> Prop) (title : option string)
    (category mood : string) (count : Z) (diversity credibility importance : Q)
    (firstSeen lastUpdated : Z) (st : Store) :
  grownWith P st
    (snd (StoryModel.create title category mood count diversity credibility importance
                            firstSeen lastUpdated st)).
Proof.
  destruct (StoryModel.create _ _ _ _ _ _ _ _ _ st) as [r st'] eqn:E.
  apply StoryModel_create_cases in E as [(msg & -> & ->)|(-> & -> & _)]; cbn [snd].
  - apply grownWith_refl.
  - split; [exists []; rewrite app_nil_r; auto|]. cbn.
    split; [apply extendsBy_snoc, sameIdentity_refl|].
    split; [apply extendsBy_refl, keptSource_refl|lia].
Qed.

Lemma grownWith_link_create (P : StorySource.t -> Prop) (doc : StorySource.t)
    (st : Store) :
  P doc -> grownWith P st (snd (StorySourceModel.create doc st)).
Proof.
  intros HP. destruct (StorySourceModel.create doc st) as [r st'] eqn:E.
  apply StorySource_create_cases in E as [(msg & -> & ->)|(-> & -> & _)]; cbn [snd].
  - apply grownWith_refl.
  - split; [exists [doc]; split; [reflexivity|auto]|]. cbn.
    split; [apply extendsBy_refl, sameIdentity_refl|].
    split; [apply extendsBy_refl, keptSource_refl|apply Z.le_refl].
Qed.

Lemma grownWith_replace_story (P : StorySource.t -> Prop) (id : ObjectId)
    (x d : Story.t) (st : Store) :
  findOne (StoryModel.has_id id) (stories st) = Some x -> sameIdentity x d ->
  grownWith P st (with_stories (replace_first (StoryModel.has_id id) d) st).
Proof.
  intros Hf Hd. split; [exists []; rewrite app_nil_r; auto|]. cbn.
  split; [eapply extendsBy_replace_first; eauto using sameIdentity_refl|].
  split; [apply extendsBy_refl, keptSource_refl|apply Z.le_refl].
Qed.

Lemma grownWith_recalculateImportance (P : StorySource.t -> Prop) (storyId : ObjectId)
    (now : Z) (st : Store) :
  grownWith P st (snd (StoryModel.recalculateImportance storyId now st)).
Proof.
  rewrite recalculateImportance_run.
  destruct (findOne _ (stories st)) as [story|] eqn:E; cbn [snd];
    [|apply grownWith_refl].
  cbn zeta. cbn [Story.set_importanceScore Story._id].
  destruct (findOne_has_id _ _ _ E) as [_ Hid]. rewrite Hid.
  eapply grownWith_replace_story; [exact E|]. unfold sameIdentity; cbn. auto.
Qed.

Lemma grownWith_addArticleToStory (storyId : ObjectId) (article : Article.t)
    (similarityScore : Q) (now : Z) (st : Store) :
  grownWith (fromArticle article) st
    (snd (clusteringService.addArticleToStory storyId article similarityScore now st)).
Proof.
  rewrite addArticleToStory_run.
  destruct (findOne _ (stories st)) as [story|] eqn:E; [|apply grownWith_refl].
  pose proof (grownWith_getOrCreate (fromArticle article) (Article.source article) now st)
    as G1.
  destruct (SourceModel.getOrCreate _ now st) as [[source|msg] st1] eqn:E1;
    cbn [snd] in *; [|exact G1].
  apply getOrCreate_frame in E1 as (S1 & _).
  destruct (findOne _ (storySources st1)); [exact G1|].
  pose proof (grownWith_link_create (fromArticle article)
                (linkOf storyId article source false similarityScore) st1) as G2.
  destruct (StorySourceModel.create _ st1) as [[d|msg] st2] eqn:E2; cbn [snd] in *.
  2:{ eapply grownWith_trans; [exact G1|]. apply G2. split; reflexivity. }
  assert (S2 : stories st2 = stories st1).
  { apply StorySource_create_cases in E2 as [(msg & [=] & _)|(_ & -> & _)]. reflexivity. }
  assert (G12 : grownWith (fromArticle article) st st2).
  { eapply grownWith_trans; [exact G1|]. apply G2. split; reflexivity. }
  cbn zeta.
  destruct (StoryModel.saveStatistics _ st2) as [[u|msg] st3] eqn:E3; cbn [snd].
  - apply saveStatistics_cases in E3 as [(msg & [=] & _)|(_ & -> & _)].
    eapply grownWith_trans; [exact G12|].
    eapply grownWith_trans; [|apply grownWith_recalculateImportance].
    unfold statisticsOf at 1. cbn [Story.set_statistics Story._id].
    destruct (findOne_has_id _ _ _ E) as [_ Hid]. rewrite Hid.
    eapply grownWith_replace_story.
    + rewrite S2, S1. exact E.
    + unfold sameIdentity, statisticsOf; cbn. auto.
  - apply saveStatistics_cases in E3 as [(msg' & _ & ->)|([=] & _)]. exact G12.
Qed.

Lemma grownWith_createStoryFromArticle (article : Article.t) (now : Z) (st : Store) :
  grownWith (fromArticle article) st
    (snd (clusteringService.createStoryFromArticle article now st)).
Proof.
  rewrite createStoryFromArticle_run.
  pose proof (grownWith_getOrCreate (fromArticle article) (Article.source article) now st)
    as G1.
  destruct (SourceModel.getOrCreate _ now st) as [[source|msg] st1];
    cbn [snd] in *; [|exact G1].
  match goal with
  | |- context [StoryModel.create ?a ?b ?c ?d ?e ?f ?g ?h ?i st1] =>
      pose proof (grownWith_StoryModel_create (fromArticle article) a b c d e f g h i st1)
        as G2;
      destruct (StoryModel.create a b c d e f g h i st1) as [[story|msg] st2]
  end; cbn [snd] in *; [|eapply grownWith_trans; eauto].
  pose proof (grownWith_link_create (fromArticle article)
                (linkOf (Story._id story) article source true 1) st2) as G3.
  assert (G : grownWith (fromArticle article) st
                (snd (StorySourceModel.create
                        (linkOf (Story._id story) article source true 1) st2))).
  { eapply grownWith_trans; [exact G1|]. eapply grownWith_trans; [exact G2|].
    apply G3. split; reflexivity. }
  destruct (StorySourceModel.create _ st2) as [[d|msg3] st3]; exact G.
Qed.

Lemma grownWith_processArticle (article : Article.t) (now : Z) (st : Store) :
  grownWith (fromArticle article) st
    (snd (clusteringService.processArticle article now st)).
Proof.
  unfold clusteringService.processArticle. rewrite assign_run.
  destruct (findOne _ (storySources st)); [apply grownWith_refl|].
  destruct (fst (clusteringService.findMatchingStory article now st))
    as [[[story score]|]|msg0].
  - pose proof (grownWith_addArticleToStory (Story._id story) article score now st) as G.
    destruct (clusteringService.addArticleToStory _ _ _ _ st) as [[s|msg] st']; exact G.
  - pose proof (grownWith_createStoryFromArticle article now st) as G.
    destruct (clusteringService.createStoryFromArticle _ _ st) as [[s|msg] st']; exact G.
  - pose proof (grownWith_createStoryFromArticle article now st) as G.
    destruct (clusteringService.createStoryFromArticle _ _ st) as [[s|msg] st']; exact G.
Qed.

Lemma grownWith_clusterLoop (articles : list Article.t) (now : Z) (r : Results.t)
    (st : Store) :
  grownWith (fun row => exists article, In article articles /\ fromArticle article row)
            st (snd (clusteringService.clusterLoop articles now r st)).
Proof.
  revert r st. induction articles as [|article rest IH]; intros r st; cbn.
  - apply grownWith_refl.
  - pose proof (grownWith_processArticle article now st) as G.
    destruct (clusteringService.processArticle article now st) as [o st'].
    cbn [snd] in G. eapply grownWith_trans.
    + eapply grownWith_impl; [|exact G]. intros row H. exists article. auto.
    + eapply grownWith_impl; [|apply IH]. intros row (a & Ha & H). exists a. auto.
Qed.

(** X6. [clusterArticles] only ever appends: the link documents present
    before the batch are still there, unchanged and in the same positions,
    and every added link carries the id and source name of an article of
    the batch; every story present before is still there with the same id,
    title, category, mood and first-seen date; every known source keeps its
    name, credibility and type, and its article count never decreases. *)
Theorem X6_clusterArticles_append_only (articles : list Article.t) (now : Z)
    (st : Store) :
  let st' := snd (clusteringService.clusterArticles articles now st) in
  (exists links,
     storySources st' = (storySources st ++ links)%list
     /\ Forall (fun row => exists article,
                   In article articles
                   /\ StorySource.articleId row = Article._id article
                   /\ StorySource.sourceName row = Article.source article) links)
  /\ (exists kept added,
        stories st' = (kept ++ added)%list
        /\ Forall2 sameIdentity (stories st) kept)
  /\ (exists kept added,
        sources st' = (kept ++ added)%list
        /\ Forall2 keptSource (sources st) kept).
Proof.
  intros st'.
  destruct (grownWith_clusterLoop articles now (Results.mk 0 0 0 0) st)
    as (L & S & R & _).
  fold (clusteringService.clusterArticles articles now st) in L, S, R.
  fold st' in L, S, R. split; [|split; assumption].
  destruct L as (links & E & F). exists links. split; [exact E|].
  eapply Forall_impl; [exact F|]. intros row (a & Ha & H1 & H2). exists a. auto.
Qed.

(** ** The outcome of one article *)

Lemma not_linked_findOne (article : Article.t) (st : Store) :
  ~ linked article st ->
  findOne (StorySourceModel.of_article (Article._id article)) (storySources st) = None.
Proof.
  intros Hn. destruct (findOne _ (storySources st)) as [row|] eqn:E; [|reflexivity].
  exfalso. apply Hn. apply find_some in E as [Hin Hid].
  exists row. split; [exact Hin|]. apply Z.eqb_eq. exact Hid.
Qed.

Lemma Forall2_same_ids (l l' : list Story.t) (storyId : ObjectId) :
  Forall2 (fun a b => Story._id a = Story._id b /\ (Story._id a <> storyId -> a = b))
          l l' ->
  List.map Story._id l' = List.map Story._id l.
Proof.
  induction 1 as [|a b l l' [Hid _] _ IH]; [reflexivity|]. cbn. congruence.
Qed.

Lemma bestOf_some (title : string) (candidates : list Story.t) (best : Story.t)
    (score : Q) :
  clusteringService.bestOf title candidates = (Some best, score) ->
  In best candidates /\ score = titleScore title best /\ (0.65 < score)%Q
  /\ forall s, In s candidates -> (titleScore title s <= score)%Q.
Proof.
  intros E. pose proof (bestOf_best title candidates) as H. rewrite E in H.
  destruct H as (before & after & -> & Hs & Hgt & Hb & Ha).
  split; [apply in_elt|]. split; [exact Hs|]. split; [exact Hgt|].
  intros s Hin. apply in_app_or in Hin.
  destruct Hin as [Hin|[<-|Hin]]; [apply Hb in Hin; lra|rewrite Hs; lra|auto].
Qed.

Lemma bestOf_none (title : string) (candidates : list Story.t) (score : Q) :
  clusteringService.bestOf title candidates = (None, score) ->
  forall s, In s candidates -> (titleScore title s <= 0.65)%Q.
Proof.
  intros E. pose proof (bestOf_best title candidates) as H. rewrite E in H.
  exact (proj2 H).
Qed.

(** X7. What becomes of an article without a link. It is never skipped.
    It is merged only into a candidate story whose title similarity exceeds
    0.65 and is maximal among the candidates; then no story is added or
    removed, and the story holds a link of the article's source. It opens a
    story only when no candidate scores above 0.65; then exactly one story
    and one primary link of similarity 1 are appended, the story taking a
    fresh id, the trimmed title, one source, diversity 0 and the publication
    date of the article (the current time when it has none). *)
Theorem X7_processArticle_outcome (article : Article.t) (now : Z) (st : Store) :
  let title := Js.str_or (Article.title article) "" in
  let candidates := recentStories article now st in
  let st' := snd (clusteringService.processArticle article now st) in
  ~ linked article st ->
  match fst (clusteringService.processArticle article now st) with
  | Skipped => False
  | Merged =>
      exists best,
        In best candidates
        /\ (0.65 < titleScore title best)%Q
        /\ (forall s, In s candidates -> (titleScore title s <= titleScore title best)%Q)
        /\ List.map Story._id (stories st') = List.map Story._id (stories st)
        /\ exists row,
             In row (storySources st')
             /\ StorySource.storyId row = Story._id best
             /\ StorySource.sourceName row = Article.source article
  | NewStory =>
      (forall s, In s candidates -> (titleScore title s <= 0.65)%Q)
      /\ exists story link,
           stories st' = (stories st ++ [story])%list
           /\ storySources st' = (storySources st ++ [link])%list
           /\ Story._id story = nextId st
           /\ Story.canonicalTitle story = trim title
           /\ Story.sourceCount story = 1
           /\ Story.sourceDiversity story = 0%Q
           /\ Story.firstSeen story = default now (Article.publishedAt article)
           /\ StorySource.storyId link = nextId st
           /\ StorySource.articleId link = Article._id article
           /\ StorySource.sourceName link = Article.source article
           /\ StorySource.isPrimary link = true
           /\ StorySource.similarityScore link = 1%Q
  | Failed => True
  end.
Proof.
  intros title candidates st' Hn. subst st'.
  apply not_linked_findOne in Hn.
  unfold clusteringService.processArticle. rewrite assign_run, Hn.
  rewrite findMatchingStory_value. cbn [fst]. fold title. fold candidates.
  destruct (clusteringService.bestOf title candidates) as [[best|] score] eqn:B.
  - apply bestOf_some in B as (Hin & Hs & Hgt & Hmax).
    destruct (clusteringService.addArticleToStory _ _ _ _ st) as [[s|msg] st'] eqn:A;
      cbn [fst snd]; [|exact I].
    exists best. split; [exact Hin|]. rewrite <- Hs. split; [exact Hgt|].
    split; [exact Hmax|].
    destruct (findOne (StorySourceModel.of_story_source (Story._id best)
                         (Article.source article)) (storySources st))
      as [row|] eqn:L.
    + rewrite addArticleToStory_run in A.
      destruct (findOne _ (stories st)) as [story|]; [|discriminate].
      destruct (SourceModel.getOrCreate _ now st) as [[source|m] st1] eqn:G;
        [|discriminate].
      apply getOrCreate_frame in G as (G1 & G2 & _).
      rewrite G2, L in A. injection A as <- <-. rewrite G1, G2.
      split; [reflexivity|]. exists row.
      apply find_some in L as [Lin Lp]. split; [exact Lin|].
      unfold StorySourceModel.of_story_source in Lp.
      apply andb_true_iff in Lp as [L1 L2].
      apply Z.eqb_eq in L1. apply String.eqb_eq in L2. auto.
    + destruct (addArticleToStory_linked _ _ _ _ _ _ _ A L)
        as (story & source & _ & Hl & _ & _ & _ & Hf).
      split; [exact (Forall2_same_ids _ _ _ Hf)|].
      exists (linkOf (Story._id best) article source false score).
      rewrite Hl. split; [apply in_elt|]. split; reflexivity.
  - pose proof (bestOf_none _ _ _ B) as Hall.
    destruct (clusteringService.createStoryFromArticle article now st)
      as [[s|msg] st'] eqn:C; cbn [fst snd]; [|exact I].
    split; [exact Hall|].
    apply createStoryFromArticle_ok in C as (source & st1 & _ & -> & -> & _).
    eexists _, _. cbn. repeat split.
Qed.

Lemma X7_processArticle_outcome_witness :
  ~ linked Examples.bbc Examples.afterReuters
  /\ exists best,
       In best (recentStories Examples.bbc 5000 Examples.afterReuters)
       /\ (0.65 < titleScore "Senate passes infrastructure bill today" best)%Q.
Proof.
  assert (Hn : ~ linked Examples.bbc Examples.afterReuters).
  { intros (row & Hin & Hid). vm_compute in Hin.
    destruct Hin as [<-|[]]. vm_compute in Hid. discriminate. }
  split; [exact Hn|].
  assert (Hm : fst (clusteringService.processArticle Examples.bbc 5000
                      Examples.afterReuters) = Merged)
    by (vm_compute; reflexivity).
  pose proof (X7_processArticle_outcome Examples.bbc 5000 Examples.afterReuters Hn) as K.
  cbv zeta in K. rewrite Hm in K.
  destruct K as (best & Hin & Hgt & _). exists best. split; [exact Hin|exact Hgt].
Defined.

(** ** Statistics that agree with the links *)

Lemma filter_snoc_other (storyId : ObjectId) (rows : list StorySource.t)
    (link : StorySource.t) :
  StorySource.storyId link <> storyId ->
  List.filter (StorySourceModel.of_story storyId) (rows ++ [link])
  = List.filter (StorySourceModel.of_story storyId) rows.
Proof.
  intros Hne. rewrite List.filter_app. cbn.
  unfold StorySourceModel.of_story at 2.
  destruct (Z.eqb_spec (StorySource.storyId link) storyId); [contradiction|].
  apply app_nil_r.
Qed.

Lemma filter_snoc_same (storyId : ObjectId) (rows : list StorySource.t)
    (link : StorySource.t) :
  StorySource.storyId link = storyId ->
  List.filter (StorySourceModel.of_story storyId) (rows ++ [link])
  = (List.filter (StorySourceModel.of_story storyId) rows ++ [link])%list.
Proof.
  intros <-. rewrite List.filter_app. cbn. unfold StorySourceModel.of_story at 2.
  rewrite Z.eqb_refl. reflexivity.
Qed.

Lemma agreesWithLinks_other (rows : list StorySource.t) (link : StorySource.t)
    (s : Story.t) :
  StorySource.storyId link <> Story._id s ->
  agreesWithLinks rows s -> agreesWithLinks (rows ++ [link]) s.
Proof.
  intros Hne [Hc Ha].
  unfold agreesWithLinks, linkCount, StorySourceModel.calculateAverageCredibility in *.
  cbn zeta in *. rewrite (filter_snoc_other _ _ _ Hne). auto.
Qed.

Lemma findOne_unique_id (l : list Story.t) (s : Story.t) :
  List.NoDup (List.map Story._id l) -> In s l ->
  findOne (StoryModel.has_id (Story._id s)) l = Some s.
Proof.
  unfold findOne. induction l as [|x r IH]; intros Hn Hin; [contradiction|].
  cbn in *. inversion Hn as [|? ? Hx Hr]; subst.
  unfold StoryModel.has_id at 1.
  destruct (Z.eqb_spec (Story._id x) (Story._id s)) as [E|E].
  - destruct Hin as [->|Hin]; [reflexivity|].
    exfalso. apply Hx. rewrite E. apply in_map. exact Hin.
  - destruct Hin as [->|Hin]; [contradiction|]. auto.
Qed.

Lemma no_links_of_fresh (st : Store) :
  wellFormed st ->
  List.filter (StorySourceModel.of_story (nextId st)) (storySources st) = [].
Proof.
  intros (_ & Hl & _). induction (storySources st) as [|r l IH]; [reflexivity|].
  inversion Hl as [|? ? Hr Hl']; subst. cbn.
  unfold StorySourceModel.of_story at 1.
  destruct (Z.eqb_spec (StorySource.storyId r) (nextId st)); [lia|auto].
Qed.

Lemma consistent_frame (st st' : Store) :
  stories st' = stories st -> storySources st' = storySources st ->
  nextId st' = nextId st -> consistent st -> consistent st'.
Proof.
  unfold consistent, wellFormed, uniqueLinks. intros -> -> ->. auto.
Qed.

Lemma consistent_addArticleToStory (storyId : ObjectId) (article : Article.t)
    (similarityScore : Q) (now : Z) (st st' : Store) (story' : Story.t) :
  consistent st ->
  clusteringService.addArticleToStory storyId article similarityScore now st
  = (Ok story', st') ->
  consistent st'.
Proof.
  intros (W & N & C) A.
  pose proof (wellFormed_addArticleToStory storyId article similarityScore now st W) as W'.
  rewrite A in W'. cbn [snd] in W'.
  destruct (findOne (StorySourceModel.of_story_source storyId (Article.source article))
                    (storySources st)) as [row|] eqn:L.
  - rewrite addArticleToStory_run in A.
    destruct (findOne _ (stories st)) as [story|]; [|discriminate].
    destruct (SourceModel.getOrCreate _ now st) as [[source|m] st1] eqn:G;
      [|discriminate].
    apply getOrCreate_frame in G as (G1 & G2 & G3).
    rewrite G2, L in A. injection A as <- <-.
    apply (consistent_frame st st1 G1 G2 G3). exact (conj W (conj N C)).
  - destruct (addArticleToStory_linked _ _ _ _ _ _ _ A L)
      as (story & source & Hs & Hl & Hst & Hp & _ & Hf).
    pose proof (Forall2_same_ids _ _ _ Hf) as Hids.
    assert (N' : List.NoDup (List.map Story._id (stories st'))) by (rewrite Hids; exact N).
    split; [exact W'|]. split; [exact N'|].
    apply List.Forall_forall. intros s' Hin'.
    destruct (Z.eq_dec (Story._id s') storyId) as [E|E].
    + pose proof (findOne_unique_id _ _ N' Hin') as Hu. rewrite E, Hp in Hu.
      injection Hu as <-.
      destruct (findOne_has_id _ _ _ Hs) as [Hin Hid].
      rewrite List.Forall_forall in C. destruct (C _ Hin) as [Hc _].
      unfold agreesWithLinks. cbn [Story.set_importanceScore Story._id
                                    Story.sourceCount Story.averageCredibility].
      rewrite Hst. unfold statisticsOf.
      cbn [Story.set_statistics Story._id Story.sourceCount Story.averageCredibility].
      rewrite Hid. split; [|reflexivity].
      rewrite Hc, Hid, Hl. unfold linkCount.
      rewrite (filter_snoc_same storyId (storySources st)
                 (linkOf storyId article source false similarityScore) eq_refl).
      rewrite length_app. cbn. lia.
    + assert (Hold : In s' (stories st) /\ agreesWithLinks (storySources st) s').
      { clear - Hf Hin' E C. induction Hf as [|a b l l' [Hid Hab] _ IH];
          [contradiction|].
        inversion C as [|? ? Ca Cl]; subst.
        destruct Hin' as [->|Hin'].
        - rewrite <- Hid in E. rewrite <- (Hab E). split; [left; reflexivity|exact Ca].
        - destruct (IH Cl Hin') as [? ?]. split; [right; assumption|assumption]. }
      rewrite Hl. apply agreesWithLinks_other; [|apply Hold].
      cbn. intros H. apply E. symmetry. exact H.
Qed.

Lemma consistent_createStoryFromArticle (article : Article.t) (now : Z)
    (st st' : Store) (story : Story.t) :
  consistent st ->
  clusteringService.createStoryFromArticle article now st = (Ok story, st') ->
  consistent st'.
Proof.
  intros (W & N & C) A.
  pose proof (wellFormed_createStoryFromArticle article now st W) as W'.
  rewrite A in W'. cbn [snd] in W'.
  apply createStoryFromArticle_ok in A as (source & st1 & _ & -> & -> & _).
  split; [exact W'|]. cbn [stories storySources].
  destruct W as (U & Hl & Hs). split.
  - rewrite List.map_app. cbn. apply NoDup_snoc; [exact N|].
    intros Hin. apply in_map_iff in Hin as (s & Hid & Hin).
    rewrite List.Forall_forall in Hs. apply Hs in Hin. lia.
  - apply List.Forall_app. split.
    + rewrite List.Forall_forall in *. intros s Hin.
      apply agreesWithLinks_other; [|auto].
      cbn. apply Hs in Hin. lia.
    + constructor; [|constructor].
      unfold agreesWithLinks, linkCount, StorySourceModel.calculateAverageCredibility.
      cbn [Story._id Story.sourceCount Story.averageCredibility]. cbn zeta.
      rewrite !(filter_snoc_same (nextId st) (storySources st)
                  (linkOf (nextId st) article source true 1) eq_refl).
      rewrite (no_links_of_fresh st (conj U (conj Hl Hs))). cbn.
      split; [reflexivity|]. unfold Js.ofNat, StorySourceModel.Qsum. cbn. field.
Qed.

Lemma consistent_processArticle (article : Article.t) (now : Z) (st : Store) :
  consistent st ->
  fst (clusteringService.processArticle article now st) <> Failed ->
  consistent (snd (clusteringService.processArticle article now st)).
Proof.
  intros H. unfold clusteringService.processArticle. rewrite assign_run.
  destruct (findOne _ (storySources st)); [intros _; exact H|].
  destruct (fst (clusteringService.findMatchingStory article now st))
    as [[[story score]|]|msg0].
  - destruct (clusteringService.addArticleToStory _ _ _ _ st) as [[s|msg] st'] eqn:A;
      cbn [fst snd]; [intros _|congruence].
    eapply consistent_addArticleToStory; eauto.
  - destruct (clusteringService.createStoryFromArticle _ _ st) as [[s|msg] st'] eqn:A;
      cbn [fst snd]; [intros _|congruence].
    eapply consistent_createStoryFromArticle; eauto.
  - destruct (clusteringService.createStoryFromArticle _ _ st) as [[s|msg] st'] eqn:A;
      cbn [fst snd]; [intros _|congruence].
    eapply consistent_createStoryFromArticle; eauto.
Qed.

Lemma clusterLoop_errors_mono (articles : list Article.t) (now : Z) (r : Results.t)
    (st : Store) :
  Results.errors r
  <= Results.errors (fst (clusteringService.clusterLoop articles now r st)).
Proof.
  revert r st. induction articles as [|article rest IH]; intros r st; cbn; [lia|].
  destruct (clusteringService.processArticle article now st) as [o st'].
  specialize (IH (clusteringService.count o r) st').
  assert (Results.errors r <= Results.errors (clusteringService.count o r))
    by (destruct o; cbn; lia).
  lia.
Qed.

Lemma consistent_clusterLoop (articles : list Article.t) (now : Z) (r : Results.t)
    (st : Store) :
  consistent st ->
  Results.errors (fst (clusteringService.clusterLoop articles now r st))
  = Results.errors r ->
  consistent (snd (clusteringService.clusterLoop articles now r st)).
Proof.
  revert r st. induction articles as [|article rest IH]; intros r st H; cbn;
    [intros _; exact H|].
  pose proof (consistent_processArticle article now st H) as Hp.
  destruct (clusteringService.processArticle article now st) as [o st'].
  cbn [fst snd] in Hp. intros He.
  pose proof (clusterLoop_errors_mono rest now (clusteringService.count o r) st') as Hm.
  assert (Ho : o <> Failed).
  { intros ->. change (Results.errors (clusteringService.count Failed r))
      with (Results.errors r + 1) in Hm. lia. }
  apply IH; [apply Hp, Ho|].
  rewrite He. destruct o; [reflexivity..|contradiction].
Qed.

Lemma linkCount_distinct (storyId : ObjectId) (rows : list StorySource.t) :
  List.NoDup (List.map linkKey rows) ->
  linkCount storyId rows
  = Z.of_nat (List.length (StorySourceModel.distinctSourceNames storyId rows)).
Proof.
  intros Hn. unfold linkCount, StorySourceModel.distinctSourceNames. f_equal.
  assert (Hd : List.NoDup (List.map StorySource.sourceName
                             (List.filter (StorySourceModel.of_story storyId) rows))).
  { induction rows as [|r l IH]; [constructor|].
    cbn in Hn. inversion Hn as [|? ? Hr Hl]; subst. cbn.
    destruct (StorySourceModel.of_story storyId r) eqn:E; [|auto].
    cbn. constructor; [|auto].
    intros Hin. apply Hr. apply in_map_iff in Hin as (r' & Hname & Hin').
    apply filter_In in Hin' as [Hin' E'].
    apply in_map_iff. exists r'. split; [|exact Hin'].
    unfold StorySourceModel.of_story in E, E'.
    apply Z.eqb_eq in E, E'. unfold linkKey. congruence. }
  rewrite <- (length_map StorySource.sourceName).
  symmetry.
  exact (size_list_to_set (C := gset string) _ (proj2 (NoDup_ListNoDup _) Hd)).
Qed.

(** X8. The statistics stored with the stories agree with the link
    documents across every batch that reports no error: if identifiers are
    unique and below the counter, no story has two links of one source
    name, and every story's source count is the number of its links and its
    average credibility their mean, then the same holds after
    [clusterArticles], and the source count of every story is the number of
    distinct source names linked to it. *)
Theorem X8_statistics_agree_with_links (articles : list Article.t) (now : Z)
    (st : Store) :
  let st' := snd (clusteringService.clusterArticles articles now st) in
  consistent st ->
  Results.errors (fst (clusteringService.clusterArticles articles now st)) = 0 ->
  consistent st'
  /\ forall s, In s (stories st') ->
       Story.sourceCount s
       = Z.of_nat (List.length
                     (StorySourceModel.distinctSourceNames (Story._id s)
                                                           (storySources st')))
       /\ (Story.averageCredibility s
           == StorySourceModel.calculateAverageCredibility (Story._id s)
                                                           (storySources st'))%Q.
Proof.
  intros st' H He.
  assert (H' : consistent st').
  { apply consistent_clusterLoop; [exact H|exact He]. }
  split; [exact H'|]. intros s Hin.
  destruct H' as ((U & _) & _ & C). rewrite List.Forall_forall in C.
  destruct (C s Hin) as [Hc Ha]. split; [|exact Ha].
  rewrite Hc. apply linkCount_distinct. exact U.
Qed.

Lemma X8_statistics_agree_with_links_witness :
  consistent Examples.emptyStore
  /\ consistent (snd (clusteringService.clusterArticles
                        [Examples.reuters; Examples.bbc] 5000 Examples.emptyStore)).
Proof.
  assert (H0 : consistent Examples.emptyStore).
  { unfold consistent, wellFormed, uniqueLinks. cbn. repeat split; constructor. }
  assert (He : Results.errors
                 (fst (clusteringService.clusterArticles
                         [Examples.reuters; Examples.bbc] 5000 Examples.emptyStore)) = 0)
    by (vm_compute; reflexivity).
  split; [exact H0|].
  exact (proj1 (X8_statistics_agree_with_links
                  [Examples.reuters; Examples.bbc] 5000 Examples.emptyStore H0 He)).
Defined.

(** ** The source registry *)

Lemma table_get_In {V} (tbl : list (string * V)) (key : string) (v : V) :
  SourceModel.table_get tbl key = Some v -> In (key, v) tbl.
Proof.
  induction tbl as [|[k w] r IH]; [discriminate|]. cbn.
  destruct (String.eqb_spec k key) as [->|_].
  - intros [= ->]. left. reflexivity.
  - intros H. right. auto.
Qed.

Lemma known_scores_range (key type : string) (score : Q) :
  SourceModel.table_get SourceModel.KNOWN_SOURCE_SCORES key = Some (score, type) ->
  (0.65 <= score <= 0.95)%Q.
Proof.
  intros H. apply table_get_In in H.
  assert (F : List.Forall (fun e => (0.65 <= fst (snd e) <= 0.95)%Q)
                          SourceModel.KNOWN_SOURCE_SCORES).
  { unfold SourceModel.KNOWN_SOURCE_SCORES.
    repeat (constructor; [split; discriminate|]). constructor. }
  rewrite List.Forall_forall in F. exact (F _ H).
Qed.

Lemma known_score_table (key type : string) (score : Q) :
  SourceModel.table_get SourceModel.KNOWN_SOURCE_SCORES key = Some (score, type) ->
  SourceModel.known_score key = score.
Proof.
  intros H. unfold SourceModel.known_score. rewrite H.
  apply num_or_nonzero. apply known_scores_range in H. lra.
Qed.

Lemma known_score_range (key : string) :
  (0.5 <= SourceModel.known_score key <= 0.95)%Q.
Proof.
  destruct (SourceModel.table_get SourceModel.KNOWN_SOURCE_SCORES key)
    as [[score type]|] eqn:E.
  - rewrite (known_score_table _ _ _ E). apply known_scores_range in E. lra.
  - unfold SourceModel.known_score. rewrite E. split; discriminate.
Qed.

Lemma replace_first_snoc {A} (p : A -> bool) (d x : A) (l : list A) :
  List.find p l = None -> p x = true ->
  replace_first p d (l ++ [x]) = (l ++ [d])%list.
Proof.
  intros Hn Hx. induction l as [|y r IH]; cbn in *; [rewrite Hx; reflexivity|].
  destruct (p y); [discriminate|]. rewrite IH by assumption. reflexivity.
Qed.

Lemma replace_first_names (nm : string) (d x : Source.t) (l : list Source.t) :
  findOne (SourceModel.has_name nm) l = Some x -> Source.name d = nm ->
  List.map Source.name (replace_first (SourceModel.has_name nm) d l)
  = List.map Source.name l.
Proof.
  unfold findOne. intros Hf Hd. induction l as [|y r IH]; [discriminate|]. cbn in *.
  destruct (SourceModel.has_name nm y) eqn:E.
  - cbn. apply String.eqb_eq in E. congruence.
  - cbn. rewrite IH by assumption. reflexivity.
Qed.

Lemma findOne_other_name (nm other : string) (d : Source.t) (l : list Source.t) :
  other <> nm -> Source.name d = nm ->
  findOne (SourceModel.has_name other) (replace_first (SourceModel.has_name nm) d l)
  = findOne (SourceModel.has_name other) l.
Proof.
  unfold findOne. intros Hne Hd. induction l as [|y r IH]; [reflexivity|]. cbn.
  destruct (SourceModel.has_name nm y) eqn:E; cbn.
  - apply String.eqb_eq in E. unfold SourceModel.has_name. rewrite Hd, E.
    destruct (String.eqb_spec nm other); [congruence|reflexivity].
  - rewrite IH. reflexivity.
Qed.

(** X9. [Source.getOrCreate] on a trimmed name throws only for the empty
    name, and then writes nothing. Otherwise it returns the stored document
    of that name: a known source keeps its credibility and type and has one
    more article; a new one has a non-empty name, gets the credibility of the table of known
    sources (0.5 when unlisted, always within 0.5 and 0.95) and one article,
    and is appended. Documents of other names, stories and links are not
    touched, and names stay unique. *)
Theorem X9_getOrCreate (sourceName : string) (now : Z) (st : Store) :
  trim sourceName = sourceName ->
  match SourceModel.getOrCreate sourceName now st with
  | (Ok source, st') =>
      Source.name source = sourceName
      /\ Source.lastSeenAt source = now
      /\ match findOne (SourceModel.has_name sourceName) (sources st) with
         | Some old =>
             Source.credibilityScore source = Source.credibilityScore old
             /\ Source.sourceType source = Source.sourceType old
             /\ Source.totalArticles source = Source.totalArticles old + 1
             /\ List.map Source.name (sources st') = List.map Source.name (sources st)
         | None =>
             sourceName <> ""
             /\ Source.credibilityScore source = SourceModel.known_score sourceName
             /\ (0.5 <= Source.credibilityScore source <= 0.95)%Q
             /\ Source.totalArticles source = 1
             /\ sources st' = (sources st ++ [source])%list
         end
      /\ findOne (SourceModel.has_name sourceName) (sources st') = Some source
      /\ (forall other, other <> sourceName ->
            findOne (SourceModel.has_name other) (sources st')
            = findOne (SourceModel.has_name other) (sources st))
      /\ (List.NoDup (List.map Source.name (sources st)) ->
          List.NoDup (List.map Source.name (sources st')))
      /\ stories st' = stories st /\ storySources st' = storySources st
      /\ nextId st' = nextId st
  | (Throw _, st') =>
      sourceName = "" /\ st' = st
      /\ findOne (SourceModel.has_name sourceName) (sources st) = None
  end.
Proof.
  intros _. unfold SourceModel.getOrCreate, with_sources. run_store.
  destruct (findOne _ (sources st)) as [old|] eqn:E; cbn.
  - assert (Hn : Source.name old = sourceName).
    { apply find_some in E as [_ E]. apply String.eqb_eq in E. exact E. }
    subst sourceName.
    split; [reflexivity|]. split; [reflexivity|].
    split.
    { repeat split. eapply replace_first_names; [exact E|reflexivity]. }
    split.
    { eapply findOne_replace_first; [exact E|].
      unfold SourceModel.has_name. cbn. apply String.eqb_refl. }
    split; [intros other Ho; apply findOne_other_name; [exact Ho|reflexivity]|].
    split; [|auto].
    erewrite replace_first_names; [auto|exact E|reflexivity].
  - destruct (String.eqb_spec sourceName "") as [->|Hne]; cbn; [auto|].
    assert (Hr : replace_first (SourceModel.has_name sourceName)
                   (Source.mk sourceName (SourceModel.known_score sourceName)
                              (SourceModel.known_type sourceName) (0 + 1) now)
                   (sources st ++
                    [Source.mk sourceName (SourceModel.known_score sourceName)
                               (SourceModel.known_type sourceName) 0 now])
                 = (sources st ++
                    [Source.mk sourceName (SourceModel.known_score sourceName)
                               (SourceModel.known_type sourceName) (0 + 1) now])%list).
    { apply replace_first_snoc; [exact E|].
      unfold SourceModel.has_name. cbn. apply String.eqb_refl. }
    rewrite Hr.
    split; [reflexivity|]. split; [reflexivity|].
    split.
    { split; [exact Hne|]. split; [reflexivity|].
      split; [apply known_score_range|]. auto. }
    split.
    { unfold findOne. rewrite (find_app_none _ _ _ E).
      unfold SourceModel.has_name at 1. cbn. rewrite String.eqb_refl. reflexivity. }
    split.
    { intros other Ho. unfold findOne.
      destruct (List.find (SourceModel.has_name other) (sources st)) as [y|] eqn:F.
      - apply find_app_some. exact F.
      - rewrite (find_app_none _ _ _ F). unfold SourceModel.has_name at 1. cbn.
        destruct (String.eqb_spec sourceName other); [congruence|reflexivity]. }
    split; [|auto].
    intros Hd. rewrite List.map_app. cbn. apply NoDup_snoc; [exact Hd|].
    intros Hin. apply in_map_iff in Hin as (y & Hy & Hin).
    pose proof (find_none _ _ E y Hin) as Hf.
    unfold SourceModel.has_name in Hf. rewrite Hy, String.eqb_refl in Hf. discriminate.
Qed.

Lemma X9_getOrCreate_witness :
  trim "Reuters" = "Reuters"
  /\ forall other, other <> "Reuters" ->
       findOne (SourceModel.has_name other)
               (sources (snd (SourceModel.getOrCreate "Reuters" 5000 Examples.emptyStore)))
       = None.
Proof.
  assert (H : trim "Reuters" = "Reuters") by reflexivity.
  split; [exact H|].
  pose proof (X9_getOrCreate "Reuters" 5000 Examples.emptyStore H) as K.
  destruct (SourceModel.getOrCreate "Reuters" 5000 Examples.emptyStore)
    as [[source|msg] st'].
  - destruct K as (_ & _ & _ & _ & Ho & _). cbn [snd].
    intros other Hne. rewrite (Ho other Hne). reflexivity.
  - destruct K as [K _]. discriminate K.
Defined.




(** ** Average credibility *)

Lemma in_unit_iff (x : Q) : in_unit x = true <-> (0 <= x <= 1)%Q.
Proof.
  unfold in_unit. rewrite andb_true_iff, !Qle_bool_iff. reflexivity.
Qed.

Lemma ofNat_S (n : nat) : (Js.ofNat (S n) == Js.ofNat n + 1)%Q.
Proof.
  unfold Js.ofNat. rewrite Nat2Z.inj_succ, <- Z.add_1_r, inject_Z_plus. reflexivity.
Qed.

Lemma ofNat_pos (n : nat) : (0 < n)%nat -> (0 < Js.ofNat n)%Q.
Proof.
  intros H. unfold Js.ofNat. change 0%Q with (inject_Z 0). rewrite <- Zlt_Qlt. lia.
Qed.

Lemma Qsum_bounds (lo hi : Q) (l : list Q) :
  List.Forall (fun x => (lo <= x <= hi)%Q) l ->
  (Js.ofNat (List.length l) * lo <= StorySourceModel.Qsum l
   <= Js.ofNat (List.length l) * hi)%Q.
Proof.
  induction 1 as [|x l [Hlo Hhi] _ IH].
  - cbn. change (Js.ofNat 0) with 0%Q. rewrite !Qmult_0_l. split; apply Qle_refl.
  - cbn [List.length StorySourceModel.Qsum List.fold_right].
    fold (StorySourceModel.Qsum l). rewrite ofNat_S. lra.
Qed.

Lemma mean_bounds (lo hi : Q) (l : list Q) :
  l <> [] -> List.Forall (fun x => (lo <= x <= hi)%Q) l ->
  (lo <= StorySourceModel.Qsum l / Js.ofNat (List.length l) <= hi)%Q.
Proof.
  intros Hne F. pose proof (Qsum_bounds lo hi l F) as [H1 H2].
  assert (Hp : (0 < Js.ofNat (List.length l))%Q).
  { apply ofNat_pos. destruct l; [contradiction|cbn; lia]. }
  split.
  - apply Qle_shift_div_l; [exact Hp|]. rewrite Qmult_comm. exact H1.
  - apply Qle_shift_div_r; [exact Hp|]. rewrite Qmult_comm. exact H2.
Qed.

(** X11. [calculateAverageCredibility] is 0.5 for a story without links;
    otherwise it is the sum of the credibilities of the story's links
    divided by their number, and lies between any two bounds that enclose
    all of them, so in [0,1] when the link credibilities are. Links of other
    stories do not matter. *)
Theorem X11_calculateAverageCredibility (storyId : ObjectId)
    (rows : list StorySource.t) :
  let own := List.filter (StorySourceModel.of_story storyId) rows in
  let average := StorySourceModel.calculateAverageCredibility storyId rows in
  (own = [] -> average = 0.5%Q)
  /\ (own <> [] ->
      average = (StorySourceModel.Qsum (List.map StorySource.credibilityScore own)
                 / Js.ofNat (List.length own))%Q)
  /\ (forall lo hi,
        own <> [] ->
        List.Forall (fun r => (lo <= StorySource.credibilityScore r <= hi)%Q) own ->
        (lo <= average <= hi)%Q)
  /\ (List.Forall (fun r => (0 <= StorySource.credibilityScore r <= 1)%Q) own ->
      (0 <= average <= 1)%Q)
  /\ (forall rows',
        List.filter (StorySourceModel.of_story storyId) rows' = own ->
        StorySourceModel.calculateAverageCredibility storyId rows' = average).
Proof.
  intros own average. subst average.
  unfold StorySourceModel.calculateAverageCredibility. cbn zeta. fold own.
  assert (B : forall lo hi, own <> [] ->
                List.Forall (fun r => (lo <= StorySource.credibilityScore r <= hi)%Q) own ->
                (lo <= StorySourceModel.Qsum (List.map StorySource.credibilityScore own)
                       / Js.ofNat (List.length own) <= hi)%Q).
  { intros lo hi Hne F. rewrite <- (length_map StorySource.credibilityScore).
    apply mean_bounds.
    - destruct own; [contradiction|discriminate].
    - apply List.Forall_map. exact F. }
  split; [intros ->; reflexivity|].
  split; [destruct own; [contradiction|reflexivity]|].
  split; [intros lo hi Hne F; destruct own; [contradiction|apply B; auto]|].
  split.
  - intros F. destruct own eqn:E; [split; discriminate|].
    apply B; [discriminate|exact F].
  - intros rows' ->. reflexivity.
Qed.

(** ** Articles that cannot fail *)

Lemma calculateAverageCredibility_in_unit (storyId : ObjectId)
    (rows : list StorySource.t) :
  List.Forall (fun r => in_unit (StorySource.credibilityScore r) = true) rows ->
  in_unit (StorySourceModel.calculateAverageCredibility storyId rows) = true.
Proof.
  intros F. apply in_unit_iff.
  unfold StorySourceModel.calculateAverageCredibility. cbn zeta.
  set (own := List.filter _ rows).
  assert (Fo : List.Forall (fun r => (0 <= StorySource.credibilityScore r <= 1)%Q) own).
  { apply List.Forall_forall. intros r Hin. apply filter_In in Hin as [Hin _].
    rewrite List.Forall_forall in F. apply in_unit_iff, F, Hin. }
  destruct own as [|r own'] eqn:E; [split; discriminate|]. rewrite <- E in *.
  rewrite <- (length_map StorySource.credibilityScore).
  apply mean_bounds.
  - rewrite E. discriminate.
  - apply List.Forall_map. exact Fo.
Qed.

Lemma StoryModel_create_ok (title : option string) (category mood : string)
    (count : Z) (diversity credibility importance : Q) (firstSeen lastUpdated : Z)
    (st : Store) :
  trim (Js.str_or title "") <> "" ->
  (String.length (trim (Js.str_or title "")) <= 500)%nat ->
  Js.includes StoryModel.categories category = true ->
  Js.includes StoryModel.moods mood = true ->
  in_unit diversity = true -> in_unit credibility = true ->
  exists story st',
    StoryModel.create title category mood count diversity credibility importance
                      firstSeen lastUpdated st = (Ok story, st')
    /\ sources st' = sources st /\ storySources st' = storySources st.
Proof.
  intros Ht Hl Hc Hm Hd Ha. unfold StoryModel.create. run_store.
  destruct (String.eqb_spec (trim (Js.str_or title "")) ""); [contradiction|].
  cbn. apply Nat.leb_le in Hl. rewrite Hl, Hc, Hm, Hd, Ha. cbn.
  eexists _, _. split; [reflexivity|]. split; reflexivity.
Qed.

Lemma StorySource_create_ok (doc : StorySource.t) (st : Store) :
  StorySource.sourceName doc <> "" ->
  present (StorySource.url doc) = true ->
  in_unit (StorySource.credibilityScore doc) = true ->
  in_unit (StorySource.similarityScore doc) = true ->
  findOne (StorySourceModel.of_article (StorySource.articleId doc)) (storySources st)
  = None ->
  StorySourceModel.create doc st
  = (Ok doc, with_storySources (fun l => (l ++ [doc])%list) st).
Proof.
  intros Hn Hu Hc Hs Hf. unfold StorySourceModel.create. run_store.
  destruct (String.eqb_spec (StorySource.sourceName doc) ""); [contradiction|].
  cbn. rewrite Hu, Hc, Hs. cbn.
  assert (E : existsb (fun r => StorySourceModel.of_story (StorySource.storyId doc) r
                                && StorySourceModel.of_article (StorySource.articleId doc) r)
                      (storySources st) = false).
  { unfold findOne in Hf. induction (storySources st) as [|r l IH]; [reflexivity|].
    cbn in *. destruct (StorySourceModel.of_article _ r); [discriminate|].
    rewrite andb_false_r. cbn. auto. }
  rewrite E. reflexivity.
Qed.

Lemma getOrCreate_credible (sourceName : string) (now : Z) (st : Store) :
  sourceName <> "" ->
  List.Forall (fun s => in_unit (Source.credibilityScore s) = true) (sources st) ->
  exists source st1,
    SourceModel.getOrCreate sourceName now st = (Ok source, st1)
    /\ in_unit (Source.credibilityScore source) = true
    /\ List.Forall (fun s => in_unit (Source.credibilityScore s) = true) (sources st1)
    /\ stories st1 = stories st /\ storySources st1 = storySources st.
Proof.
  intros Hne F. unfold SourceModel.getOrCreate, with_sources. run_store.
  destruct (findOne _ (sources st)) as [old|] eqn:E; cbn.
  - assert (Ho : in_unit (Source.credibilityScore old) = true).
    { apply find_some in E as [Hin _]. rewrite List.Forall_forall in F. auto. }
    eexists _, _. split; [reflexivity|]. cbn. split; [exact Ho|].
    split; [|auto]. apply Forall_replace_first; assumption.
  - destruct (String.eqb_spec sourceName ""); [contradiction|]. cbn.
    assert (Hk : in_unit (SourceModel.known_score sourceName) = true).
    { apply in_unit_iff. pose proof (known_score_range sourceName). lra. }
    eexists _, _. split; [reflexivity|]. cbn. split; [exact Hk|].
    split; [|auto]. apply Forall_replace_first; [|exact Hk].
    apply List.Forall_app. split; [exact F|]. constructor; [exact Hk|constructor].
Qed.

Lemma createStoryFromArticle_succeeds (article : Article.t) (now : Z) (st : Store) :
  credibleStore st -> validArticle article ->
  findOne (StorySourceModel.of_article (Article._id article)) (storySources st) = None ->
  exists story st',
    clusteringService.createStoryFromArticle article now st = (Ok story, st')
    /\ credibleStore st'.
Proof.
  intros [Fs Fl] (Hs & _ & Hu & Ht & Hlen & Hc & Hm) Hf.
  rewrite createStoryFromArticle_run.
  destruct (getOrCreate_credible _ now st Hs Fs) as (source & st1 & -> & Hin & Fs1 & _ & L1).
  destruct (StoryModel_create_ok (Article.title article)
              (Js.str_or (Article.category article) "general")
              (Js.str_or (Article.mood article) "neutral")
              1 0 (Source.credibilityScore source) (Source.credibilityScore source * 0.25)
              (default now (Article.publishedAt article)) now st1
              Ht Hlen Hc Hm eq_refl Hin) as (story & st2 & -> & S2 & L2).
  rewrite (StorySource_create_ok (linkOf (Story._id story) article source true 1) st2);
    [|exact Hs|exact Hu|exact Hin|reflexivity|cbn; rewrite L2, L1; exact Hf].
  eexists _, _. split; [reflexivity|].
  split; cbn; [rewrite S2; exact Fs1|].
  rewrite L2, L1. apply List.Forall_app. split; [exact Fl|].
  constructor; [exact Hin|constructor].
Qed.

Lemma In_findOne_has_id (s : Story.t) (l : list Story.t) :
  In s l -> exists x, findOne (StoryModel.has_id (Story._id s)) l = Some x.
Proof.
  intros Hin. unfold findOne.
  destruct (List.find _ l) as [x|] eqn:E; [eauto|].
  pose proof (find_none _ _ E s Hin) as H. unfold StoryModel.has_id in H.
  rewrite Z.eqb_refl in H. discriminate.
Qed.

Lemma addArticleToStory_succeeds (best : Story.t) (article : Article.t) (score : Q)
    (now : Z) (st : Store) :
  credibleStore st -> validArticle article ->
  findOne (StorySourceModel.of_article (Article._id article)) (storySources st) = None ->
  In best (stories st) -> in_unit score = true ->
  exists story st',
    clusteringService.addArticleToStory (Story._id best) article score now st
    = (Ok story, st')
    /\ credibleStore st'.
Proof.
  intros [Fs Fl] (Hs & _ & Hu & _) Hf Hin Hsc.
  rewrite addArticleToStory_run.
  destruct (In_findOne_has_id _ _ Hin) as [story ->].
  destruct (getOrCreate_credible _ now st Hs Fs) as (source & st1 & -> & Hc & Fs1 & S1 & L1).
  destruct (findOne _ (storySources st1)).
  { eexists _, _. split; [reflexivity|]. split; [exact Fs1|rewrite L1; exact Fl]. }
  rewrite (StorySource_create_ok (linkOf (Story._id best) article source false score) st1);
    [|exact Hs|exact Hu|exact Hc|exact Hsc|cbn; rewrite L1; exact Hf].
  set (st2 := with_storySources _ st1).
  assert (Fl2 : List.Forall (fun r => in_unit (StorySource.credibilityScore r) = true)
                            (storySources st2)).
  { cbn. rewrite L1. apply List.Forall_app. split; [exact Fl|].
    constructor; [exact Hc|constructor]. }
  cbn zeta. unfold StoryModel.saveStatistics. run_store.
  unfold statisticsOf at 1 2.
  cbn [Story.set_statistics Story.sourceDiversity Story.averageCredibility].
  rewrite (proj2 (in_unit_iff _)
             (calculateSourceDiversity_bounds (Story._id best) (storySources st2))).
  rewrite (calculateAverageCredibility_in_unit (Story._id best) _ Fl2).
  cbn [andb]. cbn beta iota.
  eexists _, _. split; [reflexivity|].
  match goal with
  | |- credibleStore (snd (StoryModel.recalculateImportance ?i ?n ?s)) =>
      destruct (recalculateImportance_frame i n s) as (R1 & R2 & _)
  end.
  split; [rewrite R2; exact Fs1|rewrite R1; exact Fl2].
Qed.

Lemma calculateTitleSimilarity_le_1 (title1 title2 : string) :
  (Similarity.calculateTitleSimilarity title1 title2 <= 1)%Q.
Proof. unfold Similarity.calculateTitleSimilarity. apply Q.le_min_r. Qed.

Lemma processArticle_valid (article : Article.t) (now : Z) (st : Store) :
  credibleStore st -> validArticle article ->
  fst (clusteringService.processArticle article now st) <> Failed
  /\ credibleStore (snd (clusteringService.processArticle article now st)).
Proof.
  intros C V. unfold clusteringService.processArticle. rewrite assign_run.
  destruct (findOne _ (storySources st)) eqn:Hf; [split; [discriminate|exact C]|].
  rewrite findMatchingStory_value. cbn [fst].
  destruct (clusteringService.bestOf _ _) as [[best|] score] eqn:B.
  - apply bestOf_some in B as (Hin & Hs & Hgt & _).
    apply filter_In in Hin as [Hin _].
    assert (Hu : in_unit score = true).
    { apply in_unit_iff. split; [lra|]. rewrite Hs. apply calculateTitleSimilarity_le_1. }
    destruct (addArticleToStory_succeeds best article score now st C V Hf Hin Hu)
      as (story & st' & -> & C'). split; [discriminate|exact C'].
  - destruct (createStoryFromArticle_succeeds article now st C V Hf)
      as (story & st' & -> & C'). split; [discriminate|exact C'].
Qed.

Lemma clusterLoop_valid (articles : list Article.t) (now : Z) (r : Results.t)
    (st : Store) :
  credibleStore st -> List.Forall validArticle articles ->
  Results.errors (fst (clusteringService.clusterLoop articles now r st))
  = Results.errors r
  /\ credibleStore (snd (clusteringService.clusterLoop articles now r st)).
Proof.
  intros C F. revert r st C. induction F as [|article rest V _ IH]; intros r st C; cbn.
  - auto.
  - destruct (processArticle_valid article now st C V) as [Ho C'].
    destruct (clusteringService.processArticle article now st) as [o st'].
    cbn [fst snd] in *. destruct (IH (clusteringService.count o r) st' C') as [He Hc].
    split; [|exact Hc]. rewrite He. destruct o; [reflexivity..|contradiction].
Qed.

(** X12. A batch of articles that satisfy the [News] schema (a trimmed
    source and a url present, a non-blank title of at most 500 characters,
    category and mood of the enumerations) is clustered without a single error, provided the
    stored source and link credibilities are in [0,1]: no validator, no
    unique index and no missing story stops any article, every article is
    counted as new, merged or skipped, and the stored credibilities are in
    [0,1] afterwards. The fields of an article that the model leaves out
    (summary, whyThisMatters) have the same bounds in the [News] and [Story]
    schemas. *)
Theorem X12_valid_articles_never_fail (articles : list Article.t) (now : Z)
    (st : Store) :
  let results := fst (clusteringService.clusterArticles articles now st) in
  credibleStore st -> List.Forall validArticle articles ->
  Results.errors results = 0
  /\ Results.newStories results + Results.mergedArticles results
     + Results.skipped results = Z.of_nat (List.length articles)
  /\ credibleStore (snd (clusteringService.clusterArticles articles now st)).
Proof.
  intros results C F. subst results. unfold clusteringService.clusterArticles.
  destruct (clusterLoop_valid articles now (Results.mk 0 0 0 0) st C F) as [He Hc].
  split; [exact He|]. split; [|exact Hc].
  pose proof (clusterLoop_processed articles now (Results.mk 0 0 0 0) st) as Hp.
  unfold processed in Hp. cbn in Hp. cbn in He. lia.
Qed.

Lemma X12_valid_articles_never_fail_witness :
  credibleStore Examples.emptyStore
  /\ List.Forall validArticle [Examples.reuters; Examples.bbc]
  /\ Results.errors
       (fst (clusteringService.clusterArticles [Examples.reuters; Examples.bbc] 5000
                                               Examples.emptyStore)) = 0.
Proof.
  assert (C : credibleStore Examples.emptyStore) by (split; constructor).
  assert (F : List.Forall validArticle [Examples.reuters; Examples.bbc]).
  { repeat constructor; try (vm_compute; congruence); vm_compute; lia. }
  split; [exact C|]. split; [exact F|].
  exact (proj1 (X12_valid_articles_never_fail
                  [Examples.reuters; Examples.bbc] 5000 Examples.emptyStore C F)).
Defined.

(** ** Clustering the articles without a link *)

Lemma linked_existsb (article : Article.t) (st : Store) :
  existsb (Z.eqb (Article._id article))
          (List.map StorySource.articleId (storySources st)) = true
  <-> linked article st.
Proof.
  rewrite existsb_exists. unfold linked. split.
  - intros (i & Hin & He). apply in_map_iff in Hin as (row & <- & Hin).
    apply Z.eqb_eq in He. eauto.
  - intros (row & Hin & Hid). exists (StorySource.articleId row).
    split; [apply in_map; exact Hin|]. apply Z.eqb_eq. congruence.
Qed.

Lemma newerArticle_asym (a b : Article.t) :
  Clustering.newerArticle a b = true -> Clustering.newerArticle b a = false.
Proof.
  unfold Clustering.newerArticle.
  destruct (Article.publishedAt a), (Article.publishedAt b); try congruence; lia.
Qed.

Lemma newerArticle_trans (a b c : Article.t) :
  inOrder Clustering.newerArticle a b -> inOrder Clustering.newerArticle b c ->
  inOrder Clustering.newerArticle a c.
Proof.
  unfold inOrder, Clustering.newerArticle.
  destruct (Article.publishedAt a), (Article.publishedAt b), (Article.publishedAt c);
    try congruence; lia.
Qed.

Lemma NoDup_map_filter {A B} (f : A -> B) (p : A -> bool) (l : list A) :
  List.NoDup (List.map f l) -> List.NoDup (List.map f (List.filter p l)).
Proof.
  induction l as [|x r IH]; cbn; [auto|]. intros H.
  inversion H as [|? ? Hx Hr]; subst. destruct (p x); cbn; [|auto].
  constructor; [|auto]. intros Hin. apply Hx.
  apply in_map_iff in Hin as (y & Hy & Hin). apply filter_In in Hin as [Hin _].
  apply in_map_iff. eauto.
Qed.

Lemma NoDup_map_firstn {A B} (f : A -> B) (n : nat) (l : list A) :
  List.NoDup (List.map f l) -> List.NoDup (List.map f (firstn n l)).
Proof.
  revert n. induction l as [|x r IH]; intros [|n]; cbn; try constructor.
  - inversion H as [|? ? Hx Hr]; subst. intros Hin. apply Hx.
    apply in_map_iff in Hin as (y & Hy & Hin). apply firstn_incl in Hin.
    apply in_map_iff. eauto.
  - inversion H; subst. auto.
Qed.

Lemma processArticle_keeps_unlinked (a b : Article.t) (now : Z) (st : Store) :
  Article._id b <> Article._id a -> ~ linked b st ->
  ~ linked b (snd (clusteringService.processArticle a now st)).
Proof.
  intros Hne Hn (row & Hin & Hid).
  destruct (grownWith_processArticle a now st) as ((links & E & F) & _).
  rewrite E in Hin. apply in_app_or in Hin as [Hin|Hin].
  - apply Hn. exists row. auto.
  - rewrite List.Forall_forall in F. destruct (F _ Hin) as [Ha _]. congruence.
Qed.

Lemma processArticle_not_skipped (article : Article.t) (now : Z) (st : Store) :
  ~ linked article st ->
  fst (clusteringService.processArticle article now st) <> Skipped.
Proof.
  intros Hn. apply not_linked_findOne in Hn.
  unfold clusteringService.processArticle. rewrite assign_run, Hn.
  destruct (fst (clusteringService.findMatchingStory article now st))
    as [[[story score]|]|msg0].
  - destruct (clusteringService.addArticleToStory _ _ _ _ st) as [[s|msg] st'];
      discriminate.
  - destruct (clusteringService.createStoryFromArticle _ _ st) as [[s|msg] st'];
      discriminate.
  - destruct (clusteringService.createStoryFromArticle _ _ st) as [[s|msg] st'];
      discriminate.
Qed.

Lemma clusterLoop_no_skips (batch : list Article.t) (now : Z) (r : Results.t)
    (st : Store) :
  List.NoDup (List.map Article._id batch) ->
  (forall a, In a batch -> ~ linked a st) ->
  Results.skipped (fst (clusteringService.clusterLoop batch now r st))
  = Results.skipped r.
Proof.
  revert r st. induction batch as [|a rest IH]; intros r st Hd Hu; cbn; [reflexivity|].
  cbn in Hd. inversion Hd as [|? ? Ha Hrest]; subst.
  pose proof (processArticle_not_skipped a now st (Hu a (or_introl eq_refl))) as Ho.
  assert (Hu' : forall b, In b rest ->
                  ~ linked b (snd (clusteringService.processArticle a now st))).
  { intros b Hb. apply processArticle_keeps_unlinked; [|apply Hu; right; exact Hb].
    intros E. apply Ha. rewrite <- E. apply in_map. exact Hb. }
  destruct (clusteringService.processArticle a now st) as [o st'].
  cbn [fst snd] in *. rewrite (IH _ _ Hrest Hu').
  destruct o; [reflexivity|reflexivity|contradiction|reflexivity].
Qed.

(** X13. [processUnclusteredArticles] hands to [clusterArticles] the
    articles of [News] without a link, latest publication first (undated
    ones last), cut after the first 100. It reports that nothing was
    processed, and writes nothing, exactly when every article has a link.
    Otherwise the counts add up to the number of selected articles, between
    1 and 100, and no article is counted as skipped when the ids of the
    articles are distinct. *)
Theorem X13_processUnclusteredArticles (news : list Article.t) (now : Z) (st : Store) :
  let selected := Clustering.unclusteredArticles news st in
  (exists sorted,
      selected = firstn 100 sorted
      /\ (forall a, In a sorted <-> In a news /\ ~ linked a st)
      /\ StronglySorted (inOrder Clustering.newerArticle) sorted
      /\ (List.NoDup news -> List.NoDup sorted))
  /\ (List.length selected <= 100)%nat
  /\ (Clustering.processUnclusteredArticles news now st = (NothingToProcess, st)
      <-> forall a, In a news -> linked a st)
  /\ match Clustering.processUnclusteredArticles news now st with
     | (NothingToProcess, st') => st' = st /\ selected = []
     | (Clustered results, st') =>
         (results, st') = clusteringService.clusterArticles selected now st
         /\ processed results = Z.of_nat (List.length selected)
         /\ 1 <= processed results <= 100
         /\ (List.NoDup (List.map Article._id news) -> Results.skipped results = 0)
     end.
Proof.
  intros selected.
  set (unlinked :=
         List.filter
           (fun a => negb (existsb (Z.eqb (Article._id a))
                                   (List.map StorySource.articleId (storySources st))))
           news).
  assert (Hunl : forall a, In a unlinked <-> In a news /\ ~ linked a st).
  { intros a. unfold unlinked. rewrite filter_In, negb_true_iff.
    rewrite <- linked_existsb. destruct (existsb _ _); intuition congruence. }
  assert (Hsel : selected = firstn 100 (stable_sort Clustering.newerArticle unlinked))
    by reflexivity.
  pose proof (stable_sort_perm Clustering.newerArticle unlinked) as Hperm.
  assert (Hlen : (List.length selected <= 100)%nat).
  { rewrite Hsel, length_firstn. lia. }
  assert (Hnil : selected = [] <-> forall a, In a news -> linked a st).
  { split.
    - intros E a Hin. destruct (existsb (Z.eqb (Article._id a))
                                  (List.map StorySource.articleId (storySources st)))
        eqn:X; [apply linked_existsb; exact X|].
      exfalso. assert (Ha : In a unlinked).
      { unfold unlinked. apply filter_In. rewrite X. auto. }
      apply (Permutation_in _ (Permutation_sym Hperm)) in Ha.
      rewrite Hsel in E.
      destruct (stable_sort Clustering.newerArticle unlinked); [contradiction|].
      discriminate.
    - intros Hall. rewrite Hsel.
      assert (E : unlinked = []).
      { clear Hperm Hsel. destruct unlinked as [|a r]; [reflexivity|].
        destruct (proj1 (Hunl a) (or_introl eq_refl)) as [Hin Hn].
        exfalso. apply Hn, Hall, Hin. }
      rewrite E. reflexivity. }
  split.
  { exists (stable_sort Clustering.newerArticle unlinked).
    split; [exact Hsel|]. split.
    - intros a. rewrite <- Hunl. split; intros H.
      + apply (Permutation_in _ Hperm). exact H.
      + apply (Permutation_in _ (Permutation_sym Hperm)). exact H.
    - split.
      + apply stable_sort_sorted; [apply newerArticle_asym|apply newerArticle_trans].
      + intros Hd. apply (Permutation_NoDup (Permutation_sym Hperm)).
        apply List.NoDup_filter. exact Hd. }
  split; [exact Hlen|].
  unfold Clustering.processUnclusteredArticles. cbn zeta. fold selected.
  destruct (List.length selected =? 0)%nat eqn:E0.
  - apply Nat.eqb_eq in E0.
    assert (E : selected = []) by (destruct selected; [reflexivity|discriminate]).
    split; [|auto]. split; [intros _; apply Hnil, E|reflexivity].
  - apply Nat.eqb_neq in E0.
    destruct (clusteringService.clusterArticles selected now st) as [results st'] eqn:C.
    split.
    { split; [discriminate|]. intros Hall. apply Hnil in Hall.
      rewrite Hall in E0. contradiction. }
    split; [reflexivity|].
    assert (Hp : processed results = Z.of_nat (List.length selected)).
    { pose proof (clusterLoop_processed selected now (Results.mk 0 0 0 0) st) as Hp.
      unfold clusteringService.clusterArticles in C. rewrite C in Hp.
      cbn [fst] in Hp. rewrite Hp. unfold processed. cbn. lia. }
    split; [exact Hp|]. split; [lia|].
    intros Hd.
    pose proof (clusterLoop_no_skips selected now (Results.mk 0 0 0 0) st) as Hs.
    unfold clusteringService.clusterArticles in C. rewrite C in Hs. cbn [fst] in Hs.
    apply Hs.
    + rewrite Hsel. apply NoDup_map_firstn.
      apply (Permutation_NoDup
               (Permutation_map Article._id (Permutation_sym Hperm))).
      apply NoDup_map_filter. exact Hd.
    + intros a Ha. rewrite Hsel in Ha. apply firstn_incl in Ha.
      apply (Permutation_in _ Hperm) in Ha. apply Hunl in Ha. apply Ha.
Qed.

(** ** Refreshing the stored scores *)















(** ** Recalculating the importance of a story *)

Lemma findOne_other_id (id other : ObjectId) (d : Story.t) (l : list Story.t) :
  other <> id -> Story._id d = id ->
  findOne (StoryModel.has_id other) (replace_first (StoryModel.has_id id) d l)
  = findOne (StoryModel.has_id other) l.
Proof.
  unfold findOne. intros Hne Hd. induction l as [|y r IH]; [reflexivity|]. cbn.
  destruct (StoryModel.has_id id y) eqn:E; cbn.
  - apply Z.eqb_eq in E. unfold StoryModel.has_id. rewrite Hd, E.
    destruct (Z.eqb_spec id other); [congruence|reflexivity].
  - rewrite IH. reflexivity.
Qed.

Lemma replace_first_idem {A} (p : A -> bool) (d : A) (l : list A) :
  p d = true -> replace_first p d (replace_first p d l) = replace_first p d l.
Proof.
  intros Hd. induction l as [|y r IH]; [reflexivity|]. cbn.
  destruct (p y) eqn:E; cbn; [rewrite Hd; reflexivity|].
  rewrite E, IH. reflexivity.
Qed.

Lemma replace_first_ids (id : ObjectId) (d : Story.t) (l : list Story.t) :
  Story._id d = id ->
  List.map Story._id (replace_first (StoryModel.has_id id) d l) = List.map Story._id l.
Proof.
  intros Hd. induction l as [|y r IH]; [reflexivity|]. cbn.
  destruct (StoryModel.has_id id y) eqn:E; cbn.
  - apply Z.eqb_eq in E. congruence.
  - rewrite IH. reflexivity.
Qed.

Lemma ageHours_mono (now later firstSeen : Z) :
  now <= later ->
  (StoryModel.ageHours now firstSeen <= StoryModel.ageHours later firstSeen)%Q.
Proof.
  intros H. unfold StoryModel.ageHours, Qdiv.
  apply Qmult_le_compat_r; [|discriminate].
  unfold Js.ofZ. rewrite <- Zle_Qle. lia.
Qed.

Lemma recencyScore_range (now firstSeen : Z) :
  (0 <= StoryModel.recencyScore now firstSeen)%Q
  /\ (firstSeen <= now -> (StoryModel.recencyScore now firstSeen <= 1)%Q).
Proof.
  unfold StoryModel.recencyScore. split; [apply Q.le_max_l|].
  intros H. apply Q.max_lub; [discriminate|].
  pose proof (ageHours_mono firstSeen now firstSeen H) as Ha.
  assert (E : (StoryModel.ageHours firstSeen firstSeen == 0)%Q).
  { unfold StoryModel.ageHours. rewrite Z.sub_diag. reflexivity. }
  rewrite E in Ha.
  assert (0 <= StoryModel.ageHours now firstSeen / 24)%Q
    by (apply Qdiv_nonneg; [exact Ha|discriminate]).
  lra.
Qed.

Lemma recencyScore_decays (now later firstSeen : Z) :
  now <= later ->
  (StoryModel.recencyScore later firstSeen <= StoryModel.recencyScore now firstSeen)%Q.
Proof.
  intros H. unfold StoryModel.recencyScore.
  pose proof (ageHours_mono now later firstSeen H) as Ha.
  apply Q.max_le_compat_l.
  assert (StoryModel.ageHours now firstSeen / 24
          <= StoryModel.ageHours later firstSeen / 24)%Q
    by (unfold Qdiv; apply Qmult_le_compat_r; [exact Ha|discriminate]).
  lra.
Qed.

Lemma sourceScore_range (sourceCount : Z) :
  0 <= sourceCount -> (0 <= StoryModel.sourceScore sourceCount <= 1)%Q.
Proof.
  intros H. unfold StoryModel.sourceScore. split; [|apply Q.le_min_r].
  apply Q.min_glb; [|discriminate].
  apply Qdiv_nonneg; [|discriminate].
  unfold Js.ofZ. change 0%Q with (inject_Z 0). rewrite <- Zle_Qle. exact H.
Qed.

(** X15. [Story.recalculateImportance] returns null and writes nothing for
    an unknown id. For a known id it stores, on the first story of that id
    and on nothing else, the weighted sum of the story's own statistics at
    the current time, whatever score was stored before, so that a second
    call at the same instant changes nothing. The score lies in [0,1] for a
    story with a non-negative source count, diversity and credibility in
    [0,1] and a first-seen date not in the future, and never grows as time
    passes. *)
Theorem X15_recalculateImportance (storyId : ObjectId) (now : Z) (st : Store) :
  match findOne (StoryModel.has_id storyId) (stories st) with
  | None => StoryModel.recalculateImportance storyId now st = (Ok None, st)
  | Some story =>
      let story' := Story.set_importanceScore (StoryModel.importanceOf story now) story in
      exists st',
        StoryModel.recalculateImportance storyId now st = (Ok (Some story'), st')
        /\ findOne (StoryModel.has_id storyId) (stories st') = Some story'
        /\ (forall other, other <> storyId ->
              findOne (StoryModel.has_id other) (stories st')
              = findOne (StoryModel.has_id other) (stories st))
        /\ List.map Story._id (stories st') = List.map Story._id (stories st)
        /\ storySources st' = storySources st /\ sources st' = sources st
        /\ nextId st' = nextId st
        /\ StoryModel.recalculateImportance storyId now st' = (Ok (Some story'), st')
        /\ (forall score,
              StoryModel.importanceOf (Story.set_importanceScore score story) now
              = StoryModel.importanceOf story now)
        /\ (0 <= Story.sourceCount story ->
            (0 <= Story.sourceDiversity story <= 1)%Q ->
            (0 <= Story.averageCredibility story <= 1)%Q ->
            Story.firstSeen story <= now ->
            (0 <= Story.importanceScore story' <= 1)%Q)
        /\ (forall later, now <= later ->
              (StoryModel.importanceOf story later <= StoryModel.importanceOf story now)%Q)
  end.
Proof.
  destruct (findOne _ (stories st)) as [story|] eqn:E.
  2:{ rewrite recalculateImportance_run, E. reflexivity. }
  intros story'. destruct (findOne_has_id _ _ _ E) as [_ Hid].
  assert (Hid' : Story._id story' = storyId) by exact Hid.
  exists (with_stories (replace_first (StoryModel.has_id storyId) story') st).
  assert (Hf : findOne (StoryModel.has_id storyId)
                 (replace_first (StoryModel.has_id storyId) story' (stories st))
               = Some story').
  { eapply findOne_replace_first; [exact E|].
    unfold StoryModel.has_id. rewrite Hid'. apply Z.eqb_refl. }
  split.
  { rewrite recalculateImportance_run, E. cbn zeta. fold story'. rewrite Hid'.
    reflexivity. }
  split; [exact Hf|].
  split; [intros other Ho; apply findOne_other_id; assumption|].
  split; [apply replace_first_ids; exact Hid'|].
  split; [reflexivity|]. split; [reflexivity|]. split; [reflexivity|].
  split.
  { rewrite recalculateImportance_run. cbn [stories with_stories]. rewrite Hf.
    cbn zeta.
    change (Story.set_importanceScore (StoryModel.importanceOf story' now) story')
      with story'.
    rewrite Hid'. f_equal. unfold with_stories. cbn. f_equal.
    apply replace_first_idem. unfold StoryModel.has_id. rewrite Hid'. apply Z.eqb_refl. }
  split; [reflexivity|].
  split.
  - intros Hc Hd Ha Hs. cbn [story' Story.importanceScore Story.set_importanceScore].
    unfold StoryModel.importanceOf.
    pose proof (sourceScore_range _ Hc) as Hsc.
    pose proof (recencyScore_range now (Story.firstSeen story)) as [Hr0 Hr1].
    specialize (Hr1 Hs). lra.
  - intros later Hl. unfold StoryModel.importanceOf.
    pose proof (recencyScore_decays now later (Story.firstSeen story) Hl). lra.
Qed.

(** ** Explaining a ranking *)

(** X16. In the breakdown of [getRankingExplanation] each contribution is
    the weight of its entry times the entry's score, the four weights add up
    to 1, and the four contributions add up to the weighted sum that
    [calculateImportanceScore] rounds: the total score reported is within
    0.0005 of their sum. For a story with a non-negative source count,
    diversity and credibility in [0,1] and a first-seen date not in the
    future every contribution lies between 0 and its weight. *)
Theorem X16_getRankingExplanation (story : Story.t) (now : Z) :
  let e := Ranking.getRankingExplanation story now in
  let parts := [Explanation.sourceCount e; Explanation.sourceDiversity e;
                Explanation.credibility e; Explanation.recency e] in
  let total := StorySourceModel.Qsum (List.map Part.contribution parts) in
  (StorySourceModel.Qsum (List.map Part.weight parts) == 1)%Q
  /\ (total == calmRankingService.weightedScore story now)%Q
  /\ Explanation.totalScore e = calmRankingService.calculateImportanceScore story now
  /\ (total - (1 # 2000) <= Explanation.totalScore e <= total + (1 # 2000))%Q
  /\ Explanation.explanation e = Ranking.generateHumanReadableExplanation story now
  /\ (0 <= Story.sourceCount story ->
      (0 <= Story.sourceDiversity story <= 1)%Q ->
      (0 <= Story.averageCredibility story <= 1)%Q ->
      Story.firstSeen story <= now ->
      List.Forall (fun p => (0 <= Part.contribution p <= Part.weight p)%Q) parts).
Proof.
  intros e parts total. subst total parts e. unfold Ranking.getRankingExplanation.
  cbn [Explanation.sourceCount Explanation.sourceDiversity Explanation.credibility
       Explanation.recency Explanation.totalScore Explanation.explanation
       List.map Part.contribution Part.weight].
  unfold StorySourceModel.Qsum. cbn [List.fold_right].
  set (sourceScore := Qmin (Js.ofZ (Story.sourceCount story) / 10) 1).
  set (diversityScore := Js.num_or (Story.sourceDiversity story) 0).
  set (credibilityScore := Js.num_or (Story.averageCredibility story) 0.5).
  set (recencyScore :=
         Qmax 0 (1 - Js.ofZ (now - Story.firstSeen story) / Js.ofZ (1000 * 60 * 60)
                     / calmRankingService.MAX_RECENCY_HOURS)).
  assert (Ht : (sourceScore * calmRankingService.SOURCE_COUNT
                + (diversityScore * calmRankingService.SOURCE_DIVERSITY
                   + (credibilityScore * calmRankingService.CREDIBILITY
                      + (recencyScore * calmRankingService.RECENCY + 0)))
                == calmRankingService.weightedScore story now)%Q).
  { unfold calmRankingService.weightedScore. cbn zeta.
    fold sourceScore diversityScore credibilityScore recencyScore. ring. }
  split; [reflexivity|]. split; [exact Ht|]. split; [reflexivity|].
  split.
  { change (calmRankingService.calculateImportanceScore story now)
      with (Spec.round3 (calmRankingService.weightedScore story now)).
    rewrite Ht. apply round3_error. }
  split; [reflexivity|].
  intros Hc [Hd0 Hd1] [Ha0 Ha1] Hs.
  pose proof (sourceScore_range _ Hc) as Hsc.
  pose proof (recencyScore_range now (Story.firstSeen story)) as [Hr0 Hr1].
  specialize (Hr1 Hs).
  change (StoryModel.sourceScore (Story.sourceCount story)) with sourceScore in Hsc.
  change (StoryModel.recencyScore now (Story.firstSeen story)) with recencyScore
    in Hr0, Hr1.
  assert (Hdv : (0 <= diversityScore <= 1)%Q)
    by (unfold diversityScore; rewrite num_or_zero; auto).
  assert (Hcr : (0 <= credibilityScore <= 1)%Q).
  { unfold credibilityScore, Js.num_or. destruct (Qeq_bool _ 0); [split; discriminate|auto]. }
  unfold calmRankingService.SOURCE_COUNT, calmRankingService.SOURCE_DIVERSITY,
    calmRankingService.CREDIBILITY, calmRankingService.RECENCY.
  clearbody sourceScore diversityScore credibilityScore recencyScore.
  repeat (apply List.Forall_cons;
          [cbn [Part.contribution Part.weight]; split; lra|]).
  apply List.Forall_nil.
Qed.

Lemma geb_false (a b : Z) : (a >=? b) = false <-> a < b.
Proof. rewrite Z.geb_leb, Z.leb_gt. reflexivity. Qed.

Lemma Qle_bool_false (x y : Q) : Qle_bool x y = false <-> (y < x)%Q.
Proof.
  split.
  - intros H. apply Qnot_le_lt. intros K. apply Qle_bool_iff in K. congruence.
  - intros H. destruct (Qle_bool x y) eqn:E; [|reflexivity].
    apply Qle_bool_iff in E. lra.
Qed.

(** A remark that does not start with the letter S. *)
Lemma concat_head (sep : string) (c : ascii) (p : string) (rest : list string) :
  exists tail, String.concat sep (String c p :: rest) = String c tail.
Proof. destruct rest; simpl; eauto. Qed.

Lemma remarks_not_standard (parts : list string) :
  parts <> [] ->
  List.Forall (fun p => exists c r, p = String c r /\ c <> "S"%char) parts ->
  String.concat " • " parts <> "Standard importance".
Proof.
  intros Hne F. destruct parts as [|p rest]; [contradiction|].
  inversion F as [|? ? (c & r & -> & Hc) _]; subst.
  destruct (concat_head " • " c r rest) as [tail ->].
  intros [= E _]. contradiction.
Qed.

(** X17. [generateHumanReadableExplanation] answers "Standard importance"
    exactly when no remark applies, that is when the story has fewer than 3
    sources, a diversity below 0.5, an average credibility below 0.8 and is
    at least 24 hours old; otherwise it joins between one and four remarks.
    A story is called breaking exactly while it is younger than 6 hours and
    recent exactly from 6 hours up to 24 hours. *)
Theorem X17_generateHumanReadableExplanation (story : Story.t) (now : Z) :
  let parts := Ranking.explanationParts story now in
  let ageHours := (Js.ofZ (now - Story.firstSeen story) / Js.ofZ (1000 * 60 * 60))%Q in
  (Ranking.generateHumanReadableExplanation story now = "Standard importance"
   <-> parts = [])
  /\ (parts = []
      <-> Story.sourceCount story < 3
          /\ (Story.sourceDiversity story < 0.5)%Q
          /\ (Story.averageCredibility story < 0.8)%Q
          /\ (24 <= ageHours)%Q)
  /\ (List.length parts <= 4)%nat
  /\ (In "Breaking story" parts <-> (ageHours < 6)%Q)
  /\ (In "Recent story" parts <-> (6 <= ageHours < 24)%Q)
  /\ (In "Diverse source types" parts <-> (0.5 <= Story.sourceDiversity story)%Q)
  /\ (In "High credibility sources" parts <-> (0.8 <= Story.averageCredibility story)%Q).
Proof.
  intros parts ageHours. subst parts.
  unfold Ranking.generateHumanReadableExplanation, Ranking.explanationParts.
  cbn zeta. fold ageHours.
  set (coverage := if Story.sourceCount story >=? 5 then _ else _).
  set (diversity := if Qle_bool 0.5 _ then _ else _).
  set (credibility := if Qle_bool 0.8 _ then _ else _).
  set (age := if Qlt_bool ageHours 6 then _ else _).
  assert (Hcov : (coverage = [] <-> Story.sourceCount story < 3)
                 /\ (List.length coverage <= 1)%nat
                 /\ List.Forall (fun p => exists c r, p = String c r /\ c <> "S"%char
                                          /\ c <> "B"%char /\ c <> "R"%char
                                          /\ c <> "D"%char /\ c <> "H"%char) coverage).
  { subst coverage.
    destruct (Story.sourceCount story >=? 5) eqn:C5;
      [|destruct (Story.sourceCount story >=? 3) eqn:C3];
      rewrite ?Z.geb_le, ?geb_false in *.
    - split; [split; [discriminate|lia]|]. split; [cbn; lia|].
      constructor; [|constructor]. eexists _, _. split; [reflexivity|].
      repeat split; discriminate.
    - split; [split; [discriminate|lia]|]. split; [cbn; lia|].
      constructor; [|constructor]. eexists _, _. split; [reflexivity|].
      repeat split; discriminate.
    - split; [split; [intros _; exact C3|reflexivity]|]. split; [cbn; lia|constructor]. }
  assert (Hdiv : (diversity = [] <-> (Story.sourceDiversity story < 0.5)%Q)
                 /\ (diversity = ["Diverse source types"]
                     <-> (0.5 <= Story.sourceDiversity story)%Q)
                 /\ (diversity = [] \/ diversity = ["Diverse source types"])).
  { subst diversity. destruct (Qle_bool 0.5 _) eqn:D;
      rewrite ?Qle_bool_iff, ?Qle_bool_false in D.
    - split; [split; [discriminate|lra]|]. split; [tauto|auto].
    - split; [tauto|]. split; [split; [discriminate|lra]|auto]. }
  assert (Hcred : (credibility = [] <-> (Story.averageCredibility story < 0.8)%Q)
                  /\ (credibility = ["High credibility sources"]
                      <-> (0.8 <= Story.averageCredibility story)%Q)
                  /\ (credibility = [] \/ credibility = ["High credibility sources"])).
  { subst credibility. destruct (Qle_bool 0.8 _) eqn:D;
      rewrite ?Qle_bool_iff, ?Qle_bool_false in D.
    - split; [split; [discriminate|lra]|]. split; [tauto|auto].
    - split; [tauto|]. split; [split; [discriminate|lra]|auto]. }
  assert (Hage : (age = [] <-> (24 <= ageHours)%Q)
                 /\ (age = ["Breaking story"] <-> (ageHours < 6)%Q)
                 /\ (age = ["Recent story"] <-> (6 <= ageHours < 24)%Q)
                 /\ (age = [] \/ age = ["Breaking story"] \/ age = ["Recent story"])).
  { subst age. destruct (Qlt_bool ageHours 6) eqn:B;
      [|destruct (Qlt_bool ageHours 24) eqn:R];
      rewrite ?Qlt_bool_iff, ?Qlt_bool_false_iff in *.
    - split; [split; [discriminate|lra]|]. split; [tauto|].
      split; [split; [discriminate|lra]|auto].
    - split; [split; [discriminate|lra]|]. split; [split; [discriminate|lra]|].
      split; [split; [auto|reflexivity]|auto].
    - split; [tauto|]. split; [split; [discriminate|lra]|].
      split; [split; [discriminate|lra]|auto]. }
  destruct Hcov as (Hc1 & Hc2 & Hc3). destruct Hdiv as (Hd1 & Hd2 & Hd3).
  destruct Hcred as (Hr1 & Hr2 & Hr3). destruct Hage as (Ha1 & Ha2 & Ha3 & Ha4).
  assert (Hnil : (coverage ++ diversity ++ credibility ++ age)%list = []
                 <-> coverage = [] /\ diversity = [] /\ credibility = [] /\ age = []).
  { split.
    - intros H. apply app_eq_nil in H as [-> H]. apply app_eq_nil in H as [-> H].
      apply app_eq_nil in H as [-> ->]. auto.
    - intros (-> & -> & -> & ->). reflexivity. }
  assert (HnoS : List.Forall (fun p => exists c r, p = String c r /\ c <> "S"%char)
                             (coverage ++ diversity ++ credibility ++ age)%list).
  { apply List.Forall_app. split.
    { eapply List.Forall_impl; [|exact Hc3]. intros p (c & r & E & H & _). eauto. }
    apply List.Forall_app. split.
    { destruct Hd3 as [->| ->]; repeat constructor.
      eexists _, _. split; [reflexivity|discriminate]. }
    apply List.Forall_app. split.
    { destruct Hr3 as [->| ->]; repeat constructor.
      eexists _, _. split; [reflexivity|discriminate]. }
    destruct Ha4 as [->|[->| ->]]; repeat constructor;
      eexists _, _; (split; [reflexivity|discriminate]). }
  assert (Hcovnot : forall remark c r, remark = String c r ->
                      (c = "B" \/ c = "R" \/ c = "D" \/ c = "H")%char ->
                      ~ In remark coverage).
  { intros remark c r -> Hc Hin. rewrite List.Forall_forall in Hc3.
    destruct (Hc3 _ Hin) as (c' & r' & [= <- <-] & _ & HB & HR & HD & HH).
    intuition congruence. }
  split.
  { split.
    - intros H. destruct (0 <? List.length _)%nat eqn:L.
      + exfalso. apply (remarks_not_standard _) in HnoS; [contradiction|].
        intros E. rewrite E in L. discriminate.
      + apply Nat.ltb_ge in L. destruct (_ ++ _)%list; [reflexivity|cbn in L; lia].
    - intros ->. reflexivity. }
  split.
  { rewrite Hnil, Hc1, Hd1, Hr1, Ha1. reflexivity. }
  split.
  { rewrite !length_app.
    assert (List.length diversity <= 1)%nat by (destruct Hd3 as [->| ->]; cbn; lia).
    assert (List.length credibility <= 1)%nat by (destruct Hr3 as [->| ->]; cbn; lia).
    assert (List.length age <= 1)%nat by (destruct Ha4 as [->|[->| ->]]; cbn; lia).
    lia. }
  rewrite <- Ha2, <- Ha3, <- Hd2, <- Hr2. rewrite !in_app_iff.
  repeat split; intros H.
  - destruct H as [H|[H|[H|H]]].
    + exfalso. eapply Hcovnot; [reflexivity| |exact H]. auto.
    + destruct Hd3 as [E|E]; rewrite E in H; cbn in H; intuition discriminate.
    + destruct Hr3 as [E|E]; rewrite E in H; cbn in H; intuition discriminate.
    + destruct Ha4 as [E|[E|E]]; rewrite E in H; cbn in H; intuition discriminate.
  - rewrite H. cbn. auto.
  - destruct H as [H|[H|[H|H]]].
    + exfalso. eapply Hcovnot; [reflexivity| |exact H]. auto.
    + destruct Hd3 as [E|E]; rewrite E in H; cbn in H; intuition discriminate.
    + destruct Hr3 as [E|E]; rewrite E in H; cbn in H; intuition discriminate.
    + destruct Ha4 as [E|[E|E]]; rewrite E in H; cbn in H; intuition discriminate.
  - rewrite H. cbn. auto.
  - destruct H as [H|[H|[H|H]]].
    + exfalso. eapply Hcovnot; [reflexivity| |exact H]. auto.
    + destruct Hd3 as [E|E]; rewrite E in H; cbn in H; intuition discriminate.
    + destruct Hr3 as [E|E]; rewrite E in H; cbn in H; intuition discriminate.
    + destruct Ha4 as [E|[E|E]]; rewrite E in H; cbn in H; intuition discriminate.
  - rewrite H. cbn. auto.
  - destruct H as [H|[H|[H|H]]].
    + exfalso. eapply Hcovnot; [reflexivity| |exact H]. auto.
    + destruct Hd3 as [E|E]; rewrite E in H; cbn in H; intuition discriminate.
    + destruct Hr3 as [E|E]; rewrite E in H; cbn in H; intuition discriminate.
    + destruct Ha4 as [E|[E|E]]; rewrite E in H; cbn in H; intuition discriminate.
  - rewrite H. cbn. auto.
Qed.

(** ** Ranking a list of stories *)

Lemma rescore_idem (now : Z) (s : Story.t) : rescore now (rescore now s) = rescore now s.
Proof. reflexivity. Qed.

Lemma rescore_ignores_score (now : Z) (x : Q) (s : Story.t) :
  rescore now (Story.set_importanceScore x s) = rescore now s.
Proof. reflexivity. Qed.

Lemma map_fixed {A} (f : A -> A) (l : list A) :
  (forall x, In x l -> f x = x) -> List.map f l = l.
Proof.
  induction l as [|x r IH]; intros H; [reflexivity|]. cbn.
  rewrite (H x (or_introl eq_refl)), IH; [reflexivity|].
  intros y Hy. apply H. right. exact Hy.
Qed.

Lemma byScore_asym (a b : Story.t) :
  Qlt_bool (Story.importanceScore b) (Story.importanceScore a) = true ->
  Qlt_bool (Story.importanceScore a) (Story.importanceScore b) = false.
Proof. intros H. apply Qlt_bool_iff in H. apply Qlt_bool_false_iff. lra. Qed.

Lemma byScore_trans (a b c : Story.t) :
  inOrder (fun a b => Qlt_bool (Story.importanceScore b) (Story.importanceScore a)) a b ->
  inOrder (fun a b => Qlt_bool (Story.importanceScore b) (Story.importanceScore a)) b c ->
  inOrder (fun a b => Qlt_bool (Story.importanceScore b) (Story.importanceScore a)) a c.
Proof.
  unfold inOrder. intros H1 H2.
  apply Qlt_bool_false_iff in H1, H2. apply Qlt_bool_false_iff. lra.
Qed.

(** X18. [rankStories] returns as many stories as it is given, each with
    the importance score that [calculateImportanceScore] gives it at the
    current time and otherwise unchanged. The result does not depend on the
    scores stored in the input, ranking it again at the same instant changes
    nothing, and a list that is already in descending order of the
    recomputed scores keeps its order. *)
Theorem X18_rankStories (stories : list Story.t) (now : Z) :
  let ranked := calmRankingService.rankStories stories now in
  List.length ranked = List.length stories
  /\ (forall s, In s ranked ->
        Story.importanceScore s = calmRankingService.calculateImportanceScore s now
        /\ exists original, In original stories
             /\ s = Story.set_importanceScore
                      (calmRankingService.calculateImportanceScore original now) original)
  /\ (forall stories',
        List.map (Story.set_importanceScore 0) stories'
        = List.map (Story.set_importanceScore 0) stories ->
        calmRankingService.rankStories stories' now = ranked)
  /\ calmRankingService.rankStories ranked now = ranked
  /\ (StronglySorted
        (fun a b => (calmRankingService.calculateImportanceScore b now
                     <= calmRankingService.calculateImportanceScore a now)%Q) stories ->
      ranked = List.map (rescore now) stories).
Proof.
  intros ranked.
  assert (Hperm : Permutation ranked (List.map (rescore now) stories))
    by exact (proj1 (rankStories_sorted stories now)).
  assert (Hin : forall s, In s ranked -> exists original,
                  In original stories /\ s = rescore now original).
  { intros s Hs. apply (Permutation_in _ Hperm) in Hs.
    apply in_map_iff in Hs as (o & <- & Ho). eauto. }
  split.
  { rewrite (Permutation_length Hperm). apply length_map. }
  split.
  { intros s Hs. destruct (Hin s Hs) as (o & Ho & ->).
    split; [reflexivity|]. exists o. split; [exact Ho|reflexivity]. }
  split.
  { intros stories' E. unfold ranked, calmRankingService.rankStories.
    fold (rescore now). f_equal.
    assert (R : forall l, List.map (rescore now) l
                          = List.map (rescore now)
                                     (List.map (Story.set_importanceScore 0) l)).
    { intros l. rewrite List.map_map. apply List.map_ext.
      intros s. symmetry. apply rescore_ignores_score. }
    rewrite (R stories'), (R stories), E. reflexivity. }
  split.
  { unfold calmRankingService.rankStories at 1. fold (rescore now).
    rewrite (map_fixed (rescore now) ranked).
    - apply stable_sort_id. apply stable_sort_sorted.
      + apply byScore_asym.
      + apply byScore_trans.
    - intros s Hs. destruct (Hin s Hs) as (o & _ & ->). apply rescore_idem. }
  intros Hs. unfold ranked, calmRankingService.rankStories. fold (rescore now).
  apply stable_sort_id.
  eapply StronglySorted_map; [|exact Hs].
  intros a b H. unfold inOrder. apply Qlt_bool_false_iff. exact H.
Qed.

(** ** The labels of a timeline *)

Lemma timeline_entry_origin (story : Story.t) (cutoff : Z) (docs : list Story.t)
    (e : Entry.t) :
  In e (Js.slice 0 5
          (stable_sort (fun b a => Entry.date a <? Entry.date b)
             (List.map (contextService.entryOf story)
                (List.filter (contextService.isRelevant story)
                   (contextService.relatedStories story cutoff docs))))) ->
  exists s, In s docs /\ precedes story cutoff s
            /\ contextService.isRelevant story s = true
            /\ e = contextService.entryOf story s.
Proof.
  unfold Js.slice. cbn [skipn]. intros H. apply firstn_incl in H.
  apply (Permutation_in _ (stable_sort_perm _ _)) in H.
  apply in_map_iff in H as (s & <- & H). apply filter_In in H as [H Hr].
  unfold contextService.relatedStories in H. apply firstn_incl in H.
  apply (Permutation_in _ (stable_sort_perm _ _)) in H.
  apply filter_In in H as [H Hc]. apply isCandidate_precedes in Hc.
  exists s. auto.
Qed.

(** X19. [determineRelationship] answers PRECEDES, FOLLOWS or RELATED
    according to whether the related story was first seen before, after or
    at the same time as the current one, so that swapping the two stories
    swaps PRECEDES and FOLLOWS. [buildTimeline] returns null exactly when no
    story has the id; in a timeline every entry is labelled PRECEDES, is
    dated before the story, belongs to another story and has a relevance
    above 0.3: the labels FOLLOWS and RELATED never occur. *)
Theorem X19_timeline_labels (storyId : ObjectId) (days : option Z) (now : Z)
    (docs : list Story.t) :
  (forall current related,
      (contextService.determineRelationship current related = "PRECEDES"
       <-> Story.firstSeen related < Story.firstSeen current)
      /\ (contextService.determineRelationship current related = "FOLLOWS"
          <-> Story.firstSeen current < Story.firstSeen related)
      /\ (contextService.determineRelationship current related = "RELATED"
          <-> Story.firstSeen current = Story.firstSeen related)
      /\ (contextService.determineRelationship current related = "PRECEDES"
          <-> contextService.determineRelationship related current = "FOLLOWS"))
  /\ match contextService.buildTimeline storyId days now docs with
     | None => forall s, In s docs -> Story._id s <> storyId
     | Some t =>
         exists story,
           findOne (StoryModel.has_id storyId) docs = Some story
           /\ Timeline.currentStory t
              = (storyId, Story.canonicalTitle story, Story.firstSeen story)
           /\ forall e, In e (Timeline.timeline t) ->
                Entry.relationship e = "PRECEDES"
                /\ Entry.date e < Story.firstSeen story
                /\ Entry.storyId e <> storyId
                /\ (0.3 < Entry.relevanceScore e)%Q
     end.
Proof.
  split.
  { intros current related. unfold contextService.determineRelationship.
    destruct (Z.ltb_spec (Story.firstSeen related) (Story.firstSeen current));
      destruct (Z.ltb_spec (Story.firstSeen current) (Story.firstSeen related));
      repeat split; intros; try discriminate; try lia; reflexivity. }
  unfold contextService.buildTimeline.
  destruct (findOne _ docs) as [story|] eqn:E.
  - exists story. destruct (findOne_has_id _ _ _ E) as [_ Hid].
    split; [reflexivity|]. cbn [Timeline.currentStory Timeline.timeline].
    split; [rewrite Hid; reflexivity|].
    intros e He. apply timeline_entry_origin in He as (s & _ & Hp & Hr & ->).
    destruct Hp as (Hne & _ & _ & Hlt).
    unfold contextService.entryOf.
    cbn [Entry.relationship Entry.date Entry.storyId Entry.relevanceScore].
    split.
    { unfold contextService.determineRelationship.
      apply Z.ltb_lt in Hlt. rewrite Hlt. reflexivity. }
    split; [exact Hlt|]. split; [rewrite <- Hid; exact Hne|].
    unfold contextService.isRelevant in Hr. apply Qlt_bool_iff in Hr. exact Hr.
  - intros s Hin Hid. unfold findOne in E.
    pose proof (find_none _ _ E s Hin) as H. unfold StoryModel.has_id in H.
    rewrite Hid, Z.eqb_refl in H. discriminate.
Qed.

(** ** Symmetry of the title similarity *)

Lemma calculateSimilarity_sym (text1 text2 : string) :
  Similarity.calculateSimilarity text1 text2 = Similarity.calculateSimilarity text2 text1.
Proof.
  rewrite !calculateSimilarity_jaccard. cbn zeta.
  rewrite (orb_comm (String.eqb text1 "")).
  rewrite (orb_comm (size (list_to_set (Similarity.extractWords text1)) =? 0)%nat).
  rewrite (comm_L (∩) (list_to_set (Similarity.extractWords text1) : gset string)).
  rewrite (comm_L (∪) (list_to_set (Similarity.extractWords text1) : gset string)).
  reflexivity.
Qed.

(** X20. [calculateTitleSimilarity] gives the same value in both
    directions whenever neither title repeats a three-word phrase, and the
    two directions never differ by more than 0.3. It is not symmetric in
    general: a phrase that occurs twice in the first title counts twice
    towards the bonus, so the similarity of "Fed cut Fed cut Fed" to "Fed
    cut Fed" is 0.2 and that of "Fed cut Fed" to "Fed cut Fed cut Fed" is
    0.1. *)
Theorem X20_titleSimilarity_symmetry (title1 title2 : string) :
  let phrases1 := Similarity.extractPhrases (Js.toLowerCase title1) 3 in
  let phrases2 := Similarity.extractPhrases (Js.toLowerCase title2) 3 in
  (List.NoDup phrases1 -> List.NoDup phrases2 ->
   Similarity.calculateTitleSimilarity title1 title2
   = Similarity.calculateTitleSimilarity title2 title1)
  /\ (Similarity.calculateTitleSimilarity title1 title2
      <= Similarity.calculateTitleSimilarity title2 title1 + 0.3)%Q
  /\ (Similarity.calculateTitleSimilarity "Fed cut Fed cut Fed" "Fed cut Fed" == 0.2)%Q
  /\ (Similarity.calculateTitleSimilarity "Fed cut Fed" "Fed cut Fed cut Fed" == 0.1)%Q.
Proof.
  intros phrases1 phrases2. split; [|split; [|split]].
  - intros H1 H2. unfold Similarity.calculateTitleSimilarity.
    fold phrases1 phrases2.
    rewrite (calculateSimilarity_sym title1 title2).
    rewrite (shared_words_intersection phrases1 phrases2 H1).
    rewrite (shared_words_intersection phrases2 phrases1 H2).
    rewrite (comm_L (∩) (list_to_set phrases1 : gset string)). reflexivity.
  - assert (B : forall a b,
                (Similarity.calculateSimilarity a b
                 <= Similarity.calculateTitleSimilarity a b
                 <= Similarity.calculateSimilarity a b + 0.3)%Q).
    { intros a b. unfold Similarity.calculateTitleSimilarity.
      pose proof (calculateSimilarity_le_1 a b) as W1.
      assert (B0 : (0 <= Qmin (Js.ofNat
                                 (List.length
                                    (List.filter
                                       (Js.includes
                                          (Similarity.extractPhrases (Js.toLowerCase b) 3))
                                       (Similarity.extractPhrases (Js.toLowerCase a) 3)))
                               * 0.1) 0.3 <= 0.3)%Q).
      { split; [|apply Q.le_min_r]. apply Q.min_glb; [|discriminate].
        apply Qmult_le_0_compat; [apply ofNat_nonneg|discriminate]. }
      split; [apply Q.min_glb; lra|].
      eapply Qle_trans; [apply Q.le_min_l|]. lra. }
    pose proof (B title1 title2) as [_ U]. pose proof (B title2 title1) as [L _].
    rewrite (calculateSimilarity_sym title2 title1) in L. lra.
  - vm_compute. reflexivity.
  - vm_compute. reflexivity.
Qed.

(** ** The range of the article similarity *)

(** X21. [calculateArticleSimilarity] lies in [0,1]. It is 0 exactly when
    the title similarity is below 0.3 and is at least 0.18 otherwise, so no
    value strictly between 0 and 0.18 occurs. It exceeds the clustering
    threshold 0.65 only for articles whose descriptions and contents have a
    word similarity of at least 0.125 and whose titles have a similarity
    above 5/12. *)
Theorem X21_articleSimilarity_range (article1 article2 : Article.t) :
  let titleSim :=
    Similarity.calculateTitleSimilarity (Js.str_or (Article.title article1) "")
                                        (Js.str_or (Article.title article2) "") in
  let contentSim :=
    Similarity.calculateSimilarity
      (Js.str_or (Article.description article1) "" ++ " "
       ++ Js.str_or (Article.content article1) "")
      (Js.str_or (Article.description article2) "" ++ " "
       ++ Js.str_or (Article.content article2) "") in
  let similarity := clusteringService.calculateArticleSimilarity article1 article2 in
  (0 <= similarity <= 1)%Q
  /\ ((similarity == 0)%Q <-> (titleSim < 0.3)%Q)
  /\ (~ (similarity == 0)%Q -> (0.18 <= similarity)%Q)
  /\ ((clusteringService.SIMILARITY_THRESHOLD < similarity)%Q ->
      (0.125 <= contentSim)%Q /\ (5 # 12 < titleSim)%Q).
Proof.
  intros titleSim contentSim similarity.
  pose proof (calculateSimilarity_nonneg
                (Js.str_or (Article.description article1) "" ++ " "
                 ++ Js.str_or (Article.content article1) "")
                (Js.str_or (Article.description article2) "" ++ " "
                 ++ Js.str_or (Article.content article2) "")) as C0.
  pose proof (calculateSimilarity_le_1
                (Js.str_or (Article.description article1) "" ++ " "
                 ++ Js.str_or (Article.content article1) "")
                (Js.str_or (Article.description article2) "" ++ " "
                 ++ Js.str_or (Article.content article2) "")) as C1.
  pose proof (calculateTitleSimilarity_le_1 (Js.str_or (Article.title article1) "")
                (Js.str_or (Article.title article2) "")) as T1.
  fold contentSim in C0, C1. fold titleSim in T1.
  subst similarity. unfold clusteringService.calculateArticleSimilarity,
    clusteringService.SIMILARITY_THRESHOLD.
  cbn zeta. fold titleSim contentSim.
  clearbody titleSim contentSim.
  destruct (Qlt_bool titleSim 0.3) eqn:G.
  - apply Qlt_bool_iff in G.
    split; [split; discriminate|]. split; [split; [intros _; exact G|reflexivity]|].
    split; [intros H; exfalso; apply H; reflexivity|].
    intros H. exfalso. revert H. apply Qle_not_lt. discriminate.
  - apply Qlt_bool_false_iff in G.
    split; [split; lra|]. split; [split; intros H; exfalso; lra|].
    split; [intros _; lra|]. intros H. split; lra.
Qed.

(** ** Content types *)

Lemma starts_with_spec (sub s : string) :
  starts_with sub s = true <-> exists post, s = sub ++ post.
Proof.
  revert s. induction sub as [|a sub IH]; intros s.
  - cbn. split; [intros _; exists s; reflexivity|reflexivity].
  - destruct s as [|b s]; cbn.
    + split; [discriminate|intros [post H]; discriminate].
    + rewrite andb_true_iff, IH. split.
      * intros [Hab [post ->]]. apply Ascii.eqb_eq in Hab. subst. exists post. reflexivity.
      * intros [post [= -> ->]]. split; [apply Ascii.eqb_refl|eauto].
Qed.

Lemma str_includes_spec (s sub : string) :
  str_includes s sub = true <-> exists pre post, s = pre ++ sub ++ post.
Proof.
  induction s as [|c s IH].
  - cbn [str_includes]. rewrite orb_false_r, starts_with_spec. split.
    + intros [post H]. exists "", post. exact H.
    + intros (pre & post & H). destruct pre; [|discriminate]. eauto.
  - cbn [str_includes]. rewrite orb_true_iff, starts_with_spec, IH. split.
    + intros [[post H]|(pre & post & H)].
      * exists "", post. exact H.
      * exists (String c pre), post. cbn. rewrite H. reflexivity.
    + intros (pre & post & H). destruct pre as [|a pre].
      * left. exists post. exact H.
      * right. cbn in H. injection H as _ H. eauto.
Qed.

Lemma existsb_mentions (text : string) (words : list string) :
  existsb (str_includes text) words = true <-> mentions text words.
Proof.
  rewrite existsb_exists. unfold mentions. split.
  - intros (w & Hin & H). apply str_includes_spec in H as (pre & post & H). eauto.
  - intros (w & pre & post & Hin & H). exists w. split; [exact Hin|].
    apply str_includes_spec. eauto.
Qed.

(** X22. [detectContentType] answers OPINION exactly when the lower-cased
    title, a space and the lower-cased content (the description when there
    is no content) contain one of the opinion words as a substring, ANALYSIS
    exactly when they contain no opinion word but one of the analysis words,
    and NEWS otherwise: an opinion word wins over an analysis word. The
    answer does not depend on the letter case, on the description of an
    article that has a content, or on any other field. *)
Theorem X22_detectContentType (article : Article.t) :
  let text := Clustering.contentText article in
  (Clustering.detectContentType article = OPINION
   <-> mentions text Clustering.opinionWords)
  /\ (Clustering.detectContentType article = ANALYSIS
      <-> ~ mentions text Clustering.opinionWords
          /\ mentions text Clustering.analysisWords)
  /\ (Clustering.detectContentType article = NEWS
      <-> ~ mentions text Clustering.opinionWords
          /\ ~ mentions text Clustering.analysisWords)
  /\ text = (Js.toLowerCase (Js.str_or (Article.title article) "") ++ " "
             ++ Js.toLowerCase
                  (Js.str_or (Article.content article)
                             (Js.str_or (Article.description article) "")))
  /\ (forall other,
        Js.toLowerCase (Js.str_or (Article.title other) "")
        = Js.toLowerCase (Js.str_or (Article.title article) "") ->
        Js.toLowerCase (Js.str_or (Article.content other)
                                  (Js.str_or (Article.description other) ""))
        = Js.toLowerCase (Js.str_or (Article.content article)
                                    (Js.str_or (Article.description article) "")) ->
        Clustering.detectContentType other = Clustering.detectContentType article)
  /\ (forall other,
        present (Article.content article) = true ->
        Article.title other = Article.title article ->
        Article.content other = Article.content article ->
        Clustering.detectContentType other = Clustering.detectContentType article).
Proof.
  intros text.
  assert (Hsame : forall other, Clustering.contentText other = text ->
                    Clustering.detectContentType other
                    = Clustering.detectContentType article).
  { intros other E. unfold Clustering.detectContentType. cbn zeta.
    rewrite E. reflexivity. }
  assert (Hchar :
            (Clustering.detectContentType article = OPINION
             <-> mentions text Clustering.opinionWords)
            /\ (Clustering.detectContentType article = ANALYSIS
                <-> ~ mentions text Clustering.opinionWords
                    /\ mentions text Clustering.analysisWords)
            /\ (Clustering.detectContentType article = NEWS
                <-> ~ mentions text Clustering.opinionWords
                    /\ ~ mentions text Clustering.analysisWords)).
  { pose proof (existsb_mentions text Clustering.opinionWords) as Ho.
    pose proof (existsb_mentions text Clustering.analysisWords) as Ha.
    unfold Clustering.detectContentType. cbn zeta. fold text.
    destruct (existsb (str_includes text) Clustering.opinionWords) eqn:O;
      [|destruct (existsb (str_includes text) Clustering.analysisWords) eqn:A].
    - assert (mentions text Clustering.opinionWords) by (apply Ho; reflexivity).
      split; [tauto|]. split; split; solve [discriminate | tauto].
    - assert (~ mentions text Clustering.opinionWords)
        by (intros K; apply Ho in K; discriminate).
      assert (mentions text Clustering.analysisWords) by (apply Ha; reflexivity).
      split; [split; [discriminate|tauto]|]. split; [tauto|].
      split; [discriminate|tauto].
    - assert (~ mentions text Clustering.opinionWords)
        by (intros K; apply Ho in K; discriminate).
      assert (~ mentions text Clustering.analysisWords)
        by (intros K; apply Ha in K; discriminate).
      split; [split; [discriminate|tauto]|]. split; [split; [discriminate|tauto]|].
      tauto. }
  destruct Hchar as (H1 & H2 & H3).
  split; [exact H1|]. split; [exact H2|]. split; [exact H3|].
  split; [reflexivity|]. split.
  - intros other E1 E2. apply (Hsame other).
    unfold text, Clustering.contentText. cbn zeta. rewrite E1, E2. reflexivity.
  - intros other Hp E1 E2. apply (Hsame other).
    unfold text, Clustering.contentText. cbn zeta. rewrite E1, E2.
    destruct (Article.content article) as [c|]; [|discriminate].
    cbn in Hp. cbn [Js.str_or]. destruct (String.eqb c ""); [discriminate|reflexivity].
Qed.

(** ** Read times *)




(** ** Vote percentages *)

Lemma round_near (x : Q) :
  (x - (1 # 2) < Js.ofZ (Js.round x) <= x + (1 # 2))%Q.
Proof.
  unfold Js.round, Js.ofZ.
  pose proof (Qfloor_le (x + (1 # 2))) as Hl.
  pose proof (Qlt_floor (x + (1 # 2))) as Hu.
  rewrite inject_Z_plus in Hu. change (inject_Z 1) with 1%Q in Hu.
  set (f := inject_Z (Qfloor (x + (1 # 2)))) in *. split; lra.
Qed.

Lemma ofZ_between (lo hi : Z) (n : Z) :
  (Js.ofZ lo - (1 # 2) < Js.ofZ n)%Q -> (Js.ofZ n < Js.ofZ hi + 1)%Q -> lo <= n <= hi.
Proof.
  unfold Js.ofZ. intros H1 H2.
  assert (K1 : (inject_Z (lo - 1) < inject_Z n)%Q).
  { unfold Z.sub. rewrite inject_Z_plus, inject_Z_opp. change (inject_Z 1) with 1%Q. lra. }
  assert (K2 : (inject_Z n < inject_Z (hi + 1))%Q).
  { rewrite inject_Z_plus. change (inject_Z 1) with 1%Q. lra. }
  rewrite <- Zlt_Qlt in K1, K2. lia.
Qed.

(** X24. After the save hook of a [News] article with non-negative vote
    counts, the three vote percentages each lie between 0 and 100. They are
    all 0 for an article without votes; otherwise they add up to 99, 100 or
    101, but not always to 100: each is rounded on its own. *)
Theorem X24_votePercentages (votes : Votes.t) :
  0 <= Votes.agree votes -> 0 <= Votes.disagree votes -> 0 <= Votes.unsure votes ->
  let saved := NewsVotes.preSave votes in
  let '(agree, disagree, unsure) := NewsVotes.votePercentages saved in
  Votes.total saved = Votes.agree votes + Votes.disagree votes + Votes.unsure votes
  /\ 0 <= agree <= 100 /\ 0 <= disagree <= 100 /\ 0 <= unsure <= 100
  /\ (Votes.total saved = 0 -> agree = 0 /\ disagree = 0 /\ unsure = 0)
  /\ (Votes.total saved <> 0 -> 99 <= agree + disagree + unsure <= 101).
Proof.
  intros Ha Hd Hu saved.
  unfold NewsVotes.votePercentages, NewsVotes.percent.
  cbn [saved NewsVotes.preSave Votes.total Votes.agree Votes.disagree Votes.unsure].
  set (a := Votes.agree votes) in *. set (d := Votes.disagree votes) in *.
  set (u := Votes.unsure votes) in *.
  destruct (Z.eqb_spec (a + d + u) 0) as [E|E].
  - assert (a = 0 /\ d = 0 /\ u = 0) as (-> & -> & ->) by lia.
    cbn. repeat split; try lia; discriminate.
  - assert (T : (0 < Js.ofZ (a + d + u))%Q).
    { unfold Js.ofZ. change 0%Q with (inject_Z 0). rewrite <- Zlt_Qlt. lia. }
    assert (B : forall c, 0 <= c <= a + d + u ->
                  (0 <= Js.ofZ c / Js.ofZ (a + d + u) * 100 <= 100)%Q).
    { intros c [Hc0 Hc1].
      assert (C0 : (0 <= Js.ofZ c)%Q)
        by (unfold Js.ofZ; change 0%Q with (inject_Z 0); rewrite <- Zle_Qle; lia).
      assert (C1 : (Js.ofZ c <= Js.ofZ (a + d + u))%Q)
        by (unfold Js.ofZ; rewrite <- Zle_Qle; lia).
      assert (Q0 : (0 <= Js.ofZ c / Js.ofZ (a + d + u))%Q)
        by (apply Qle_shift_div_l; [exact T|lra]).
      assert (Q1 : (Js.ofZ c / Js.ofZ (a + d + u) <= 1)%Q)
        by (apply Qle_shift_div_r; [exact T|lra]).
      split; lra. }
    assert (S : (Js.ofZ a / Js.ofZ (a + d + u) * 100
                 + Js.ofZ d / Js.ofZ (a + d + u) * 100
                 + Js.ofZ u / Js.ofZ (a + d + u) * 100 == 100)%Q).
    { assert (Es : (Js.ofZ (a + d + u) == Js.ofZ a + Js.ofZ d + Js.ofZ u)%Q)
        by (unfold Js.ofZ; rewrite !inject_Z_plus; reflexivity).
      field_simplify_eq; [rewrite Es; ring|]. intros Z0. rewrite Z0 in T.
      apply (Qlt_irrefl _ T). }
    pose proof (B a ltac:(lia)) as Ba. pose proof (B d ltac:(lia)) as Bd.
    pose proof (B u ltac:(lia)) as Bu.
    pose proof (round_near (Js.ofZ a / Js.ofZ (a + d + u) * 100)) as Ra.
    pose proof (round_near (Js.ofZ d / Js.ofZ (a + d + u) * 100)) as Rd.
    pose proof (round_near (Js.ofZ u / Js.ofZ (a + d + u) * 100)) as Ru.
    set (xa := (Js.ofZ a / Js.ofZ (a + d + u) * 100)%Q) in *.
    set (xd := (Js.ofZ d / Js.ofZ (a + d + u) * 100)%Q) in *.
    set (xu := (Js.ofZ u / Js.ofZ (a + d + u) * 100)%Q) in *.
    set (pa := Js.round xa) in *. set (pd := Js.round xd) in *.
    set (pu := Js.round xu) in *.
    assert (Pa : 0 <= pa <= 100)
      by (apply ofZ_between; change (Js.ofZ 0) with 0%Q;
          change (Js.ofZ 100) with 100%Q; lra).
    assert (Pd : 0 <= pd <= 100)
      by (apply ofZ_between; change (Js.ofZ 0) with 0%Q;
          change (Js.ofZ 100) with 100%Q; lra).
    assert (Pu : 0 <= pu <= 100)
      by (apply ofZ_between; change (Js.ofZ 0) with 0%Q;
          change (Js.ofZ 100) with 100%Q; lra).
    split; [reflexivity|]. split; [exact Pa|]. split; [exact Pd|]. split; [exact Pu|].
    split; [intros; contradiction|]. intros _.
    apply ofZ_between.
    + unfold Js.ofZ. rewrite !inject_Z_plus. fold (Js.ofZ pa) (Js.ofZ pd) (Js.ofZ pu).
      change (inject_Z 99) with 99%Q. lra.
    + unfold Js.ofZ. rewrite !inject_Z_plus. fold (Js.ofZ pa) (Js.ofZ pd) (Js.ofZ pu).
      change (inject_Z 101) with 101%Q. lra.
Qed.

Lemma X24_votePercentages_witness :
  0 <= 1
  /\ (let '(agree, disagree, unsure) :=
        NewsVotes.votePercentages (NewsVotes.preSave (Votes.mk 1 1 1 0)) in
      99 <= agree + disagree + unsure <= 101).
Proof.
  split; [lia|].
  pose proof (X24_votePercentages (Votes.mk 1 1 1 0) ltac:(cbn; lia) ltac:(cbn; lia)
                                  ltac:(cbn; lia)) as H.
  cbv zeta in H.
  destruct (NewsVotes.votePercentages (NewsVotes.preSave (Votes.mk 1 1 1 0)))
    as [[agree disagree] unsure].
  destruct H as (Ht & _ & _ & _ & _ & Hs). apply Hs. rewrite Ht. cbn. lia.
Defined.

(** ** A headline that is already a story *)

Lemma calculateTitleSimilarity_lower_r (title1 title2 title2' : string) :
  Js.toLowerCase title2 = Js.toLowerCase title2' ->
  Similarity.calculateTitleSimilarity title1 title2
  = Similarity.calculateTitleSimilarity title1 title2'.
Proof.
  intros H. unfold Similarity.calculateTitleSimilarity.
  rewrite <- (calculateSimilarity_lower_r _ title2), H.
  rewrite calculateSimilarity_lower_r. reflexivity.
Qed.

Lemma calculateTitleSimilarity_self (title : string) :
  Similarity.extractWords title <> [] ->
  (Similarity.calculateTitleSimilarity title title == 1)%Q.
Proof.
  intros Hw. unfold Similarity.calculateTitleSimilarity.
  rewrite (calculateSimilarity_self title Hw). apply Q.min_r.
  assert (0 <= Qmin (Js.ofNat
                       (List.length
                          (List.filter
                             (Js.includes
                                (Similarity.extractPhrases (Js.toLowerCase title) 3))
                             (Similarity.extractPhrases (Js.toLowerCase title) 3)))
                     * 0.1) 0.3)%Q.
  { apply Q.min_glb; [|discriminate].
    apply Qmult_le_0_compat; [apply ofNat_nonneg|discriminate]. }
  lra.
Qed.

Lemma recalculateImportance_ids (storyId : ObjectId) (now : Z) (st : Store) :
  List.map Story._id (stories (snd (StoryModel.recalculateImportance storyId now st)))
  = List.map Story._id (stories st).
Proof.
  rewrite recalculateImportance_run.
  destruct (findOne _ (stories st)) as [x|] eqn:F; [|reflexivity].
  destruct (findOne_has_id _ _ _ F) as [_ Hx]. cbn zeta. cbn [snd].
  unfold with_stories. cbn [stories Story.set_importanceScore Story._id].
  apply replace_first_ids. reflexivity.
Qed.

Lemma addArticleToStory_ids (storyId : ObjectId) (article : Article.t)
    (similarityScore : Q) (now : Z) (st : Store) :
  List.map Story._id
           (stories (snd (clusteringService.addArticleToStory storyId article
                                                              similarityScore now st)))
  = List.map Story._id (stories st).
Proof.
  rewrite addArticleToStory_run.
  destruct (findOne _ (stories st)) as [story|] eqn:E; [|reflexivity].
  destruct (findOne_has_id _ _ _ E) as [_ Hid].
  destruct (SourceModel.getOrCreate _ now st) as [[source|msg] st1] eqn:G;
    apply getOrCreate_frame in G as (S1 & _); [|cbn [snd]; rewrite S1; reflexivity].
  destruct (findOne _ (storySources st1)); [cbn [snd]; rewrite S1; reflexivity|].
  destruct (StorySourceModel.create _ st1) as [[d|msg] st2] eqn:C.
  - assert (S2 : stories st2 = stories st1).
    { apply StorySource_create_cases in C as [(m & Hr & _)|(_ & -> & _)];
        [discriminate Hr|reflexivity]. }
    cbn zeta.
    destruct (StoryModel.saveStatistics _ st2) as [[u|msg] st3] eqn:V.
    + apply saveStatistics_cases in V as [(m & Hr & _)|(_ & -> & _)];
        [discriminate Hr|].
      cbn [snd]. rewrite recalculateImportance_ids.
      unfold with_stories. cbn [stories].
      rewrite replace_first_ids; [rewrite S2, S1; reflexivity|reflexivity].
    + apply saveStatistics_cases in V as [(m & _ & ->)|(Hr & _)];
        [|discriminate Hr].
      cbn [snd]. rewrite S2, S1. reflexivity.
  - apply StorySource_create_cases in C as [(m & _ & ->)|(Hr & _)];
      [|discriminate Hr].
    cbn [snd]. rewrite S1. reflexivity.
Qed.

(** X25. An article whose title is, up to letter case, the title of a
    story of its category first seen in the last 48 hours, and has at least
    one significant word, never opens a new story: it is merged, skipped or
    fails, and the stories after it are those before it, with the same
    ids. *)
Theorem X25_same_headline_never_new_story (article : Article.t) (now : Z) (st : Store)
    (story : Story.t) :
  In story (stories st) ->
  now - 48 * 60 * 60 * 1000 <= Story.firstSeen story ->
  Story.category story = Js.str_or (Article.category article) "general" ->
  Js.toLowerCase (Story.canonicalTitle story)
  = Js.toLowerCase (Js.str_or (Article.title article) "") ->
  Similarity.extractWords (Js.str_or (Article.title article) "") <> [] ->
  fst (clusteringService.processArticle article now st) <> NewStory
  /\ List.map Story._id (stories (snd (clusteringService.processArticle article now st)))
     = List.map Story._id (stories st).
Proof.
  intros Hin Hw Hc Ht Hs.
  unfold clusteringService.processArticle. rewrite assign_run.
  destruct (findOne _ (storySources st)); [split; [discriminate|reflexivity]|].
  rewrite findMatchingStory_value. cbn [fst].
  destruct (clusteringService.bestOf _ _) as [[best|] score] eqn:B.
  - pose proof (addArticleToStory_ids (Story._id best) article score now st) as Hids.
    destruct (clusteringService.addArticleToStory _ _ _ _ st) as [[s|msg] st'];
      cbn [fst snd] in *; split; (discriminate || exact Hids).
  - exfalso. pose proof (bestOf_none _ _ _ B story) as Hle.
    assert (Hcand : In story (recentStories article now st)).
    { unfold recentStories. apply filter_In. split; [exact Hin|].
      apply andb_true_iff. split; [apply Z.leb_le; exact Hw|].
      apply String.eqb_eq. exact Hc. }
    specialize (Hle Hcand). unfold titleScore in Hle.
    rewrite (calculateTitleSimilarity_lower_r _ _ _ Ht) in Hle.
    rewrite (calculateTitleSimilarity_self _ Hs) in Hle.
    revert Hle. apply Qlt_not_le. reflexivity.
Qed.

Lemma X25_same_headline_never_new_story_witness :
  fst (clusteringService.processArticle
         (Examples.article 106 "SENATE PASSES INFRASTRUCTURE BILL" "AFP"
                           (Some "http://a/6"))
         5000 Examples.afterReuters) <> NewStory.
Proof.
  assert (H : exists story,
             In story (stories Examples.afterReuters)
             /\ 5000 - 48 * 60 * 60 * 1000 <= Story.firstSeen story
             /\ Story.category story = "business"
             /\ Js.toLowerCase (Story.canonicalTitle story)
                = "senate passes infrastructure bill").
  { eexists. split; [vm_compute; left; reflexivity|].
    split; [vm_compute; discriminate|]. split; vm_compute; reflexivity. }
  destruct H as (story & Hin & Hw & Hc & Ht).
  refine (proj1 (X25_same_headline_never_new_story
                   (Examples.article 106 "SENATE PASSES INFRASTRUCTURE BILL" "AFP"
                                     (Some "http://a/6"))
                   5000 Examples.afterReuters story Hin Hw _ _ _)).
  - rewrite Hc. reflexivity.
  - rewrite Ht. reflexivity.
  - vm_compute. discriminate.
Defined.

(** ** Paging through the ranked stories *)

Lemma firstn_plus {A} (a b : nat) (l : list A) :
  firstn (a + b) l = (firstn a l ++ firstn b (skipn a l))%list.
Proof.
  revert l. induction a as [|a IH]; intros l; [reflexivity|].
  destruct l as [|x r]; cbn; [destruct b; reflexivity|].
  rewrite IH. reflexivity.
Qed.

Lemma pages_concat {A} (limit : Z) (l : list A) (n : nat) :
  1 <= limit ->
  List.concat (List.map (fun p => pageOf (Z.of_nat p) limit l) (seq 1 n))
  = firstn (n * Z.to_nat limit) l.
Proof.
  intros Hl. induction n as [|n IH]; [reflexivity|].
  rewrite seq_S, List.map_app, List.concat_app, IH. cbn [List.map List.concat].
  rewrite app_nil_r. unfold pageOf.
  replace (Z.to_nat ((Z.of_nat (1 + n) - 1) * limit)) with (n * Z.to_nat limit)%nat
    by nia.
  replace (S n * Z.to_nat limit)%nat with (n * Z.to_nat limit + Z.to_nat limit)%nat
    by lia.
  symmetry. apply firstn_plus.
Qed.

Lemma getWithCalmRanking_page (options : Options.t) (now : Z) (docs : list Story.t)
    (page : Z) :
  1 <= page -> 1 <= default 20 (Options.limit options) ->
  storiesOf (StoryQueries.getWithCalmRanking (atPage page options) now docs)
  = pageOf page (default 20 (Options.limit options)) (storedRanking options now docs).
Proof.
  intros Hp Hl. unfold StoryQueries.getWithCalmRanking, atPage.
  cbn [Options.page Options.limit Options.category Options.mood Options.maxAgeHours
       default]. cbn zeta.
  fold (storedRanking options now docs).
  rewrite (skip_limit_page page _ _ Hp Hl). reflexivity.
Qed.

(** X26. The pages of [Story.getWithCalmRanking] partition the selected
    stories: for a limit of at least 1, the pages 1 to n, one after the
    other, are the first n times limit stories of the stored ranking, so
    that the pages 1 to totalPages hold every selected story exactly once
    and in order, and every later page is empty. A page number below 1 is
    rejected by the store, and a story is never returned for it. *)
Theorem X26_pages_partition (options : Options.t) (now : Z) (docs : list Story.t) :
  let limit := default 20 (Options.limit options) in
  let ranking := storedRanking options now docs in
  let pageAt := fun page : Z =>
    StoryQueries.getWithCalmRanking (atPage page options) now docs in
  1 <= limit ->
  (forall n : nat,
      List.concat (List.map (fun p => storiesOf (pageAt (Z.of_nat p))) (seq 1 n))
      = firstn (n * Z.to_nat limit) ranking)
  /\ (exists pages,
        totalPagesOf (Z.of_nat (List.length ranking)) limit = Some pages
        /\ 0 <= pages
        /\ List.concat (List.map (fun p => storiesOf (pageAt (Z.of_nat p)))
                                 (seq 1 (Z.to_nat pages)))
           = ranking
        /\ forall page, pages < page -> storiesOf (pageAt page) = [])
  /\ (forall page, page < 1 -> exists msg, pageAt page = Throw msg).
Proof.
  intros limit ranking pageAt Hl.
  assert (Hcat : forall n : nat,
             List.concat (List.map (fun p => storiesOf (pageAt (Z.of_nat p))) (seq 1 n))
             = firstn (n * Z.to_nat limit) ranking).
  { intros n. rewrite <- (pages_concat limit ranking n Hl). f_equal.
    apply List.map_ext_in. intros p Hp. apply in_seq in Hp.
    apply getWithCalmRanking_page; [lia|exact Hl]. }
  split; [exact Hcat|]. split.
  - destruct (totalPagesOf_ceil (Z.of_nat (List.length ranking)) limit ltac:(lia))
      as (pages & E & Hlo & Hhi).
    exists pages. split; [exact E|].
    assert (H0 : 0 <= pages) by nia.
    split; [exact H0|]. split.
    + rewrite Hcat. apply firstn_all2. nia.
    + intros page Hp. unfold pageAt.
      rewrite getWithCalmRanking_page; [|lia|exact Hl].
      unfold pageOf. fold limit ranking.
      rewrite skipn_all2; [destruct (Z.to_nat limit); reflexivity|]. nia.
  - intros page Hp. unfold pageAt, StoryQueries.getWithCalmRanking, atPage.
    cbn [Options.page Options.limit Options.category Options.mood Options.maxAgeHours
         default]. cbn zeta. fold limit. unfold skip_limit, id.
    destruct ((page - 1) * limit <? 0) eqn:E; [eexists; reflexivity|].
    apply Z.ltb_ge in E. nia.
Qed.

Lemma X26_pages_partition_witness :
  1 <= default 20 (Options.limit (Options.mk None (Some 2) None None None))
  /\ List.concat
       (List.map
          (fun p =>
             storiesOf
               (StoryQueries.getWithCalmRanking
                  (atPage (Z.of_nat p) (Options.mk None (Some 2) None None None))
                  (Examples.hours 100)
                  [Examples.fresh; Examples.corroborated; Examples.twin]))
          (seq 1 2))
     = firstn (2 * Z.to_nat 2)
              (storedRanking (Options.mk None (Some 2) None None None)
                             (Examples.hours 100)
                             [Examples.fresh; Examples.corroborated; Examples.twin]).
Proof.
  assert (H : 1 <= default 20 (Options.limit (Options.mk None (Some 2) None None None)))
    by (cbn; lia).
  split; [exact H|].
  exact (proj1 (X26_pages_partition
                  (Options.mk None (Some 2) None None None) (Examples.hours 100)
                  [Examples.fresh; Examples.corroborated; Examples.twin] H) 2%nat).
Defined.

(** X27. With a limit of 0 the ranked queries do not page at all: whatever
    the page number, [Story.getWithCalmRanking] returns every selected story
    in the stored ranking and [getStoriesWithCalmRanking] every selected
    story re-ranked; the number of pages is not a finite number, and
    [hasMore] is reported exactly when at least one story is selected,
    although nothing is left to fetch. *)
Theorem X27_limit_zero (options : Options.t) (now : Z) (docs : list Story.t) :
  Options.limit options = Some 0 ->
  let total := Z.of_nat (List.length (storedRanking options now docs)) in
  (exists r,
      StoryQueries.getWithCalmRanking options now docs = Ok r
      /\ Ranked.stories r = storedRanking options now docs
      /\ Ranked.pagination r
         = Pagination.mk (default 1 (Options.page options)) 0 total None (0 <? total))
  /\ (exists r matching,
        calmRankingService.getStoriesWithCalmRanking options now docs = Ok r
        /\ matching
           = stable_sort byImportanceThenUpdated
               (List.filter
                  (matchesQuery (unless "all" (Options.category options))
                                (unless "all" (Options.mood options))
                                (now - default 72 (Options.maxAgeHours options)
                                       * 60 * 60 * 1000))
                  docs)
        /\ Ranked.stories r = calmRankingService.rankStories matching now
        /\ Pagination.totalPages (Ranked.pagination r) = None
        /\ Pagination.hasMore (Ranked.pagination r)
           = (0 <? Z.of_nat (List.length matching))).
Proof.
  intros Hl total.
  assert (Hlen : forall (p : Story.t -> bool),
             List.length (stable_sort byImportanceThenUpdated (List.filter p docs))
             = List.length (List.filter p docs)).
  { intros p. apply Permutation_length, stable_sort_perm. }
  split.
  - unfold StoryQueries.getWithCalmRanking. rewrite Hl. cbn [default from_option].
    unfold id. cbn zeta. rewrite !Z.mul_0_r. unfold skip_limit.
    cbn [Z.ltb Z.compare Z.eqb Z.to_nat skipn].
    fold (storedRanking options now docs).
    eexists. split; [reflexivity|]. split; [reflexivity|].
    cbn [Ranked.pagination]. unfold totalPagesOf. cbn [Z.eqb].
    subst total. unfold storedRanking. rewrite Hlen. reflexivity.
  - unfold calmRankingService.getStoriesWithCalmRanking. rewrite Hl.
    cbn [default from_option]. unfold id. cbn zeta. rewrite !Z.mul_0_r.
    unfold skip_limit. cbn [Z.ltb Z.compare Z.eqb Z.to_nat skipn].
    eexists _, _. split; [reflexivity|]. split; [reflexivity|].
    split; [reflexivity|]. cbn [Ranked.pagination Pagination.totalPages
                                 Pagination.hasMore].
    split; [reflexivity|]. rewrite Hlen. reflexivity.
Qed.

Lemma X27_limit_zero_witness :
  Options.limit (Options.mk (Some 7) (Some 0) None None None) = Some 0
  /\ exists r,
       StoryQueries.getWithCalmRanking
         (Options.mk (Some 7) (Some 0) None None None) (Examples.hours 100)
         [Examples.fresh; Examples.corroborated; Examples.twin] = Ok r
       /\ Ranked.stories r
          = storedRanking (Options.mk (Some 7) (Some 0) None None None)
                          (Examples.hours 100)
                          [Examples.fresh; Examples.corroborated; Examples.twin].
Proof.
  split; [reflexivity|].
  destruct (proj1 (X27_limit_zero (Options.mk (Some 7) (Some 0) None None None)
                                  (Examples.hours 100)
                                  [Examples.fresh; Examples.corroborated; Examples.twin]
                                  eq_refl))
    as (r & E & S & _).
  exists r. split; [exact E|exact S].
Defined.

(** ** Batches one after the other *)

Lemma clusterLoop_app (pre post : list Article.t) (now : Z) (r : Results.t)
    (st : Store) :
  clusteringService.clusterLoop (pre ++ post) now r st
  = clusteringService.clusterLoop post now
      (fst (clusteringService.clusterLoop pre now r st))
      (snd (clusteringService.clusterLoop pre now r st)).
Proof.
  revert r st. induction pre as [|a pre IH]; intros r st; [reflexivity|].
  cbn [app clusteringService.clusterLoop].
  destruct (clusteringService.processArticle a now st) as [o st']. apply IH.
Qed.

Lemma clusterLoop_results (articles : list Article.t) (now : Z) (r : Results.t)
    (st : Store) :
  let r0 := fst (clusteringService.clusterLoop articles now (Results.mk 0 0 0 0) st) in
  fst (clusteringService.clusterLoop articles now r st)
  = Results.mk (Results.newStories r + Results.newStories r0)
               (Results.mergedArticles r + Results.mergedArticles r0)
               (Results.skipped r + Results.skipped r0)
               (Results.errors r + Results.errors r0).
Proof.
  cbn zeta. rewrite !clusterLoop_outcomes, !tally_occurrences. cbn. reflexivity.
Qed.

(** X28. Clustering a batch in two parts, one after the other at the same
    instant, is clustering it at once: the store after the second part is
    the store after the whole batch, and each of the four counts of the
    whole batch is the sum of the counts of the parts. *)
Theorem X28_batches_compose (pre post : list Article.t) (now : Z) (st : Store) :
  let first := clusteringService.clusterArticles pre now st in
  let second := clusteringService.clusterArticles post now (snd first) in
  let whole := clusteringService.clusterArticles (pre ++ post) now st in
  snd whole = snd second
  /\ Results.newStories (fst whole)
     = Results.newStories (fst first) + Results.newStories (fst second)
  /\ Results.mergedArticles (fst whole)
     = Results.mergedArticles (fst first) + Results.mergedArticles (fst second)
  /\ Results.skipped (fst whole)
     = Results.skipped (fst first) + Results.skipped (fst second)
  /\ Results.errors (fst whole)
     = Results.errors (fst first) + Results.errors (fst second).
Proof.
  intros first second whole.
  assert (E : whole = clusteringService.clusterLoop post now (fst first) (snd first))
    by apply clusterLoop_app.
  rewrite E. split; [apply clusterLoop_store|].
  rewrite (clusterLoop_results post now (fst first) (snd first)). cbn zeta.
  change (clusteringService.clusterLoop post now (Results.mk 0 0 0 0) (snd first))
    with second.
  cbn [Results.newStories Results.mergedArticles Results.skipped Results.errors].
  repeat split.
Qed.

(** ** One link per article *)

Lemma addArticleToStory_links (storyId : ObjectId) (article : Article.t)
    (similarityScore : Q) (now : Z) (st : Store) :
  let st' := snd (clusteringService.addArticleToStory storyId article
                                                      similarityScore now st) in
  storySources st' = storySources st
  \/ exists link, storySources st' = (storySources st ++ [link])%list
                  /\ fromArticle article link.
Proof.
  cbn zeta. rewrite addArticleToStory_run.
  destruct (findOne _ (stories st)) as [story|]; [|left; reflexivity].
  destruct (SourceModel.getOrCreate _ now st) as [[source|msg] st1] eqn:G;
    apply getOrCreate_frame in G as (_ & L1 & _); [|left; exact L1].
  destruct (findOne _ (storySources st1)); [left; exact L1|].
  destruct (StorySourceModel.create _ st1) as [[d|msg] st2] eqn:C.
  - assert (L2 : storySources st2
                 = (storySources st
                    ++ [linkOf storyId article source false similarityScore])%list).
    { apply StorySource_create_cases in C as [(m & Hr & _)|(_ & -> & _)];
        [discriminate Hr|]. cbn. rewrite L1. reflexivity. }
    right. exists (linkOf storyId article source false similarityScore).
    split; [|split; reflexivity]. cbn zeta.
    destruct (StoryModel.saveStatistics _ st2) as [[u|msg] st3] eqn:V.
    + apply saveStatistics_cases in V as [(m & Hr & _)|(_ & -> & _)];
        [discriminate Hr|].
      cbn [snd].
      match goal with
      | |- storySources (snd (StoryModel.recalculateImportance ?i ?n ?s)) = _ =>
          destruct (recalculateImportance_frame i n s) as (R & _)
      end.
      rewrite R. exact L2.
    + apply saveStatistics_cases in V as [(m & _ & ->)|(Hr & _)];
        [|discriminate Hr].
      exact L2.
  - apply StorySource_create_cases in C as [(m & _ & ->)|(Hr & _)];
      [|discriminate Hr].
    left. exact L1.
Qed.

Lemma createStoryFromArticle_links (article : Article.t) (now : Z) (st : Store) :
  let st' := snd (clusteringService.createStoryFromArticle article now st) in
  storySources st' = storySources st
  \/ exists link, storySources st' = (storySources st ++ [link])%list
                  /\ fromArticle article link.
Proof.
  cbn zeta. rewrite createStoryFromArticle_run.
  destruct (SourceModel.getOrCreate _ now st) as [[source|msg] st1] eqn:G;
    apply getOrCreate_frame in G as (_ & L1 & _); [|left; exact L1].
  destruct (StoryModel.create _ _ _ _ _ _ _ _ _ st1) as [[story|msg] st2] eqn:S.
  - assert (L2 : storySources st2 = storySources st).
    { apply StoryModel_create_cases in S as [(m & Hr & _)|(_ & -> & _)];
        [discriminate Hr|]. exact L1. }
    destruct (StorySourceModel.create _ st2) as [[d|msg] st3] eqn:C.
    + apply StorySource_create_cases in C as [(m & Hr & _)|(_ & -> & _)];
        [discriminate Hr|].
      right. exists (linkOf (Story._id story) article source true 1).
      split; [cbn; rewrite L2; reflexivity|split; reflexivity].
    + apply StorySource_create_cases in C as [(m & _ & ->)|(Hr & _)];
        [|discriminate Hr].
      left. exact L2.
  - apply StoryModel_create_cases in S as [(m & _ & ->)|(Hr & _)];
      [|discriminate Hr].
    left. exact L1.
Qed.

Lemma processArticle_links (article : Article.t) (now : Z) (st : Store) :
  let st' := snd (clusteringService.processArticle article now st) in
  storySources st' = storySources st
  \/ (~ linked article st
      /\ exists link, storySources st' = (storySources st ++ [link])%list
                      /\ fromArticle article link).
Proof.
  cbn zeta. unfold clusteringService.processArticle. rewrite assign_run.
  destruct (findOne _ (storySources st)) eqn:F; [left; reflexivity|].
  assert (Hn : ~ linked article st).
  { intros H. apply linked_findOne in H as [row H]. congruence. }
  destruct (fst (clusteringService.findMatchingStory article now st))
    as [[[story score]|]|msg0].
  - pose proof (addArticleToStory_links (Story._id story) article score now st) as H.
    destruct (clusteringService.addArticleToStory _ _ _ _ st) as [[s|msg] st'];
      cbn [snd] in *; destruct H as [H|H]; auto.
  - pose proof (createStoryFromArticle_links article now st) as H.
    destruct (clusteringService.createStoryFromArticle _ _ st) as [[s|msg] st'];
      cbn [snd] in *; destruct H as [H|H]; auto.
  - pose proof (createStoryFromArticle_links article now st) as H.
    destruct (clusteringService.createStoryFromArticle _ _ st) as [[s|msg] st'];
      cbn [snd] in *; destruct H as [H|H]; auto.
Qed.

Lemma clusterLoop_links (articles : list Article.t) (now : Z) (r : Results.t)
    (st : Store) :
  List.NoDup (List.map StorySource.articleId (storySources st)) ->
  let st' := snd (clusteringService.clusterLoop articles now r st) in
  List.NoDup (List.map StorySource.articleId (storySources st'))
  /\ (List.length (storySources st')
      <= List.length (storySources st) + List.length articles)%nat.
Proof.
  revert r st. induction articles as [|a rest IH]; intros r st Hd; cbn.
  - split; [exact Hd|lia].
  - pose proof (processArticle_links a now st) as H. cbn zeta in H.
    destruct (clusteringService.processArticle a now st) as [o st1]. cbn [snd] in H.
    assert (Hd1 : List.NoDup (List.map StorySource.articleId (storySources st1))
                  /\ (List.length (storySources st1)
                      <= S (List.length (storySources st)))%nat).
    { destruct H as [->|(Hn & link & -> & Ha & _)]; [split; [exact Hd|lia]|].
      split; [|rewrite length_app; cbn; lia].
      rewrite List.map_app. cbn. apply NoDup_snoc; [exact Hd|].
      intros Hin. apply in_map_iff in Hin as (row & Hid & Hin).
      apply Hn. exists row. split; [exact Hin|]. congruence. }
    destruct Hd1 as [Hd1 Hl1].
    destruct (IH (clusteringService.count o r) st1 Hd1) as [Hd2 Hl2].
    split; [exact Hd2|lia].
Qed.

(** X29. No article has two links: if the article ids of the stored link
    documents are distinct, they are distinct after every [clusterArticles]
    batch, whatever its articles are and however many of them fail. One
    article adds at most one link, and none when it already has one, so a
    batch adds at most as many links as it has articles. *)
Theorem X29_one_link_per_article (articles : list Article.t) (now : Z) (st : Store) :
  List.NoDup (List.map StorySource.articleId (storySources st)) ->
  let st' := snd (clusteringService.clusterArticles articles now st) in
  List.NoDup (List.map StorySource.articleId (storySources st'))
  /\ (List.length (storySources st')
      <= List.length (storySources st) + List.length articles)%nat
  /\ (forall article,
        let after := snd (clusteringService.processArticle article now st) in
        storySources after = storySources st
        \/ (~ linked article st
            /\ exists link,
                 storySources after = (storySources st ++ [link])%list
                 /\ StorySource.articleId link = Article._id article
                 /\ StorySource.sourceName link = Article.source article)).
Proof.
  intros Hd st'.
  destruct (clusterLoop_links articles now (Results.mk 0 0 0 0) st Hd) as [H1 H2].
  split; [exact H1|]. split; [exact H2|].
  intros article. exact (processArticle_links article now st).
Qed.

Lemma X29_one_link_per_article_witness :
  List.NoDup (List.map StorySource.articleId (storySources Examples.emptyStore))
  /\ List.NoDup
       (List.map StorySource.articleId
          (storySources
             (snd (clusteringService.clusterArticles
                     [Examples.reuters; Examples.bbc; Examples.reuters] 5000
                     Examples.emptyStore)))).
Proof.
  assert (H : List.NoDup
                (List.map StorySource.articleId (storySources Examples.emptyStore)))
    by constructor.
  split; [exact H|].
  exact (proj1 (X29_one_link_per_article
                  [Examples.reuters; Examples.bbc; Examples.reuters] 5000
                  Examples.emptyStore H)).
Defined.

(** ** The two ranked queries *)

Lemma unless_other (off : string) (x : option string) :
  x <> Some off -> unless off x = truthy x.
Proof.
  intros H. unfold unless. destruct (truthy x) as [s|] eqn:E; [|reflexivity].
  destruct (String.eqb_spec s off) as [->|_]; [|reflexivity].
  exfalso. apply H. unfold truthy in E. destruct x as [t|]; [|discriminate].
  destruct (String.eqb t ""); [discriminate|]. exact E.
Qed.

(** X30. Unless the category is "all" or "general" or the mood is "all",
    the two ranked queries select and page alike: [getStoriesWithCalmRanking]
    fails when [Story.getWithCalmRanking] fails, with the same message, and
    otherwise returns the stories of [Story.getWithCalmRanking] passed
    through [rankStories], with the same pagination. *)
Theorem X30_ranked_queries_agree (options : Options.t) (now : Z) (docs : list Story.t) :
  Options.category options <> Some "all" ->
  Options.category options <> Some "general" ->
  Options.mood options <> Some "all" ->
  match StoryQueries.getWithCalmRanking options now docs,
        calmRankingService.getStoriesWithCalmRanking options now docs with
  | Ok stored, Ok ranked =>
      Ranked.stories ranked = calmRankingService.rankStories (Ranked.stories stored) now
      /\ Ranked.pagination ranked = Ranked.pagination stored
  | Throw msg, Throw msg' => msg = msg'
  | _, _ => False
  end.
Proof.
  intros Hall Hgen Hmood.
  unfold StoryQueries.getWithCalmRanking, calmRankingService.getStoriesWithCalmRanking.
  cbn zeta.
  rewrite (unless_other "all" _ Hall), (unless_other "general" _ Hgen),
    (unless_other "all" _ Hmood).
  destruct (skip_limit _ _ _) as [stories|msg]; [split; reflexivity|reflexivity].
Qed.

Lemma X30_ranked_queries_agree_witness :
  Options.category Examples.noOptions <> Some "all"
  /\ match StoryQueries.getWithCalmRanking
             Examples.noOptions (Examples.hours 100)
             [Examples.fresh; Examples.corroborated; Examples.twin],
           calmRankingService.getStoriesWithCalmRanking
             Examples.noOptions (Examples.hours 100)
             [Examples.fresh; Examples.corroborated; Examples.twin] with
     | Ok stored, Ok ranked =>
         Ranked.stories ranked
         = calmRankingService.rankStories (Ranked.stories stored) (Examples.hours 100)
         /\ Ranked.pagination ranked = Ranked.pagination stored
     | Throw msg, Throw msg' => msg = msg'
     | _, _ => False
     end.
Proof.
  assert (H : Options.category Examples.noOptions <> Some "all") by discriminate.
  split; [exact H|].
  apply (X30_ranked_queries_agree Examples.noOptions (Examples.hours 100)
           [Examples.fresh; Examples.corroborated; Examples.twin] H);
    discriminate.
Defined.
